(** * PBI-API-Beacon: the request layer and the entity graph

    A shallow embedding of [src/APIBeacon]: the exception classes of
    [api_custom_exceptions.py], the client of [api.py] (authentication,
    response classification, the three retrying request methods, the lazily
    built shared instance) and the entities of [user.py], [semantic_model.py],
    [app.py], [report.py], [workspace.py] and [service.py].

    Python objects that are mutated in place are threaded explicitly: a
    method returns the updated [self] next to its outcome.  The process-wide
    effects (HTTP requests, sleeps, the log, interactive authentications, the
    singleton table and the client instances) live in a [World].  What the
    outside answers (the HTTP transport, the identity provider, the JWT
    decoder, the interpreter's hash of a string) is read from an [Env]. *)

From Stdlib Require Import ZArith List String Ascii Bool Lia Arith DecimalString.
Import ListNotations.

Set Warnings "-register-all".

Local Open Scope list_scope.
Local Open Scope string_scope.

(* ================================================================== *)
(** ** Exceptions *)

(** The exception classes that can travel through the client: the seven of
    [api_custom_exceptions.py], the classes of [requests.exceptions] and
    [jwt.exceptions] named in [api.py], and the builtins they derive from. *)
Inductive ExnClass : Type :=
| Exception | TypeError | LookupError | KeyError | OSError
| RequestException | HTTPError | ConnectionError | Timeout
| ConnectTimeout | ReadTimeout | TooManyRedirects
| PyJWTError | InvalidTokenError | DecodeError
| InvalidSignatureError | ExpiredSignatureError
| APIError | UnauthorizedError | TokenExpiredError | TooManyRequestsError
| InternalServerError | JSONDecodeError | PowerBIEntityNotFoundError.

Definition ExnClass_eq_dec (c d : ExnClass) : {c = d} + {c <> d}.
Proof. decide equality. Defined.

Definition ExnClass_eqb (c d : ExnClass) : bool :=
  if ExnClass_eq_dec c d then true else false.

(** The classes written between the parentheses of each [class] statement. *)
Definition bases (c : ExnClass) : list ExnClass :=
  match c with
  | Exception => []
  | TypeError => [Exception]
  | LookupError => [Exception]
  | KeyError => [LookupError]
  | OSError => [Exception]
  | RequestException => [OSError]
  | HTTPError => [RequestException]
  | ConnectionError => [RequestException]
  | Timeout => [RequestException]
  | ConnectTimeout => [ConnectionError; Timeout]
  | ReadTimeout => [Timeout]
  | TooManyRedirects => [RequestException]
  | PyJWTError => [Exception]
  | InvalidTokenError => [PyJWTError]
  | DecodeError => [InvalidTokenError]
  | InvalidSignatureError => [DecodeError]
  | ExpiredSignatureError => [InvalidTokenError]
  (* api_custom_exceptions.py *)
  | APIError => [Exception]
  | UnauthorizedError => [Exception]
  | TokenExpiredError => [Exception]
  | TooManyRequestsError => [Exception]
  | InternalServerError => [Exception]
  | JSONDecodeError => [APIError]
  | PowerBIEntityNotFoundError => [Exception]
  end.

(** [issubclass c d]: [d] is reached from [c] along [bases].  No chain of
    bases above is longer than five. *)
Fixpoint issubclass_upto (depth : nat) (c d : ExnClass) : bool :=
  ExnClass_eqb c d ||
  match depth with
  | O => false
  | S depth' => existsb (fun b => issubclass_upto depth' b d) (bases c)
  end.

Definition issubclass (c d : ExnClass) : bool := issubclass_upto 6 c d.

(** A raised exception: its class, [str(e)], and the [__cause__] set by
    [raise ... from e]. *)
Inductive Exn : Type :=
| mkExn (cls : ExnClass) (msg : string) (cause : option Exn).

Definition exn_class (e : Exn) : ExnClass := let 'mkExn c _ _ := e in c.
Definition exn_msg (e : Exn) : string := let 'mkExn _ m _ := e in m.
Definition exn_cause (e : Exn) : option Exn := let 'mkExn _ _ c := e in c.

(** [except (C1, C2, ...) as e] selects [e] when its class derives from one
    of the listed classes. *)
Definition isinstance (e : Exn) (classes : list ExnClass) : bool :=
  existsb (issubclass (exn_class e)) classes.

(** The named error types the client raises: what [_handle_response] can
    pick, and the [JSONDecodeError] imported next to them. *)
Definition named_errors : list ExnClass :=
  [UnauthorizedError; TokenExpiredError; TooManyRequestsError;
   InternalServerError; PowerBIEntityNotFoundError; JSONDecodeError].

(** The result of a call that either returns or raises. *)
Inductive result (A : Type) : Type :=
| Ok (a : A)
| Err (e : Exn).
Arguments Ok {A} a.
Arguments Err {A} e.

(* ================================================================== *)
(** ** Python values *)

(** A Python [float], an IEEE 754 double: a NaN, an infinity, a zero, or
    [(-1)^negative * m * 2^e].  Floats are compared and hashed by their
    value.  A NaN equals nothing, itself included; what tells one NaN object
    from another is its identity [obj], which a container looks at before it
    asks [==] and which [hash] may read.  The bounds of the format on [m]
    and [e] are not imposed: the model has more floats than Python, none of
    which behaves differently. *)
Inductive PyFloat_t : Type :=
| F_nan (obj : nat)
| F_inf (negative : bool)
| F_zero (negative : bool)
| F_finite (negative : bool) (m : positive) (e : Z).

Definition PyFloat_eq_dec (f g : PyFloat_t) : {f = g} + {f <> g}.
Proof. repeat decide equality. Defined.

Definition PyFloat_eqb (f g : PyFloat_t) : bool :=
  if PyFloat_eq_dec f g then true else false.

(** [m * 2^e] with the factors of two of [m] moved into the exponent: the one
    way to write that number with an odd [m]. *)
Fixpoint normalize (m : positive) (e : Z) : positive * Z :=
  match m with
  | xO m' => normalize m' (e + 1)
  | _ => (m, e)
  end.

(** The one float that stands for the value of [f]: the zero without its
    sign, a finite float with an odd [m]. *)
Definition canonical (f : PyFloat_t) : PyFloat_t :=
  match f with
  | F_zero _ => F_zero false
  | F_finite negative m e =>
      let '(m', e') := normalize m e in F_finite negative m' e'
  | _ => f
  end.

(** [f == g] on floats. *)
Definition float_eq (f g : PyFloat_t) : bool :=
  match f, g with
  | F_nan _, _ | _, F_nan _ => false
  | _, _ => PyFloat_eqb (canonical f) (canonical g)
  end.

(** The integer a float is equal to, when there is one. *)
Definition float_as_int (f : PyFloat_t) : option Z :=
  match canonical f with
  | F_zero _ => Some 0%Z
  | F_finite negative m e =>
      if Z.leb 0 e
      then Some (if negative then - (Z.pos m * 2 ^ e) else Z.pos m * 2 ^ e)%Z
      else None
  | _ => None
  end.

(** [n == f] for an [int] and a [float]: the comparison is exact. *)
Definition int_eq_float (n : Z) (f : PyFloat_t) : bool :=
  match float_as_int f with
  | Some k => Z.eqb n k
  | None => false
  end.

(** What [response.json()] and [jwt.decode] produce, and the tuples built
    from them.  A dict is its items in insertion order, with distinct
    keys. *)
Inductive PyVal : Type :=
| PyNone
| PyBool (b : bool)
| PyInt (n : Z)
| PyFloat (f : PyFloat_t)
| PyStr (s : string)
| PyList (l : list PyVal)
| PyTuple (l : list PyVal)
| PyDict (d : list (string * PyVal)).

Definition Kwargs : Type := list (string * PyVal).

(** [d.get(key)], as an option. *)
Fixpoint lookup {A : Type} (key : string) (d : list (string * A)) : option A :=
  match d with
  | [] => None
  | (k, v) :: rest => if String.eqb k key then Some v else lookup key rest
  end.

(** [kwargs.get(key)]: [None] when the key is absent. *)
Definition kwargs_get (kwargs : Kwargs) (key : string) : PyVal :=
  match lookup key kwargs with
  | Some v => v
  | None => PyNone
  end.

(** [x is y] for two objects that [==] does not find equal: only a NaN
    differs from itself. *)
Definition same_nan (x y : PyVal) : bool :=
  match x, y with
  | PyFloat (F_nan i), PyFloat (F_nan j) => Nat.eqb i j
  | _, _ => false
  end.

(** [a == b] on these values: [bool] is an [int], an [int] and a [float]
    compare by value; sequences compare item by item and dicts as maps,
    where two items match when they are the same object or [==] holds
    ([x is y or x == y]). *)
Fixpoint py_eq (a b : PyVal) {struct a} : bool :=
  match a, b with
  | PyNone, PyNone => true
  | PyBool x, PyBool y => Bool.eqb x y
  | PyBool x, PyInt n => Z.eqb (Z.b2z x) n
  | PyBool x, PyFloat g => int_eq_float (Z.b2z x) g
  | PyInt m, PyBool y => Z.eqb m (Z.b2z y)
  | PyInt m, PyInt n => Z.eqb m n
  | PyInt m, PyFloat g => int_eq_float m g
  | PyFloat f, PyBool y => int_eq_float (Z.b2z y) f
  | PyFloat f, PyInt n => int_eq_float n f
  | PyFloat f, PyFloat g => float_eq f g
  | PyStr s, PyStr t => String.eqb s t
  | PyList l1, PyList l2 =>
      (fix seq_eq (xs ys : list PyVal) {struct xs} : bool :=
         match xs, ys with
         | [], [] => true
         | x :: xs', y :: ys' => (same_nan x y || py_eq x y) && seq_eq xs' ys'
         | _, _ => false
         end) l1 l2
  | PyTuple l1, PyTuple l2 =>
      (fix seq_eq (xs ys : list PyVal) {struct xs} : bool :=
         match xs, ys with
         | [], [] => true
         | x :: xs', y :: ys' => (same_nan x y || py_eq x y) && seq_eq xs' ys'
         | _, _ => false
         end) l1 l2
  | PyDict d1, PyDict d2 =>
      Nat.eqb (List.length d1) (List.length d2) &&
      (fix items_eq (items : list (string * PyVal)) {struct items} : bool :=
         match items with
         | [] => true
         | (k, v) :: items' =>
             match lookup k d2 with
             | Some v' => same_nan v v' || py_eq v v'
             | None => false
             end && items_eq items'
         end) d1
  | _, _ => false
  end.

(** Truth value of an optional string or integer argument
    ([if filter], [if top]). *)
Definition truthy_str (s : option string) : bool :=
  match s with
  | Some s' => negb (String.eqb s' "")
  | None => false
  end.

Definition truthy_int (n : option Z) : bool :=
  match n with
  | Some n' => negb (Z.eqb n' 0)
  | None => false
  end.

(** Decimal text of an integer, as an f-string prints it. *)
Definition str_of_Z (n : Z) : string := NilZero.string_of_int (Z.to_int n).

(** [sep.join(parts)]. *)
Fixpoint join (sep : string) (parts : list string) : string :=
  match parts with
  | [] => ""
  | [p] => p
  | p :: rest => p ++ sep ++ join sep rest
  end.

(* ================================================================== *)
(** ** Object state *)

(** [requests.get/post/delete(url, headers=, proxies=, timeout=, json=)]. *)
Inductive Method : Type := GET | POST | DELETE.

Definition Headers : Type := list (string * string).

Record Request : Type := mkRequest {
  req_method : Method;
  req_url : string;
  req_headers : option Headers;
  req_proxies : option Headers;
  req_timeout : Z;
  req_json : option PyVal
}.

(** A [requests.Response]: the status, the body text, and what
    [response.json()] does with that body (a value, or the decoder's
    exception). *)
Record Response : Type := mkResponse {
  status_code : Z;
  text : string;
  json : result PyVal
}.

(** An [AbstractPbiAPI] instance.  [access_token] and [header] do not exist
    before [authenticate] has assigned them. *)
Record AbstractPbiAPI_t : Type := mkAbstractPbiAPI {
  proxies : option Headers;
  user : PyVal;
  saved_token : option string;
  access_token : option string;
  header : option Headers
}.

(** The [PbiAPI] instance; [_pbi_api] refers to a client on the heap. *)
Record PbiAPI_t : Type := mkPbiAPI {
  PbiAPI_proxy_url : option string;
  PbiAPI_saved_token : option string;
  _pbi_api : option nat
}.

(** The back-reference [parent] is non-owning; it is kept as what names the
    owner: the service, or a workspace through its [id]. *)
Inductive Owner : Type :=
| OwnerService
| OwnerWorkspace (workspace_id : PyVal).

Record User_t : Type := mkUser {
  User_original_data : Kwargs;
  User_parent : Owner;
  User_email : PyVal;
  User_access_right : PyVal;
  User_principal_type : PyVal;
  User_name : PyVal
}.

Record SemanticModel_t : Type := mkSemanticModel {
  SemanticModel_original_data : Kwargs;
  SemanticModel_parent : Owner;
  SemanticModel_id : PyVal;
  SemanticModel_name : PyVal;
  SemanticModel_configured_by : PyVal;
  SemanticModel_is_refreshable : PyVal;
  SemanticModel_created_date : PyVal;
  SemanticModel_storage_mode : PyVal
}.

Record App_t : Type := mkApp {
  App_original_data : Kwargs;
  App_service : Owner;
  App_id : PyVal;
  App_description : PyVal;
  App_name : PyVal;
  App_published_by : PyVal;
  App_last_update : PyVal
}.

Record Report_t : Type := mkReport {
  Report_original_data : Kwargs;
  Report_parent : Owner;
  Report_api : nat;
  Report_app_id : PyVal;
  Report_dataset_id : PyVal;
  Report_description : PyVal;
  Report_embed_url : PyVal;
  Report_id : PyVal;
  Report_name : PyVal;
  Report_original_report_id : PyVal;
  Report_type : PyVal;
  Report_web_url : PyVal;
  Report_modified_by : PyVal;
  Report_created_by : PyVal
}.

(** Modelled from the spec: [dashboard.py] is not under src.  A dashboard is,
    like every entity, a snapshot of one JSON object with a back-reference to
    its owner; its constructor, hash and equality are read from the [Env]. *)
Record Dashboard_t : Type := mkDashboard {
  Dashboard_original_data : Kwargs;
  Dashboard_parent : Owner
}.

(** A Python [set] of entities, in insertion order; the order is not
    observable through the operations below. *)
Definition PySet (A : Type) : Type := list A.

Record Workspace_t : Type := mkWorkspace {
  Workspace_original_data : Kwargs;
  Workspace_parent : Owner;
  Workspace_api : nat;
  Workspace_id : PyVal;
  Workspace_name : PyVal;
  Workspace_is_read_only : PyVal;
  Workspace_is_on_dedicated_capacity : PyVal;
  Workspace_capacity_id : PyVal;
  reports : PySet Report_t;
  semantic_models : PySet SemanticModel_t;
  dataflows : PySet PyVal;
  dashboards : PySet Dashboard_t;
  data_sources : PySet PyVal;
  users : PySet User_t
}.

Record Service_t : Type := mkService {
  Service_api : nat;
  workspaces : PySet Workspace_t;
  apps : PySet App_t
}.

(** Any object an [__eq__] may be handed as [other]. *)
Inductive PyObject : Type :=
| ObjVal (v : PyVal)
| ObjUser (u : User_t)
| ObjSemanticModel (m : SemanticModel_t)
| ObjApp (a : App_t)
| ObjReport (r : Report_t)
| ObjDashboard (d : Dashboard_t)
| ObjWorkspace (w : Workspace_t)
| ObjService (s : Service_t).

(* ================================================================== *)
(** ** The outside world *)

(** What the process does not decide.  [transport n req] is the answer to
    the request [req] when [n] requests were issued before it;
    [get_token n] is the answer of the interactive login when [n] logins
    were made before it.  The hashes are the interpreter's: of a string
    (seeded per process), of an integer, of a float that is no integer (by
    its value), of a NaN (by its identity or not, as the interpreter has
    it), of [None], and the combination of the hashes of a tuple's items;
    so is the text of a float. *)
Record Env : Type := mkEnv {
  transport : nat -> Request -> result Response;
  get_token : nat -> result string;
  jwt_decode : string -> result Kwargs;
  hash_str : string -> Z;
  hash_int : Z -> Z;
  hash_float : PyFloat_t -> Z;
  hash_nan : nat -> Z;
  hash_none : Z;
  hash_tuple : list Z -> Z;
  repr_container : PyVal -> string;
  repr_float : PyFloat_t -> string;
  Dashboard_new : Owner -> PyVal -> result Dashboard_t;
  Dashboard_hash : Dashboard_t -> result Z;
  Dashboard_eq : Dashboard_t -> Dashboard_t -> bool
}.

Inductive Level : Type := INFO | WARNING | ERROR.

(** The effects of the process so far. *)
Record World : Type := mkWorld {
  http_calls : list Request;
  sleeps : list Z;
  log : list (Level * string);
  logins : nat;
  PbiAPI_instance : option PbiAPI_t;
  heap : list AbstractPbiAPI_t
}.

Definition fresh_world : World :=
  {| http_calls := []; sleeps := []; log := []; logins := 0;
     PbiAPI_instance := None; heap := [] |}.

(* ================================================================== *)
(** ** Computations *)

(** How a call ends: it returns, it raises, the recursion budget of the
    model ran out, or a reference pointed outside the heap (which no Python
    reference does). *)
Inductive Outcome (A : Type) : Type :=
| Return (a : A)
| Raise (e : Exn)
| OutOfFuel
| Dangling.
Arguments Return {A} a.
Arguments Raise {A} e.
Arguments OutOfFuel {A}.
Arguments Dangling {A}.

(** A computation over a state [S] ([World], or an object with the world). *)
Definition M (S A : Type) : Type := S -> Outcome A * S.

Definition ret {S A : Type} (a : A) : M S A := fun s => (Return a, s).

Definition bind {S A B : Type} (m : M S A) (k : A -> M S B) : M S B :=
  fun s =>
    match m s with
    | (Return a, s') => k a s'
    | (Raise e, s') => (Raise e, s')
    | (OutOfFuel, s') => (OutOfFuel, s')
    | (Dangling, s') => (Dangling, s')
    end.

Definition raise {S A : Type} (e : Exn) : M S A := fun s => (Raise e, s).

Definition out_of_fuel {S A : Type} : M S A := fun s => (OutOfFuel, s).

Definition lift {S A : Type} (r : result A) : M S A :=
  match r with
  | Ok a => ret a
  | Err e => raise e
  end.

(** [try: body  except ... as e: handler e].  The handler runs in the state
    the body left; what the handler raises is not caught again. *)
Definition try_except {S A : Type} (body : M S A) (handler : Exn -> M S A) : M S A :=
  fun s =>
    match body s with
    | (Raise e, s') => handler e s'
    | other => other
    end.

Declare Scope py_scope.
Delimit Scope py_scope with py.
Notation "x <- m ;; k" := (bind m (fun x => k))
  (at level 61, m at next level, right associativity) : py_scope.
Notation "m ;; k" := (bind m (fun _ => k))
  (at level 61, right associativity) : py_scope.
Local Open Scope py_scope.

(** A method of an object: the state is the object and the world. *)
Definition in_world {Self A : Type} (m : M World A) : M (Self * World) A :=
  fun s =>
    let '(r, w') := m (snd s) in (r, (fst s, w')).

Definition get_self {Self : Type} : M (Self * World) Self :=
  fun s => (Return (fst s), s).

Definition set_self {Self : Type} (self : Self) : M (Self * World) unit :=
  fun s => (Return tt, (self, snd s)).

(** [for attempt in range(...): body] where the body either returns from the
    function ([Some r]) or falls through to the next iteration ([None]);
    [after] is the code below the loop. *)
Fixpoint for_attempts {S A : Type} (body : nat -> M S (option A))
    (attempts : list nat) (after : M S A) : M S A :=
  match attempts with
  | [] => after
  | attempt :: rest =>
      r <- body attempt;;
      match r with
      | Some a => ret a
      | None => for_attempts body rest after
      end
  end.

Definition range (n : Z) : list nat := seq 0 (Z.to_nat n).

(** The log sink, [time.sleep], the HTTP transport, the interactive login,
    and the heap. *)
Definition logger (level : Level) (message : string) : M World unit :=
  fun w =>
    (Return tt,
     {| http_calls := http_calls w; sleeps := sleeps w;
        log := log w ++ [(level, message)]; logins := logins w;
        PbiAPI_instance := PbiAPI_instance w; heap := heap w |}).

Definition time_sleep (seconds : Z) : M World unit :=
  fun w =>
    (Return tt,
     {| http_calls := http_calls w; sleeps := sleeps w ++ [seconds];
        log := log w; logins := logins w;
        PbiAPI_instance := PbiAPI_instance w; heap := heap w |}).

Definition requests_request (E : Env) (req : Request) : M World Response :=
  fun w =>
    let w' := {| http_calls := http_calls w ++ [req]; sleeps := sleeps w;
                 log := log w; logins := logins w;
                 PbiAPI_instance := PbiAPI_instance w; heap := heap w |} in
    match transport E (List.length (http_calls w)) req with
    | Ok response => (Return response, w')
    | Err e => (Raise e, w')
    end.

Definition InteractiveBrowserCredential_get_token (E : Env) : M World string :=
  fun w =>
    let w' := {| http_calls := http_calls w; sleeps := sleeps w;
                 log := log w; logins := S (logins w);
                 PbiAPI_instance := PbiAPI_instance w; heap := heap w |} in
    match get_token E (logins w) with
    | Ok token => (Return token, w')
    | Err e => (Raise e, w')
    end.

Definition deref (ref : nat) : M World AbstractPbiAPI_t :=
  fun w =>
    match nth_error (heap w) ref with
    | Some client => (Return client, w)
    | None => (Dangling, w)
    end.

(* ================================================================== *)
(** ** api.py: [AbstractPbiAPI] *)

Module AbstractPbiAPI.

Definition BASE_URL : string := "https://api.powerbi.com/v1.0/myorg/".

(** [__user_info]: decode the token without verifying the signature and keep
    its ["upn"] claim; a missing claim is a [KeyError]. *)
Definition __user_info (E : Env) (self : AbstractPbiAPI_t) : result AbstractPbiAPI_t :=
  match access_token self with
  | None => Err (mkExn Exception "'AbstractPbiAPI' object has no attribute 'access_token'" None)
  | Some token =>
      match jwt_decode E token with
      | Err e => Err e
      | Ok decoded_token =>
          match lookup "upn" decoded_token with
          | Some upn =>
              Ok {| proxies := proxies self; user := upn;
                    saved_token := saved_token self;
                    access_token := access_token self; header := header self |}
          | None => Err (mkExn KeyError "'upn'" None)
          end
      end
  end.

(** [reauthenticate], over the [authenticate] it calls back into. *)
Definition reauthenticate_via
    (authenticate : AbstractPbiAPI_t -> M World AbstractPbiAPI_t)
    (self : AbstractPbiAPI_t) : M World (option string * AbstractPbiAPI_t) :=
  let self := {| proxies := proxies self; user := user self;
                 saved_token := None;
                 access_token := access_token self; header := header self |} in
  self <- authenticate self;;
  ret (access_token self, self).

(** [authenticate]; it returns the updated [self].  [authenticate] and
    [reauthenticate] call each other, so the depth of calls is bounded by
    [fuel]. *)
Fixpoint authenticate (E : Env) (fuel : nat) (self : AbstractPbiAPI_t)
    : M World AbstractPbiAPI_t :=
  match fuel with
  | O => out_of_fuel
  | S fuel' =>
      token <- (if negb (truthy_str (saved_token self)) then
                  InteractiveBrowserCredential_get_token E
                else
                  ret (match saved_token self with Some t => t | None => "" end));;
      let self := {| proxies := proxies self; user := user self;
                     saved_token := saved_token self;
                     access_token := Some token;
                     header := Some [("Authorization", ("Bearer " ++ token)%string)] |} in
      try_except
        (lift (__user_info E self))
        (fun e =>
           if isinstance e [ExpiredSignatureError; DecodeError;
                            InvalidSignatureError; InvalidTokenError] then
             logger WARNING "Saved token has expired. Reauthenticating...";;
             r <- reauthenticate_via (authenticate E fuel') self;;
             ret (snd r)
           else if isinstance e [Exception] then
             logger ERROR "Unexpected error during user info retrieval. Reauthenticating...";;
             r <- reauthenticate_via (authenticate E fuel') self;;
             ret (snd r)
           else raise e)
  end.

Definition reauthenticate (E : Env) (fuel : nat) (self : AbstractPbiAPI_t)
    : M World (option string * AbstractPbiAPI_t) :=
  reauthenticate_via (authenticate E fuel) self.

Definition __init__ (E : Env) (fuel : nat) (proxy_url saved_token : option string)
    : M World AbstractPbiAPI_t :=
  let self := {| proxies := None; user := PyNone; saved_token := saved_token;
                 access_token := None; header := None |} in
  let self :=
    if truthy_str proxy_url then
      let url := match proxy_url with Some u => u | None => "" end in
      {| proxies := Some [("http", url); ("https", url)]; user := user self;
         saved_token := saved_token;
         access_token := access_token self; header := header self |}
    else self in
  authenticate E fuel self.

Definition error_handlers : list (Z * (ExnClass * string)) :=
  [ (401%Z, (UnauthorizedError, "Unauthorized"));
    (403%Z, (TokenExpiredError, "Token expired"));
    (404%Z, (PowerBIEntityNotFoundError, "Cannot find entity or remove the user"));
    (429%Z, (TooManyRequestsError, "Too many requests"));
    (500%Z, (InternalServerError, "Internal server error")) ].

(** [handlers.get(key, default)]. *)
Fixpoint dict_get {V : Type} (handlers : list (Z * V)) (key : Z) (default : V) : V :=
  match handlers with
  | [] => default
  | (k, v) :: rest => if Z.eqb k key then v else dict_get rest key default
  end.

(** [_handle_response]; [self] is only used to reach the logger. *)
Definition _handle_response (response : Response) (url : string) : M World Response :=
  if existsb (Z.eqb (status_code response)) [200%Z; 201%Z; 202%Z] then
    ret response
  else
    let '(error_class, message) :=
      dict_get error_handlers (status_code response) (APIError, "API error") in
    logger ERROR (message ++ " " ++ str_of_Z (status_code response) ++ " for "
                  ++ url ++ ": " ++ text response);;
    raise (mkExn error_class
             (message ++ " " ++ str_of_Z (status_code response) ++ ": "
              ++ text response) None).

Definition _log_retry_attempt (url : string) (attempt : nat) (max_retries : Z)
    (exception : Exn) : M World unit :=
  logger ERROR ("Request timed out for " ++ url ++ ". Retry "
                ++ str_of_Z (Z.of_nat attempt + 1) ++ " of " ++ str_of_Z max_retries
                ++ ". Exception: " ++ exn_msg exception).

Definition max_retries_message : string := "API request failed after maximum retries.".

(** One pass through the body of the loop of [make_api_get_request]. *)
Definition get_attempt (E : Env) (url : string) (headers proxies : option Headers)
    (timeout_duration max_retries : Z) (attempt : nat) : M World (option Response) :=
  try_except
    (response <- requests_request E
                   (mkRequest GET url headers proxies timeout_duration None);;
     logger INFO ("API GET: Response from " ++ url ++ ": "
                  ++ str_of_Z (status_code response));;
     r <- _handle_response response url;;
     ret (Some r))
    (fun e =>
       if isinstance e [Timeout] then
         _log_retry_attempt url attempt max_retries e;;
         time_sleep (2 ^ Z.of_nat attempt);;
         ret None
       else if isinstance e [TooManyRedirects; HTTPError; RequestException] then
         logger ERROR ("Request error for " ++ url ++ ": " ++ exn_msg e);;
         raise (mkExn APIError ("Request error: " ++ exn_msg e) (Some e))
       else raise e).

Definition make_api_get_request (E : Env) (url : string)
    (headers proxies : option Headers) (timeout_duration max_retries : Z)
    : M World Response :=
  for_attempts
    (get_attempt E url headers proxies timeout_duration max_retries)
    (range max_retries)
    (raise (mkExn APIError max_retries_message None)).

(** One pass through the body of the loop of [make_api_post_request]. *)
Definition post_attempt (E : Env) (url : string) (headers proxies : option Headers)
    (timeout_duration max_retries : Z) (payload : option PyVal) (attempt : nat)
    : M World (option Response) :=
  try_except
    (response <- requests_request E
                   (mkRequest POST url headers proxies timeout_duration payload);;
     logger INFO ("API POST: Response from " ++ url ++ ": "
                  ++ str_of_Z (status_code response));;
     r <- _handle_response response url;;
     ret (Some r))
    (fun e =>
       if isinstance e [Timeout; TooManyRequestsError] then
         logger ERROR ("Request timed out for " ++ url ++ ". Retry "
                       ++ str_of_Z (Z.of_nat attempt + 1) ++ " of "
                       ++ str_of_Z max_retries ++ ". Exception: " ++ exn_msg e);;
         _log_retry_attempt url attempt max_retries e;;
         time_sleep (2 ^ Z.of_nat attempt);;
         ret None
       else if isinstance e [TooManyRedirects; HTTPError; RequestException] then
         logger ERROR ("Request error for " ++ url ++ ": " ++ exn_msg e);;
         raise (mkExn APIError ("Request error: " ++ exn_msg e) (Some e))
       else raise e).

Definition make_api_post_request (E : Env) (url : string)
    (headers proxies : option Headers) (timeout_duration max_retries : Z)
    (payload : option PyVal) : M World Response :=
  for_attempts
    (post_attempt E url headers proxies timeout_duration max_retries payload)
    (range max_retries)
    (raise (mkExn APIError max_retries_message None)).

(** One pass through the body of the loop of [make_api_delete_request]. *)
Definition delete_attempt (E : Env) (url : string) (headers proxies : option Headers)
    (timeout_duration max_retries : Z) (attempt : nat) : M World (option Response) :=
  try_except
    (response <- requests_request E
                   (mkRequest DELETE url headers proxies timeout_duration None);;
     logger INFO ("API DELETE: Response from " ++ url ++ ": "
                  ++ str_of_Z (status_code response));;
     r <- _handle_response response url;;
     ret (Some r))
    (fun e =>
       if isinstance e [Timeout] then
         _log_retry_attempt url attempt max_retries e;;
         time_sleep (2 ^ Z.of_nat attempt);;
         ret None
       else if isinstance e [TooManyRedirects; HTTPError; RequestException] then
         logger ERROR ("Request error for " ++ url ++ ": " ++ exn_msg e);;
         raise (mkExn APIError ("Request error: " ++ exn_msg e) (Some e))
       else raise e).

Definition make_api_delete_request (E : Env) (url : string)
    (headers proxies : option Headers) (timeout_duration max_retries : Z)
    : M World Response :=
  for_attempts
    (delete_attempt E url headers proxies timeout_duration max_retries)
    (range max_retries)
    (raise (mkExn APIError max_retries_message None)).

End AbstractPbiAPI.

(* ================================================================== *)
(** ** api.py: [PbiAPI], the shared instance *)

Module SingletonMeta.

(** Modelled from the spec: [singleton.py] (the metaclass [SingletonMeta] of
    [PbiAPI]) is not under src.  Calling the class builds its instance on
    the first call and hands out that same instance, whatever the
    arguments, on every later call.  [init] is the class's [__init__]. *)
Definition __call__ (init : option string -> option string -> PbiAPI_t)
    (proxy_url saved_token : option string) : M World PbiAPI_t :=
  fun w =>
    match PbiAPI_instance w with
    | Some instance => (Return instance, w)
    | None =>
        let instance := init proxy_url saved_token in
        (Return instance,
         {| http_calls := http_calls w; sleeps := sleeps w; log := log w;
            logins := logins w; PbiAPI_instance := Some instance;
            heap := heap w |})
    end.

End SingletonMeta.

Module PbiAPI.

Definition __init__ (proxy_url saved_token : option string) : PbiAPI_t :=
  {| PbiAPI_proxy_url := proxy_url; PbiAPI_saved_token := saved_token;
     _pbi_api := None |}.

(** [AbstractPbiAPI(proxy_url, saved_token)]: run [__init__] and put the
    new instance on the heap. *)
Definition new_AbstractPbiAPI (E : Env) (fuel : nat)
    (proxy_url saved_token : option string) : M World nat :=
  client <- AbstractPbiAPI.__init__ E fuel proxy_url saved_token;;
  fun w =>
    (Return (List.length (heap w)),
     {| http_calls := http_calls w; sleeps := sleeps w; log := log w;
        logins := logins w; PbiAPI_instance := PbiAPI_instance w;
        heap := heap w ++ [client] |}).

(** The property [pbi_api].  [self] is the instance the singleton table
    holds, so the assignment to [self._pbi_api] is written there. *)
Definition pbi_api (E : Env) (fuel : nat) (self : PbiAPI_t) : M World nat :=
  match _pbi_api self with
  | None =>
      ref <- new_AbstractPbiAPI E fuel (PbiAPI_proxy_url self) (PbiAPI_saved_token self);;
      fun w =>
        (Return ref,
         {| http_calls := http_calls w; sleeps := sleeps w; log := log w;
            logins := logins w;
            PbiAPI_instance :=
              Some {| PbiAPI_proxy_url := PbiAPI_proxy_url self;
                      PbiAPI_saved_token := PbiAPI_saved_token self;
                      _pbi_api := Some ref |};
            heap := heap w |})
  | Some ref => ret ref
  end.

(** [PbiAPI(proxy_url, saved_token).pbi_api], as every caller writes it. *)
Definition shared (E : Env) (fuel : nat) (proxy_url saved_token : option string)
    : M World nat :=
  self <- SingletonMeta.__call__ __init__ proxy_url saved_token;;
  pbi_api E fuel self.

End PbiAPI.

(* ================================================================== *)
(** ** Builtins the entities use *)

(** [str(v)] as an f-string prints it; the digits of a float and the text
    of a container are the interpreter's. *)
Definition py_str (E : Env) (v : PyVal) : string :=
  match v with
  | PyNone => "None"
  | PyBool true => "True"
  | PyBool false => "False"
  | PyInt n => str_of_Z n
  | PyFloat (F_nan _) => "nan"
  | PyFloat (F_inf negative) => if negative then "-inf" else "inf"
  | PyFloat (F_zero negative) => if negative then "-0.0" else "0.0"
  | PyFloat f => repr_float E (canonical f)
  | PyStr s => s
  | _ => repr_container E v
  end.

Definition type_name (v : PyVal) : string :=
  match v with
  | PyNone => "NoneType"
  | PyBool _ => "bool"
  | PyInt _ => "int"
  | PyFloat _ => "float"
  | PyStr _ => "str"
  | PyList _ => "list"
  | PyTuple _ => "tuple"
  | PyDict _ => "dict"
  end.

(** [hash(v)]: a float that equals an integer hashes as that integer;
    lists and dicts are unhashable; a tuple hashes its items. *)
Fixpoint py_hash (E : Env) (v : PyVal) {struct v} : result Z :=
  match v with
  | PyNone => Ok (hash_none E)
  | PyBool b => Ok (hash_int E (Z.b2z b))
  | PyInt n => Ok (hash_int E n)
  | PyFloat (F_nan obj) => Ok (hash_nan E obj)
  | PyFloat f =>
      match float_as_int f with
      | Some n => Ok (hash_int E n)
      | None => Ok (hash_float E (canonical f))
      end
  | PyStr s => Ok (hash_str E s)
  | PyTuple items =>
      match
        (fix hashes (items : list PyVal) {struct items} : result (list Z) :=
           match items with
           | [] => Ok []
           | item :: items' =>
               match py_hash E item with
               | Err e => Err e
               | Ok h =>
                   match hashes items' with
                   | Err e => Err e
                   | Ok hs => Ok (h :: hs)
                   end
               end
           end) items
      with
      | Err e => Err e
      | Ok hs => Ok (hash_tuple E hs)
      end
  | PyList _ | PyDict _ =>
      Err (mkExn TypeError ("unhashable type: '" ++ type_name v ++ "'") None)
  end.

(** [for x in v]. *)
Definition py_iter (v : PyVal) : result (list PyVal) :=
  match v with
  | PyList l | PyTuple l => Ok l
  | PyDict d => Ok (map (fun kv => PyStr (fst kv)) d)
  | PyStr s => Ok (map (fun c => PyStr (String c EmptyString)) (list_ascii_of_string s))
  | _ => Err (mkExn TypeError ("'" ++ type_name v ++ "' object is not iterable") None)
  end.

(** [Class(first, **v)]: [v] must be a mapping, and none of its keys may
    name a positional parameter of [__init__]. *)
Definition unpack_kwargs (positional : list string) (v : PyVal) : result Kwargs :=
  match v with
  | PyDict d =>
      if existsb (fun p => match lookup p d with Some _ => true | None => false end)
           positional
      then Err (mkExn TypeError "__init__() got multiple values for argument" None)
      else Ok d
  | _ => Err (mkExn TypeError "argument after ** must be a mapping" None)
  end.

(** [s.add(x)] for a new object [x]: [x] is hashed; it is dropped when an
    entry with the same hash compares equal to it. *)
Definition set_add {A : Type} (hash : A -> result Z) (eq : A -> A -> bool)
    (x : A) (s : PySet A) : result (PySet A) :=
  match hash x with
  | Err e => Err e
  | Ok h =>
      if existsb (fun y => match hash y with
                           | Ok h' => Z.eqb h' h && eq y x
                           | Err _ => false
                           end) s
      then Ok s
      else Ok (s ++ [x])%list
  end.

(** [{new(item) for item in items}], from the entries already in [acc]. *)
Fixpoint set_comprehension {A : Type} (new : PyVal -> M World A)
    (hash : A -> result Z) (eq : A -> A -> bool)
    (items : list PyVal) (acc : PySet A) : M World (PySet A) :=
  match items with
  | [] => ret acc
  | item :: items' =>
      x <- new item;;
      acc' <- lift (set_add hash eq x acc);;
      set_comprehension new hash eq items' acc'
  end.

(** [x in s], for an [x] that is none of the objects in [s]: an entry that
    is [x] itself is found before [==] is asked. *)
Definition set_contains {A : Type} (hash : A -> result Z) (eq : A -> A -> bool)
    (x : A) (s : PySet A) : result bool :=
  match hash x with
  | Err e => Err e
  | Ok h =>
      Ok (existsb (fun y => match hash y with
                            | Ok h' => Z.eqb h' h && eq y x
                            | Err _ => false
                            end) s)
  end.

(* ================================================================== *)
(** ** user.py, semantic_model.py, app.py, report.py *)

Module User.

Definition __init__ (parent : Owner) (kwargs : Kwargs) : User_t :=
  {| User_original_data := kwargs;
     User_parent := parent;
     User_email := kwargs_get kwargs "emailAddress";
     User_access_right := kwargs_get kwargs "groupUserAccessRight";
     User_principal_type := kwargs_get kwargs "principalType";
     User_name := kwargs_get kwargs "displayName" |}.

(** [hash((self.email))]: the inner parentheses do not build a tuple. *)
Definition __hash__ (E : Env) (self : User_t) : result Z :=
  py_hash E (User_email self).

Definition __eq__ (self : User_t) (other : PyObject) : bool :=
  match other with
  | ObjUser other => py_eq (User_email self) (User_email other)
  | _ => false
  end.

Definition __str__ (E : Env) (self : User_t) : string :=
  py_str E (User_email self).

(** [User(parent, **item)]. *)
Definition new (parent : Owner) (item : PyVal) : M World User_t :=
  kwargs <- lift (unpack_kwargs ["self"; "parent"] item);;
  ret (__init__ parent kwargs).

End User.

Module SemanticModel.

Definition __init__ (parent : Owner) (kwargs : Kwargs) : SemanticModel_t :=
  {| SemanticModel_original_data := kwargs;
     SemanticModel_parent := parent;
     SemanticModel_id := kwargs_get kwargs "id";
     SemanticModel_name := kwargs_get kwargs "name";
     SemanticModel_configured_by := kwargs_get kwargs "configuredBy";
     SemanticModel_is_refreshable := kwargs_get kwargs "isRefreshable";
     SemanticModel_created_date := kwargs_get kwargs "createdDate";
     SemanticModel_storage_mode := kwargs_get kwargs "targetStorageMode" |}.

Definition __hash__ (E : Env) (self : SemanticModel_t) : result Z :=
  py_hash E (SemanticModel_id self).

Definition __eq__ (self : SemanticModel_t) (other : PyObject) : bool :=
  match other with
  | ObjSemanticModel other => py_eq (SemanticModel_id self) (SemanticModel_id other)
  | _ => false
  end.

Definition __str__ (E : Env) (self : SemanticModel_t) : string :=
  py_str E (SemanticModel_name self) ++ " (" ++ py_str E (SemanticModel_id self) ++ ")".

(** [SemanticModel(parent, **item)]. *)
Definition new (parent : Owner) (item : PyVal) : M World SemanticModel_t :=
  kwargs <- lift (unpack_kwargs ["self"; "parent"] item);;
  ret (__init__ parent kwargs).

End SemanticModel.

Module App.

Definition __init__ (service : Owner) (kwargs : Kwargs) : App_t :=
  {| App_original_data := kwargs;
     App_service := service;
     App_id := kwargs_get kwargs "id";
     App_description := kwargs_get kwargs "description";
     App_name := kwargs_get kwargs "name";
     App_published_by := kwargs_get kwargs "publishedBy";
     App_last_update := kwargs_get kwargs "lastUpdate" |}.

Definition __hash__ (E : Env) (self : App_t) : result Z :=
  py_hash E (App_id self).

Definition __eq__ (self : App_t) (other : PyObject) : bool :=
  match other with
  | ObjApp other => py_eq (App_id self) (App_id other)
  | _ => false
  end.

Definition __str__ (E : Env) (self : App_t) : string :=
  py_str E (App_name self) ++ " (" ++ py_str E (App_id self) ++ ")".

(** [App(service, **item)]. *)
Definition new (service : Owner) (item : PyVal) : M World App_t :=
  kwargs <- lift (unpack_kwargs ["self"; "service"] item);;
  ret (__init__ service kwargs).

End App.

Module Report.

Definition __init__ (E : Env) (fuel : nat) (parent : Owner) (kwargs : Kwargs)
    : M World Report_t :=
  api <- PbiAPI.shared E fuel None None;;
  ret {| Report_original_data := kwargs;
         Report_parent := parent;
         Report_api := api;
         Report_app_id := kwargs_get kwargs "appId";
         Report_dataset_id := kwargs_get kwargs "datasetId";
         Report_description := kwargs_get kwargs "description";
         Report_embed_url := kwargs_get kwargs "embedUrl";
         Report_id := kwargs_get kwargs "id";
         Report_name := kwargs_get kwargs "name";
         Report_original_report_id := kwargs_get kwargs "originalReportId";
         Report_type := kwargs_get kwargs "reportType";
         Report_web_url := kwargs_get kwargs "webUrl";
         Report_modified_by := kwargs_get kwargs "modifiedBy";
         Report_created_by := kwargs_get kwargs "createdBy" |}.

Definition __hash__ (E : Env) (self : Report_t) : result Z :=
  py_hash E (PyTuple [Report_dataset_id self; Report_id self]).

Definition __eq__ (self : Report_t) (other : PyObject) : bool :=
  match other with
  | ObjReport other =>
      py_eq (Report_dataset_id self) (Report_dataset_id other)
      && py_eq (Report_id self) (Report_id other)
  | _ => false
  end.

Definition __str__ (E : Env) (self : Report_t) : string :=
  py_str E (Report_name self) ++ " (" ++ py_str E (Report_id self) ++ ")".

(** [Report(parent, **item)]. *)
Definition new (E : Env) (fuel : nat) (parent : Owner) (item : PyVal)
    : M World Report_t :=
  kwargs <- lift (unpack_kwargs ["self"; "parent"] item);;
  __init__ E fuel parent kwargs.

End Report.

(* ================================================================== *)
(** ** What every fetch shares *)

(** [response.json()] after the GET every fetch starts with:
    [self.api.make_api_get_request(url=url, headers=self.api.header,
    proxies=self.api.proxies)], with the defaults for the other arguments. *)
Definition fetch_json (E : Env) (api : nat) (url : string)
    : M World (Response * PyVal) :=
  client <- deref api;;
  response <- AbstractPbiAPI.make_api_get_request E url
                (header client) (proxies client) 10 5;;
  data <- lift (json response);;
  ret (response, data).

(** [data.get("value")] of a dict. *)
Definition value_of (d : Kwargs) : PyVal := kwargs_get d "value".

(** [repr(response)]. *)
Definition repr_response (response : Response) : string :=
  "<Response [" ++ str_of_Z (status_code response) ++ "]>".

(* ================================================================== *)
(** ** workspace.py *)

Module Workspace.

Definition __init__ (E : Env) (fuel : nat) (parent : Owner) (kwargs : Kwargs)
    : M World Workspace_t :=
  api <- PbiAPI.shared E fuel None None;;
  ret {| Workspace_original_data := kwargs;
         Workspace_parent := parent;
         Workspace_api := api;
         Workspace_id := kwargs_get kwargs "id";
         Workspace_name := kwargs_get kwargs "name";
         Workspace_is_read_only := kwargs_get kwargs "isReadOnly";
         Workspace_is_on_dedicated_capacity := kwargs_get kwargs "isOnDedicatedCapacity";
         Workspace_capacity_id := kwargs_get kwargs "capacityId";
         reports := [];
         semantic_models := [];
         dataflows := [];
         dashboards := [];
         data_sources := [];
         users := [] |}.

Definition __hash__ (E : Env) (self : Workspace_t) : result Z :=
  py_hash E (Workspace_id self).

Definition __eq__ (self : Workspace_t) (other : PyObject) : bool :=
  match other with
  | ObjWorkspace other => py_eq (Workspace_id self) (Workspace_id other)
  | _ => false
  end.

Definition __str__ (E : Env) (self : Workspace_t) : string :=
  py_str E (Workspace_name self) ++ " (" ++ py_str E (Workspace_id self) ++ ")".

(** [Workspace(parent, **item)]. *)
Definition new (E : Env) (fuel : nat) (parent : Owner) (item : PyVal)
    : M World Workspace_t :=
  kwargs <- lift (unpack_kwargs ["self"; "parent"] item);;
  __init__ E fuel parent kwargs.

(** Assignments to the collection attributes of [self]. *)
Definition with_reports (self : Workspace_t) (v : PySet Report_t) : Workspace_t :=
  {| Workspace_original_data := Workspace_original_data self;
     Workspace_parent := Workspace_parent self;
     Workspace_api := Workspace_api self;
     Workspace_id := Workspace_id self;
     Workspace_name := Workspace_name self;
     Workspace_is_read_only := Workspace_is_read_only self;
     Workspace_is_on_dedicated_capacity := Workspace_is_on_dedicated_capacity self;
     Workspace_capacity_id := Workspace_capacity_id self;
     reports := v;
     semantic_models := semantic_models self;
     dataflows := dataflows self;
     dashboards := dashboards self;
     data_sources := data_sources self;
     users := users self |}.

Definition with_semantic_models (self : Workspace_t) (v : PySet SemanticModel_t)
    : Workspace_t :=
  {| Workspace_original_data := Workspace_original_data self;
     Workspace_parent := Workspace_parent self;
     Workspace_api := Workspace_api self;
     Workspace_id := Workspace_id self;
     Workspace_name := Workspace_name self;
     Workspace_is_read_only := Workspace_is_read_only self;
     Workspace_is_on_dedicated_capacity := Workspace_is_on_dedicated_capacity self;
     Workspace_capacity_id := Workspace_capacity_id self;
     reports := reports self;
     semantic_models := v;
     dataflows := dataflows self;
     dashboards := dashboards self;
     data_sources := data_sources self;
     users := users self |}.

Definition with_dashboards (self : Workspace_t) (v : PySet Dashboard_t) : Workspace_t :=
  {| Workspace_original_data := Workspace_original_data self;
     Workspace_parent := Workspace_parent self;
     Workspace_api := Workspace_api self;
     Workspace_id := Workspace_id self;
     Workspace_name := Workspace_name self;
     Workspace_is_read_only := Workspace_is_read_only self;
     Workspace_is_on_dedicated_capacity := Workspace_is_on_dedicated_capacity self;
     Workspace_capacity_id := Workspace_capacity_id self;
     reports := reports self;
     semantic_models := semantic_models self;
     dataflows := dataflows self;
     dashboards := v;
     data_sources := data_sources self;
     users := users self |}.

Definition with_users (self : Workspace_t) (v : PySet User_t) : Workspace_t :=
  {| Workspace_original_data := Workspace_original_data self;
     Workspace_parent := Workspace_parent self;
     Workspace_api := Workspace_api self;
     Workspace_id := Workspace_id self;
     Workspace_name := Workspace_name self;
     Workspace_is_read_only := Workspace_is_read_only self;
     Workspace_is_on_dedicated_capacity := Workspace_is_on_dedicated_capacity self;
     Workspace_capacity_id := Workspace_capacity_id self;
     reports := reports self;
     semantic_models := semantic_models self;
     dataflows := dataflows self;
     dashboards := dashboards self;
     data_sources := data_sources self;
     users := v |}.

Definition get_reports (E : Env) (fuel : nat) : M (Workspace_t * World) unit :=
  self <- get_self;;
  let url := AbstractPbiAPI.BASE_URL
             ++ ("groups/" ++ py_str E (Workspace_id self) ++ "/reports") in
  rd <- in_world (fetch_json E (Workspace_api self) url);;
  match snd rd with
  | PyDict data =>
      new_reports <- in_world
        (items <- lift (py_iter (value_of data));;
         set_comprehension
           (Report.new E fuel (OwnerWorkspace (Workspace_id self)))
           (Report.__hash__ E)
           (fun a b => Report.__eq__ a (ObjReport b))
           items []);;
      set_self (with_reports self new_reports)
  | _ =>
      (* self.logger is reassigned here; nothing is logged *)
      raise (mkExn TypeError
               ("Failed to get reports from workspace "
                ++ py_str E (Workspace_name self) ++ ".") None)
  end.

Definition get_semantic_models (E : Env) : M (Workspace_t * World) unit :=
  self <- get_self;;
  let url := AbstractPbiAPI.BASE_URL
             ++ ("groups/" ++ py_str E (Workspace_id self) ++ "/datasets") in
  rd <- in_world (fetch_json E (Workspace_api self) url);;
  match snd rd with
  | PyDict data =>
      new_models <- in_world
        (items <- lift (py_iter (value_of data));;
         set_comprehension
           (SemanticModel.new (OwnerWorkspace (Workspace_id self)))
           (SemanticModel.__hash__ E)
           (fun a b => SemanticModel.__eq__ a (ObjSemanticModel b))
           items []);;
      set_self (with_semantic_models self new_models)
  | _ =>
      in_world (logger ERROR ("Failed to get semantic models from workspace "
                              ++ py_str E (Workspace_name self) ++ "."));;
      raise (mkExn TypeError "The response must be a dictionary." None)
  end.

Definition get_users (E : Env) (top skip : option Z)
    : M (Workspace_t * World) unit :=
  self <- get_self;;
  let uri_top := if truthy_int top
                 then "$top=" ++ str_of_Z (match top with Some n => n | None => 0%Z end)
                 else "" in
  let uri_skip := if truthy_int skip
                  then "$skip=" ++ str_of_Z (match skip with Some n => n | None => 0%Z end)
                  else "" in
  let uri_params :=
    join "&" (filter (fun param => negb (String.eqb param "")) [uri_top; uri_skip]) in
  let url := AbstractPbiAPI.BASE_URL
             ++ ("groups/" ++ py_str E (Workspace_id self) ++ "/users?") ++ uri_params in
  rd <- in_world (fetch_json E (Workspace_api self) url);;
  match snd rd with
  | PyDict data =>
      new_users <- in_world
        (items <- lift (py_iter (value_of data));;
         set_comprehension
           (User.new (OwnerWorkspace (Workspace_id self)))
           (User.__hash__ E)
           (fun a b => User.__eq__ a (ObjUser b))
           items []);;
      set_self (with_users self new_users)
  | _ =>
      in_world (logger ERROR ("Error getting users: " ++ repr_response (fst rd)));;
      raise (mkExn TypeError "The response must be a dictionary." None)
  end.

Definition get_dashboards (E : Env) : M (Workspace_t * World) unit :=
  self <- get_self;;
  let url := AbstractPbiAPI.BASE_URL
             ++ ("groups/" ++ py_str E (Workspace_id self) ++ "/dashboards") in
  rd <- in_world (fetch_json E (Workspace_api self) url);;
  match snd rd with
  | PyDict data =>
      new_dashboards <- in_world
        (items <- lift (py_iter (value_of data));;
         set_comprehension
           (fun item => lift (Dashboard_new E (OwnerWorkspace (Workspace_id self)) item))
           (Dashboard_hash E)
           (Dashboard_eq E)
           items []);;
      set_self (with_dashboards self new_dashboards)
  | _ =>
      in_world (logger ERROR ("Error getting dashboards: " ++ repr_response (fst rd)));;
      raise (mkExn TypeError "The response must be a dictionary." None)
  end.

End Workspace.

(* ================================================================== *)
(** ** service.py *)

Module Service.

Definition __init__ (E : Env) (fuel : nat) (proxy_url saved_token : option string)
    : M World Service_t :=
  api <- PbiAPI.shared E fuel proxy_url saved_token;;
  ret {| Service_api := api; workspaces := []; apps := [] |}.

Definition get_workspaces (E : Env) (fuel : nat) (filter : option string)
    (top skip : option Z) : M (Service_t * World) unit :=
  self <- get_self;;
  let uri_filter := if truthy_str filter
                    then "$filter=" ++ match filter with Some f => f | None => "" end
                    else "" in
  let uri_top := if truthy_int top
                 then "$top=" ++ str_of_Z (match top with Some n => n | None => 0%Z end)
                 else "" in
  let uri_skip := if truthy_int skip
                  then "$skip=" ++ str_of_Z (match skip with Some n => n | None => 0%Z end)
                  else "" in
  let uri_params :=
    join "&" (List.filter (fun param => negb (String.eqb param ""))
                [uri_filter; uri_top; uri_skip]) in
  let url := AbstractPbiAPI.BASE_URL ++ "groups?" ++ uri_params in
  rd <- in_world (fetch_json E (Service_api self) url);;
  match snd rd with
  | PyDict data =>
      new_workspaces <- in_world
        (items <- lift (py_iter (value_of data));;
         set_comprehension
           (Workspace.new E fuel OwnerService)
           (Workspace.__hash__ E)
           (fun a b => Workspace.__eq__ a (ObjWorkspace b))
           items []);;
      set_self {| Service_api := Service_api self;
                  workspaces := new_workspaces;
                  apps := apps self |}
  | _ =>
      in_world (logger ERROR ("Error getting workspaces: " ++ repr_response (fst rd)));;
      raise (mkExn TypeError "The response must be a dictionary." None)
  end.

Definition get_workspace (E : Env) (fuel : nat) (workspace_id : string)
    : M (Service_t * World) Workspace_t :=
  self <- get_self;;
  let url := AbstractPbiAPI.BASE_URL ++ ("groups/" ++ workspace_id) in
  rd <- in_world (fetch_json E (Service_api self) url);;
  match snd rd with
  | PyDict _ => in_world (Workspace.new E fuel OwnerService (snd rd))
  | _ =>
      in_world (logger ERROR ("Error getting workspace: " ++ repr_response (fst rd)));;
      raise (mkExn TypeError "The response must be a dictionary." None)
  end.

Definition get_apps (E : Env) : M (Service_t * World) unit :=
  self <- get_self;;
  let url := AbstractPbiAPI.BASE_URL ++ "apps" in
  rd <- in_world (fetch_json E (Service_api self) url);;
  match snd rd with
  | PyDict data =>
      new_apps <- in_world
        (items <- lift (py_iter (value_of data));;
         set_comprehension
           (App.new OwnerService)
           (App.__hash__ E)
           (fun a b => App.__eq__ a (ObjApp b))
           items []);;
      set_self {| Service_api := Service_api self;
                  workspaces := workspaces self;
                  apps := new_apps |}
  | _ =>
      in_world (logger ERROR ("Error getting apps: " ++ repr_response (fst rd)));;
      raise (mkExn TypeError "The response must be a dictionary." None)
  end.

End Service.

(* ================================================================== *)
(** ** The properties' vocabulary *)

(** The status table as the specification words it. *)
Definition classified (status : Z) : ExnClass :=
  if Z.eqb status 401 then UnauthorizedError
  else if Z.eqb status 403 then TokenExpiredError
  else if Z.eqb status 404 then PowerBIEntityNotFoundError
  else if Z.eqb status 429 then TooManyRequestsError
  else if Z.eqb status 500 then InternalServerError
  else APIError.

Definition is_success (status : Z) : bool :=
  existsb (Z.eqb status) [200%Z; 201%Z; 202%Z].

(** The request with number [n] is answered by a timeout. *)
Definition times_out (E : Env) (req : Request) (n : nat) : Prop :=
  exists e, transport E n req = Err e /\ isinstance e [Timeout] = true.

(** The backoff sleeps of the attempts [first, first + count). *)
Definition backoff (first count : nat) : list Z :=
  map (fun attempt => (2 ^ Z.of_nat attempt)%Z) (seq first count).

(** The three requests, as the three methods build them. *)
Definition get_request (url : string) (headers proxies : option Headers)
    (timeout_duration : Z) : Request :=
  mkRequest GET url headers proxies timeout_duration None.

Definition post_request (url : string) (headers proxies : option Headers)
    (timeout_duration : Z) (payload : option PyVal) : Request :=
  mkRequest POST url headers proxies timeout_duration payload.

Definition delete_request (url : string) (headers proxies : option Headers)
    (timeout_duration : Z) : Request :=
  mkRequest DELETE url headers proxies timeout_duration None.

(** An attempt that was given up for a retry: it falls through to the next
    iteration after one request and one sleep of [2 ^ attempt]. *)
Definition retried (body : nat -> M World (option Response)) (req : Request)
    (attempt : nat) (w w' : World) : Prop :=
  body attempt w = (Return None, w')
  /\ http_calls w' = (http_calls w ++ [req])%list
  /\ sleeps w' = (sleeps w ++ [(2 ^ Z.of_nat attempt)%Z])%list.

(** A method call that raised the class mapped to [status] after [k]
    retried attempts: [k + 1] requests, [k] sleeps. *)
Definition raised_classified (status : Z) (req : Request) (k : nat) (w : World)
    (out : Outcome Response * World) : Prop :=
  (exists msg, fst out = Raise (mkExn (classified status) msg None))
  /\ http_calls (snd out) = (http_calls w ++ repeat req (S k))%list
  /\ sleeps (snd out) = (sleeps w ++ backoff 0 k)%list.

(* ================================================================== *)
(** ** Sample environments *)

(** An interpreter and an identity provider to run the samples with: one
    token whose claims carry a [upn]; no dashboards. *)
Definition sample_upn : Kwargs := [("upn", PyStr "a@x.com")].

Definition sample_env (transport : nat -> Request -> result Response) : Env :=
  {| transport := transport;
     get_token := fun _ => Ok "token";
     jwt_decode := fun _ => Ok sample_upn;
     hash_str := fun s => Z.of_nat (String.length s);
     hash_int := fun n => n;
     hash_float := fun _ => 5%Z;
     hash_nan := fun obj => Z.of_nat obj;
     hash_none := 0%Z;
     hash_tuple := fun hs => fold_left Z.add hs 0%Z;
     repr_container := fun _ => "<container>";
     repr_float := fun _ => "<float>";
     Dashboard_new := fun parent item =>
       match item with
       | PyDict d => Ok (mkDashboard d parent)
       | _ => Err (mkExn TypeError "argument after ** must be a mapping" None)
       end;
     Dashboard_hash := fun _ => Ok 0%Z;
     Dashboard_eq := fun _ _ => true |}.

Definition no_body : result PyVal := Err (mkExn Exception "no body" None).
Definition response_404 : Response := mkResponse 404 "missing" no_body.
Definition response_429 : Response := mkResponse 429 "slow down" no_body.
Definition response_200 : Response := mkResponse 200 "{}" (Ok (PyDict [])).

Definition env_404 : Env := sample_env (fun _ _ => Ok response_404).
Definition env_429 : Env := sample_env (fun _ _ => Ok response_429).
Definition env_200 : Env := sample_env (fun _ _ => Ok response_200).
Definition env_timeout : Env :=
  sample_env (fun _ _ => Err (mkExn ReadTimeout "read timed out" None)).

Definition response_204 : Response := mkResponse 204 "" no_body.

(* ================================================================== *)
(** ** Vocabulary of the authentication properties *)

(** [__user_info] succeeds on the token: it decodes and carries a [upn]. *)
Definition usable (E : Env) (token : string) : bool :=
  match jwt_decode E token with
  | Ok decoded_token =>
      match lookup "upn" decoded_token with
      | Some _ => true
      | None => false
      end
  | Err _ => false
  end.

(** The two log entries [authenticate] writes right before it calls
    [reauthenticate]; their number is the number of re-authentications. *)
Definition announces_reauthentication (entry : Level * string) : bool :=
  String.eqb (snd entry) "Saved token has expired. Reauthenticating..."
  || String.eqb (snd entry)
       "Unexpected error during user info retrieval. Reauthenticating...".

Definition reauthentications (w : World) : nat :=
  List.length (filter announces_reauthentication (log w)).

(** The client after a failed decode of [token]: what [reauthenticate]
    hands to [authenticate]. *)
Definition discarded (self : AbstractPbiAPI_t) (token : string) : AbstractPbiAPI_t :=
  {| proxies := proxies self; user := user self; saved_token := None;
     access_token := Some token;
     header := Some [("Authorization", ("Bearer " ++ token)%string)] |}.

(** A saved token that does not decode, one fresh token that does not
    decode either, then fresh tokens that do. *)
Definition env_two_stale : Env :=
  {| transport := fun _ _ => Ok response_200;
     get_token := fun n => match n with O => Ok "fresh-but-bad" | _ => Ok "good" end;
     jwt_decode := fun token =>
       if String.eqb token "good" then Ok sample_upn
       else Err (mkExn DecodeError "Not enough segments" None);
     hash_str := fun s => Z.of_nat (String.length s);
     hash_int := fun n => n;
     hash_float := fun _ => 5%Z;
     hash_nan := fun obj => Z.of_nat obj;
     hash_none := 0%Z;
     hash_tuple := fun hs => fold_left Z.add hs 0%Z;
     repr_container := fun _ => "<container>";
     repr_float := fun _ => "<float>";
     Dashboard_new := fun parent _ => Ok (mkDashboard [] parent);
     Dashboard_hash := fun _ => Ok 0%Z;
     Dashboard_eq := fun _ _ => true |}.

(** No token ever decodes. *)
Definition env_never_decodes : Env :=
  {| transport := fun _ _ => Ok response_200;
     get_token := fun _ => Ok "bad";
     jwt_decode := fun _ => Err (mkExn DecodeError "Not enough segments" None);
     hash_str := fun s => Z.of_nat (String.length s);
     hash_int := fun n => n;
     hash_float := fun _ => 5%Z;
     hash_nan := fun obj => Z.of_nat obj;
     hash_none := 0%Z;
     hash_tuple := fun hs => fold_left Z.add hs 0%Z;
     repr_container := fun _ => "<container>";
     repr_float := fun _ => "<float>";
     Dashboard_new := fun parent _ => Ok (mkDashboard [] parent);
     Dashboard_hash := fun _ => Ok 0%Z;
     Dashboard_eq := fun _ _ => true |}.

Definition client_with_saved_token (token : string) : AbstractPbiAPI_t :=
  {| proxies := None; user := PyNone; saved_token := Some token;
     access_token := None; header := None |}.

(* ================================================================== *)
(** ** Vocabulary of the entity properties *)

(** The identity keys: what each [__hash__] hashes. *)
Definition Workspace_key (w : Workspace_t) : PyVal := Workspace_id w.
Definition Report_key (r : Report_t) : PyVal :=
  PyTuple [Report_dataset_id r; Report_id r].
Definition User_key (u : User_t) : PyVal := User_email u.
Definition SemanticModel_key (m : SemanticModel_t) : PyVal := SemanticModel_id m.
Definition App_key (a : App_t) : PyVal := App_id a.

(** The identity key as the specification has it: the fields that decide
    equality for each kind of entity. *)
Definition Workspace_identity (w : Workspace_t) : list PyVal := [Workspace_id w].
Definition Report_identity (r : Report_t) : list PyVal :=
  [Report_dataset_id r; Report_id r].
Definition User_identity (u : User_t) : list PyVal := [User_email u].
Definition SemanticModel_identity (m : SemanticModel_t) : list PyVal :=
  [SemanticModel_id m].
Definition App_identity (a : App_t) : list PyVal := [App_id a].

(** Two identity keys match when each field of the one [==] the same field
    of the other. *)
Fixpoint keys_match (k1 k2 : list PyVal) : bool :=
  match k1, k2 with
  | [], [] => true
  | x :: k1', y :: k2' => py_eq x y && keys_match k1' k2'
  | _, _ => false
  end.

(** The value is a NaN, the one value that does not [==] itself. *)
Definition is_nan (v : PyVal) : bool :=
  match v with
  | PyFloat (F_nan _) => true
  | _ => false
  end.

(** The number a value stands for, when it is one: a [bool], an [int] and
    a float that equals an integer stand for that integer; any other float
    but a NaN stands for its value. *)
Inductive Number : Type :=
| Integer (n : Z)
| Fraction (f : PyFloat_t).

Definition number_of (v : PyVal) : option Number :=
  match v with
  | PyBool b => Some (Integer (Z.b2z b))
  | PyInt n => Some (Integer n)
  | PyFloat (F_nan _) => None
  | PyFloat f =>
      match float_as_int f with
      | Some n => Some (Integer n)
      | None => Some (Fraction (canonical f))
      end
  | _ => None
  end.

Definition hash_number (E : Env) (x : Number) : Z :=
  match x with
  | Integer n => hash_int E n
  | Fraction f => hash_float E f
  end.

(** The keys of every dict inside the value are distinct, as they are in
    anything a JSON parser returns. *)
Fixpoint keys_distinct (keys : list string) : bool :=
  match keys with
  | [] => true
  | k :: rest => negb (existsb (String.eqb k) rest) && keys_distinct rest
  end.

Fixpoint well_formed (v : PyVal) : bool :=
  match v with
  | PyList l => forallb well_formed l
  | PyTuple l => forallb well_formed l
  | PyDict d =>
      keys_distinct (map fst d) && forallb (fun kv => well_formed (snd kv)) d
  | _ => true
  end.

(** Two snapshots of one report, taken before and after it was renamed. *)
Definition report_before : Report_t :=
  {| Report_original_data := [("datasetId", PyStr "d1"); ("id", PyStr "r1");
                              ("name", PyStr "Sales")];
     Report_parent := OwnerWorkspace (PyStr "w1");
     Report_api := 0;
     Report_app_id := PyNone;
     Report_dataset_id := PyStr "d1";
     Report_description := PyNone;
     Report_embed_url := PyNone;
     Report_id := PyStr "r1";
     Report_name := PyStr "Sales";
     Report_original_report_id := PyNone;
     Report_type := PyNone;
     Report_web_url := PyNone;
     Report_modified_by := PyNone;
     Report_created_by := PyNone |}.

Definition report_after : Report_t :=
  {| Report_original_data := [("datasetId", PyStr "d1"); ("id", PyStr "r1");
                              ("name", PyStr "Sales 2024")];
     Report_parent := OwnerWorkspace (PyStr "w1");
     Report_api := 0;
     Report_app_id := PyNone;
     Report_dataset_id := PyStr "d1";
     Report_description := PyNone;
     Report_embed_url := PyNone;
     Report_id := PyStr "r1";
     Report_name := PyStr "Sales 2024";
     Report_original_report_id := PyNone;
     Report_type := PyNone;
     Report_web_url := PyNone;
     Report_modified_by := PyNone;
     Report_created_by := PyNone |}.

(** Two snapshots of one user, of one semantic model, of one app and of one
    workspace; the second of each pair differs outside the identity key. *)
Definition user_before : User_t :=
  User.__init__ (OwnerWorkspace (PyStr "w1"))
    [("emailAddress", PyStr "a@x.com"); ("displayName", PyStr "A")].
Definition user_after : User_t :=
  User.__init__ (OwnerWorkspace (PyStr "w1"))
    [("emailAddress", PyStr "a@x.com"); ("displayName", PyStr "Ann")].

Definition model_before : SemanticModel_t :=
  SemanticModel.__init__ (OwnerWorkspace (PyStr "w1"))
    [("id", PyInt 7); ("name", PyStr "Sales")].
Definition model_after : SemanticModel_t :=
  SemanticModel.__init__ (OwnerWorkspace (PyStr "w1"))
    [("id", PyInt 7); ("name", PyStr "Sales 2024"); ("isRefreshable", PyBool true)].

Definition app_before : App_t :=
  App.__init__ OwnerService [("id", PyStr "a1"); ("name", PyStr "Portal")].
Definition app_after : App_t :=
  App.__init__ OwnerService [("id", PyStr "a1"); ("name", PyStr "Portal 2")].

Definition workspace_before : Workspace_t :=
  mkWorkspace [("id", PyStr "w1")] OwnerService 0 (PyStr "w1") (PyStr "Sales")
    PyNone PyNone PyNone [] [] [] [] [] [].
Definition workspace_after : Workspace_t :=
  mkWorkspace [("id", PyStr "w1")] OwnerService 0 (PyStr "w1") (PyStr "Sales EMEA")
    PyNone PyNone PyNone [report_before] [] [] [] [] [user_before].

(* ================================================================== *)
(** ** Vocabulary of the fetch properties *)

Definition not_a_mapping (data : PyVal) : Prop :=
  match data with
  | PyDict _ => False
  | _ => True
  end.

(** The endpoints: the [url] each fetch hands to [make_api_get_request]. *)
Definition reports_url (E : Env) (self : Workspace_t) : string :=
  AbstractPbiAPI.BASE_URL ++ ("groups/" ++ py_str E (Workspace_id self) ++ "/reports").

Definition semantic_models_url (E : Env) (self : Workspace_t) : string :=
  AbstractPbiAPI.BASE_URL ++ ("groups/" ++ py_str E (Workspace_id self) ++ "/datasets").

Definition users_url (E : Env) (self : Workspace_t) (top skip : option Z) : string :=
  let uri_top := if truthy_int top
                 then "$top=" ++ str_of_Z (match top with Some n => n | None => 0%Z end)
                 else "" in
  let uri_skip := if truthy_int skip
                  then "$skip=" ++ str_of_Z (match skip with Some n => n | None => 0%Z end)
                  else "" in
  let uri_params :=
    join "&" (filter (fun param => negb (String.eqb param "")) [uri_top; uri_skip]) in
  AbstractPbiAPI.BASE_URL
  ++ ("groups/" ++ py_str E (Workspace_id self) ++ "/users?") ++ uri_params.

Definition dashboards_url (E : Env) (self : Workspace_t) : string :=
  AbstractPbiAPI.BASE_URL
  ++ ("groups/" ++ py_str E (Workspace_id self) ++ "/dashboards").

Definition workspaces_url (filter : option string) (top skip : option Z) : string :=
  let uri_filter := if truthy_str filter
                    then "$filter=" ++ match filter with Some f => f | None => "" end
                    else "" in
  let uri_top := if truthy_int top
                 then "$top=" ++ str_of_Z (match top with Some n => n | None => 0%Z end)
                 else "" in
  let uri_skip := if truthy_int skip
                  then "$skip=" ++ str_of_Z (match skip with Some n => n | None => 0%Z end)
                  else "" in
  let uri_params :=
    join "&" (List.filter (fun param => negb (String.eqb param ""))
                [uri_filter; uri_top; uri_skip]) in
  AbstractPbiAPI.BASE_URL ++ "groups?" ++ uri_params.

Definition workspace_url (workspace_id : string) : string :=
  AbstractPbiAPI.BASE_URL ++ ("groups/" ++ workspace_id).

Definition apps_url : string := AbstractPbiAPI.BASE_URL ++ "apps".

(** The GET of [url] from the world [w] was answered, and the body of the
    answer is not a mapping. *)
Definition answered_no_mapping (E : Env) (api : nat) (url : string) (w : World)
    : Prop :=
  exists response data w1,
    fetch_json E api url w = (Return (response, data), w1)
    /\ not_a_mapping data.

(** A fetch that failed with a [TypeError] and left the object as it was. *)
Definition type_error_unchanged {Self A : Type} (self : Self)
    (out : Outcome A * (Self * World)) : Prop :=
  (exists e, fst out = Raise e /\ exn_class e = TypeError)
  /\ fst (snd out) = self.

(** The identity key of the entity built from one item of a response: the
    fields named [names]. *)
Definition item_identity (names : list string) (kwargs : Kwargs) : list PyVal :=
  map (kwargs_get kwargs) names.

(** The entity [x] was built from the item [item] of a response: it keeps
    the item as its original data and its identity key was read from it. *)
Definition snapshot_of {A : Type} (data_of : A -> Kwargs) (identity : A -> list PyVal)
    (names : list string) (item : PyVal) (x : A) : Prop :=
  item = PyDict (data_of x) /\ identity x = item_identity names (data_of x).

(** The set built from a list of entities taken one after the other: an
    entity is left out when the set already holds one that equals it. *)
Fixpoint collected {A : Type} (eq : A -> A -> bool) (xs : list A) (acc : PySet A)
    : PySet A :=
  match xs with
  | [] => acc
  | x :: xs' =>
      collected eq xs' (if existsb (fun y => eq y x) acc then acc else (acc ++ [x])%list)
  end.

(** [x in s] for a report. *)
Definition report_in (E : Env) (x : Report_t) (s : PySet Report_t) : result bool :=
  set_contains (Report.__hash__ E) (fun a b => Report.__eq__ a (ObjReport b)) x s.

(** A server that answers a JSON array at [url] and an empty collection
    everywhere else. *)
Definition env_array_at (url : string) : Env :=
  sample_env (fun _ req =>
    if String.eqb (req_url req) url
    then Ok (mkResponse 200 "[]" (Ok (PyList [])))
    else Ok (mkResponse 200 "" (Ok (PyDict [("value", PyList [])])))).

(** A server whose first answer lists the reports r1 and r2 and whose later
    answers list r2 only. *)
Definition item_r1 : Kwargs :=
  [("id", PyStr "r1"); ("datasetId", PyStr "d1"); ("name", PyStr "Sales")].
Definition item_r2 : Kwargs :=
  [("id", PyStr "r2"); ("datasetId", PyStr "d1"); ("name", PyStr "Costs")].

Definition env_two_fetches : Env :=
  sample_env (fun n _ =>
    match n with
    | O => Ok (mkResponse 200 ""
                 (Ok (PyDict [("value", PyList [PyDict item_r1; PyDict item_r2])])))
    | _ => Ok (mkResponse 200 ""
                 (Ok (PyDict [("value", PyList [PyDict item_r2])])))
    end).

(** The process after [Service()], and a workspace built in it. *)
Definition started (E : Env) : Service_t * World :=
  match Service.__init__ E 2 None None fresh_world with
  | (Return service, w) => (service, w)
  | (_, w) => (mkService 0 [] [], w)
  end.

Definition sample_workspace (E : Env) : Workspace_t :=
  match Workspace.__init__ E 2 OwnerService
          [("id", PyStr "w1"); ("name", PyStr "Sales")] (snd (started E)) with
  | (Return workspace, _) => workspace
  | _ => mkWorkspace [] OwnerService 0 PyNone PyNone PyNone PyNone PyNone [] [] [] [] [] []
  end.

(* ================================================================== *)
(** ** Vocabulary of the shared-instance property *)

(** At most one client was ever built, and the [PbiAPI] singleton refers
    to it. *)
Definition one_client (w : World) : Prop :=
  match PbiAPI_instance w with
  | None => heap w = []
  | Some instance =>
      match _pbi_api instance with
      | None => heap w = []
      | Some ref => ref = 0 /\ List.length (heap w) = 1
      end
  end.

(** A computation keeps a property of its state, however it ends. *)
Definition keeps {S A : Type} (I : S -> Prop) (m : M S A) : Prop :=
  forall s, I s -> I (snd (m s)).

(** A property of the world that only reads the singleton table and the
    heap. *)
Definition registry_only (I : World -> Prop) : Prop :=
  forall w w',
    heap w' = heap w -> PbiAPI_instance w' = PbiAPI_instance w -> I w -> I w'.

(** The same, for a method: the state is the object and the world. *)
Definition of_world {Self : Type} (I : World -> Prop) : Self * World -> Prop :=
  fun s => I (snd s).

(** One client, and the heap is [h]. *)
Definition one_client_with (h : list AbstractPbiAPI_t) (w : World) : Prop :=
  one_client w /\ heap w = h.

(** Every way into the client keeps [I]: the three constructors that ask
    for the shared client, the fetches, and the request methods. *)
Definition every_operation_keeps (I : World -> Prop) : Prop :=
  forall E fuel (proxy_url saved_token filter : option string) (top skip : option Z)
         (workspace_id url : string) (headers proxies : option Headers)
         (timeout_duration max_retries : Z) (payload : option PyVal)
         (parent : Owner) (kwargs : Kwargs),
    keeps I (Service.__init__ E fuel proxy_url saved_token)
    /\ keeps I (Workspace.__init__ E fuel parent kwargs)
    /\ keeps I (Report.__init__ E fuel parent kwargs)
    /\ keeps (of_world I) (Service.get_workspaces E fuel filter top skip)
    /\ keeps (of_world I) (Service.get_workspace E fuel workspace_id)
    /\ keeps (of_world I) (Service.get_apps E)
    /\ keeps (of_world I) (Workspace.get_reports E fuel)
    /\ keeps (of_world I) (Workspace.get_semantic_models E)
    /\ keeps (of_world I) (Workspace.get_users E top skip)
    /\ keeps (of_world I) (Workspace.get_dashboards E)
    /\ keeps I (AbstractPbiAPI.make_api_get_request E url headers proxies
                  timeout_duration max_retries)
    /\ keeps I (AbstractPbiAPI.make_api_post_request E url headers proxies
                  timeout_duration max_retries payload)
    /\ keeps I (AbstractPbiAPI.make_api_delete_request E url headers proxies
                  timeout_duration max_retries).

(** An object that was handed the reference [api] in the world [w] holds the
    one client. *)
Definition holds_the_client (api : nat) (w : World) : Prop :=
  api = 0 /\ List.length (heap w) = 1 /\ one_client w.

(* ================================================================== *)
(** ** Vocabulary of the further properties *)

(** The outcome of a request method after [k] retried attempts: [k + 1]
    requests were issued and [k] sleeps were taken. *)
Definition ended_after (k : nat) (req : Request) (w : World) (r : Outcome Response)
    (out : Outcome Response * World) : Prop :=
  fst out = r
  /\ http_calls (snd out) = (http_calls w ++ repeat req (S k))%list
  /\ sleeps (snd out) = (sleeps w ++ backoff 0 k)%list.

(** A transport failure the request methods wrap: a [RequestException]
    that is not a [Timeout]. *)
Definition transport_fatal (e : Exn) : Prop :=
  isinstance e [Timeout] = false
  /\ isinstance e [TooManyRedirects; HTTPError; RequestException] = true.

(** An exception none of the [except] clauses of the request methods
    selects. *)
Definition foreign (e : Exn) : Prop :=
  isinstance e [Timeout; TooManyRequestsError] = false
  /\ isinstance e [TooManyRedirects; HTTPError; RequestException] = false.

(** The request with number [n] is answered by a timeout or by a 429. *)
Definition post_retried (E : Env) (req : Request) (n : nat) : Prop :=
  times_out E req n
  \/ exists response, transport E n req = Ok response /\ status_code response = 429%Z.

(** The requests and sleeps a call added to the world: [j] copies of [req]
    and the first [s] backoff sleeps. *)
Definition accounted (req : Request) (j s : nat) (w w' : World) : Prop :=
  http_calls w' = (http_calls w ++ repeat req j)%list
  /\ sleeps w' = (sleeps w ++ backoff 0 s)%list.

Definition env_redirects : Env :=
  sample_env (fun _ _ => Err (mkExn TooManyRedirects "Exceeded 30 redirects." None)).

Definition env_broken : Env :=
  sample_env (fun _ _ => Err (mkExn KeyError "'x'" None)).

(** One timeout, then a 201. *)
Definition response_201 : Response := mkResponse 201 "created" (Ok (PyDict [])).
Definition env_timeout_then_201 : Env :=
  sample_env (fun n _ =>
    match n with
    | O => Err (mkExn ConnectTimeout "connect timed out" None)
    | _ => Ok response_201
    end).

(** Each pass through a loop body issues one request; it sleeps
    [2 ^ attempt] exactly when it falls through to the next attempt. *)
Definition attempt_costs (body : nat -> M World (option Response)) (req : Request)
    : Prop :=
  forall a w,
    http_calls (snd (body a w)) = (http_calls w ++ [req])%list
    /\ ((fst (body a w) = Return None
         /\ sleeps (snd (body a w)) = (sleeps w ++ [(2 ^ Z.of_nat a)%Z])%list)
        \/ (fst (body a w) <> Return None /\ sleeps (snd (body a w)) = sleeps w)).

(** What holds of a client [self'] that [authenticate] returned, started on
    [self] in the world [w] and ending in [w']: the token in use decodes and
    carries the [upn] kept as [user], the header is built from it, the
    proxies are untouched; and the token is either the saved one, with no
    login made, or the one the last login returned. *)
Definition authenticated (E : Env) (self self' : AbstractPbiAPI_t) (w w' : World)
    : Prop :=
  exists token claims,
    access_token self' = Some token
    /\ header self' = Some [("Authorization", ("Bearer " ++ token)%string)]
    /\ jwt_decode E token = Ok claims
    /\ lookup "upn" claims = Some (user self')
    /\ proxies self' = proxies self
    /\ ((logins w' = logins w
         /\ saved_token self = Some token /\ saved_token self' = Some token)
        \/ (logins w < logins w'
            /\ get_token E (logins w' - 1) = Ok token
            /\ truthy_str (saved_token self') = false)).

(** A property of the world that only reads the requests and the sleeps. *)
Definition traffic_only (I : World -> Prop) : Prop :=
  forall w w', http_calls w' = http_calls w -> sleeps w' = sleeps w -> I w -> I w'.

(** The world [w'] shows the same HTTP requests and sleeps as [w]. *)
Definition same_traffic (w w' : World) : Prop :=
  http_calls w' = http_calls w /\ sleeps w' = sleeps w.

(** The identity provider is down. *)
Definition env_no_login : Env :=
  {| transport := fun _ _ => Ok response_200;
     get_token := fun _ => Err (mkExn Exception "login window closed" None);
     jwt_decode := fun token =>
       if String.eqb token "good" then Ok sample_upn
       else Err (mkExn DecodeError "Not enough segments" None);
     hash_str := fun s => Z.of_nat (String.length s);
     hash_int := fun n => n;
     hash_float := fun _ => 5%Z;
     hash_nan := fun obj => Z.of_nat obj;
     hash_none := 0%Z;
     hash_tuple := fun hs => fold_left Z.add hs 0%Z;
     repr_container := fun _ => "<container>";
     repr_float := fun _ => "<float>";
     Dashboard_new := fun parent _ => Ok (mkDashboard [] parent);
     Dashboard_hash := fun _ => Ok 0%Z;
     Dashboard_eq := fun _ _ => true |}.

(** The GET of [url] from the world [w] was answered with a mapping whose
    ["value"] cannot be iterated: the key is missing, or it holds null, a
    number or a boolean. *)
Definition answered_without_value (E : Env) (api : nat) (url : string) (w : World)
    : Prop :=
  exists response data w1 e,
    fetch_json E api url w = (Return (response, PyDict data), w1)
    /\ py_iter (value_of data) = Err e.

(** A server that answers an empty JSON object at [url] and an empty
    collection everywhere else. *)
Definition env_empty_object_at (url : string) : Env :=
  sample_env (fun _ req =>
    if String.eqb (req_url req) url
    then Ok (mkResponse 200 "{}" (Ok (PyDict [])))
    else Ok (mkResponse 200 "" (Ok (PyDict [("value", PyList [])])))).

(** Assignments to the collection attributes of a service. *)
Definition with_workspaces (self : Service_t) (v : PySet Workspace_t) : Service_t :=
  {| Service_api := Service_api self; workspaces := v; apps := apps self |}.

Definition with_apps (self : Service_t) (v : PySet App_t) : Service_t :=
  {| Service_api := Service_api self; workspaces := workspaces self; apps := v |}.

(** A fetch ended with the object [self'], started on [self]: it succeeded,
    or the object is as it was; [assigned] says that nothing but the
    fetch's own collection differs. *)
Definition atomic {Self : Type} (self : Self) (assigned : Self -> Prop)
    (out : Outcome unit * (Self * World)) : Prop :=
  (fst out = Return tt \/ fst (snd out) = self) /\ assigned (fst (snd out)).

(** No entry of the set equals a later one. *)
Definition pairwise_distinct {A : Type} (eq : A -> A -> bool) (s : PySet A) : Prop :=
  ForallOrdPairs (fun y x => eq y x = false) s.

(** The set [s] holds the first of each group of equal entities of [xs]
    and nothing else: no two entries are equal, every entry is one of [xs],
    an entity of [xs] that none before it equals is in [s], and an entity
    that one before it equals is left to an earlier one that equals it. *)
Definition holds_the_first_of_each {A : Type} (eq : A -> A -> bool)
    (xs : list A) (s : PySet A) : Prop :=
  pairwise_distinct eq s
  /\ (forall x, In x s -> In x xs)
  /\ (forall pre x post, xs = (pre ++ x :: post)%list ->
        if existsb (fun y => eq y x) pre
        then exists y, In y pre /\ In y s /\ eq y x = true
        else In x s).

(** The fetch of [url] on [api] from the world [w] assigned the set [s]:
    the answer was a mapping, and [s] collects the entities built from the
    items of its ["value"], in their order, holding the first of each group
    of equal ones. *)
Definition fetched_the_first_of_each {A : Type} (E : Env) (api : nat) (url : string)
    (w : World) (data_of : A -> Kwargs) (identity : A -> list PyVal)
    (names : list string) (eq : A -> A -> bool) (s : PySet A) : Prop :=
  exists response data items w1 xs,
    fetch_json E api url w = (Return (response, PyDict data), w1)
    /\ py_iter (value_of data) = Ok items
    /\ Forall2 (snapshot_of data_of identity names) items xs
    /\ s = collected eq xs []
    /\ holds_the_first_of_each eq xs s.

(** A server that lists r1, r2 and r1 again, renamed. *)
Definition env_repeated_item : Env :=
  sample_env (fun _ _ =>
    Ok (mkResponse 200 ""
          (Ok (PyDict [("value",
                        PyList [PyDict item_r1; PyDict item_r2;
                                PyDict [("id", PyStr "r1"); ("datasetId", PyStr "d1");
                                        ("name", PyStr "Sales, renamed")]])])))).

(** The query string as the specification words it: the parameters that
    are present, as [name=value], joined with [&].  An empty filter and a
    zero [top] or [skip] count as absent. *)
Definition present_str (s : option string) : option string :=
  match s with
  | Some x => if String.eqb x "" then None else Some x
  | None => None
  end.

Definition present_int (n : option Z) : option string :=
  match n with
  | Some k => if Z.eqb k 0 then None else Some (str_of_Z k)
  | None => None
  end.

Fixpoint query (params : list (string * option string)) : list string :=
  match params with
  | [] => []
  | (name, Some value) :: rest => (name ++ "=" ++ value) :: query rest
  | (_, None) :: rest => query rest
  end.

Definition query_string (params : list (string * option string)) : string :=
  join "&" (query params).

(** What a fetch adds to the traffic: between one and five copies of one
    GET request, and at most one backoff sleep for each. *)
Definition fetch_traffic (req : Request) (w w' : World) : Prop :=
  exists j s, 1 <= j <= 5 /\ s <= j /\ accounted req j s w w'.

(** A workspace as its constructor leaves it: nothing fetched yet, owned by
    the service, its fields read from the item it was built from. *)
Definition fresh_workspace (x : Workspace_t) : Prop :=
  reports x = [] /\ semantic_models x = [] /\ dataflows x = []
  /\ dashboards x = [] /\ data_sources x = [] /\ users x = []
  /\ Workspace_parent x = OwnerService
  /\ Workspace_id x = kwargs_get (Workspace_original_data x) "id"
  /\ Workspace_name x = kwargs_get (Workspace_original_data x) "name".

(** A server that lists one workspace. *)
Definition env_one_workspace : Env :=
  sample_env (fun _ _ =>
    Ok (mkResponse 200 ""
          (Ok (PyDict [("value",
                        PyList [PyDict [("id", PyStr "w1"); ("name", PyStr "Sales")]])])))).

(** The world [w'] has the session of [w]: the same number of logins, the
    same clients (and so the same tokens and headers), the same singleton. *)
Definition same_session (w w' : World) : Prop :=
  logins w' = logins w /\ heap w' = heap w
  /\ PbiAPI_instance w' = PbiAPI_instance w.

(** A server that rejects the token. *)
Definition response_403 : Response := mkResponse 403 "token expired" no_body.
Definition env_403 : Env := sample_env (fun _ _ => Ok response_403).

(** A field of the identity key is a NaN. *)
Definition key_has_nan (identity : list PyVal) : bool := existsb is_nan identity.

(** On the entities that can be hashed, and so on everything a set can
    hold, [eq] is symmetric and transitive, and an entity equals itself
    unless a field of its identity key is a NaN. *)
Definition equivalence_but_for_nan {A : Type} (hash : A -> result Z)
    (eq : A -> A -> bool) (identity : A -> list PyVal) : Prop :=
  (forall a h, hash a = Ok h -> eq a a = negb (key_has_nan (identity a)))
  /\ (forall a b h, hash a = Ok h -> eq a b = true -> eq b a = true)
  /\ (forall a b c h, hash a = Ok h -> eq a b = true -> eq b c = true ->
                      eq a c = true).

(** A workspace whose [id] came as a NaN. *)
Definition workspace_nan : Workspace_t :=
  mkWorkspace [("id", PyFloat (F_nan 0))] OwnerService 0 (PyFloat (F_nan 0))
    (PyStr "Sales") PyNone PyNone PyNone [] [] [] [] [] [].

(* ================================================================== *)
(** * Properties *)

(** ** The exception hierarchy *)

Lemma issubclass_Exception : forall c, issubclass c Exception = true.
Proof. destruct c; reflexivity. Qed.

(** C3: of the named error types only [JSONDecodeError] derives from
    [APIError]; the five that [_handle_response] raises for 401, 403, 404,
    429 and 500 derive from [Exception] directly, so an [except APIError]
    clause does not select them. *)
Theorem named_errors_outside_APIError :
  filter (fun c => negb (issubclass c APIError)) named_errors
  = [UnauthorizedError; TokenExpiredError; TooManyRequestsError;
     InternalServerError; PowerBIEntityNotFoundError]
  /\ issubclass JSONDecodeError APIError = true
  /\ (forall msg cause,
        isinstance (mkExn UnauthorizedError msg cause) [APIError] = false).
Proof.
  repeat split.
Qed.

(** ** The request methods *)

Lemma classified_table : forall status,
  fst (AbstractPbiAPI.dict_get AbstractPbiAPI.error_handlers status
         (APIError, "API error")) = classified status.
Proof.
  intros status. unfold classified, AbstractPbiAPI.error_handlers.
  cbn [AbstractPbiAPI.dict_get].
  rewrite !(Z.eqb_sym _ status).
  repeat match goal with
         | |- context [Z.eqb status ?k] => destruct (Z.eqb status k)
         end; reflexivity.
Qed.

Lemma classified_not_caught : forall status msg,
  isinstance (mkExn (classified status) msg None) [Timeout] = false
  /\ isinstance (mkExn (classified status) msg None)
       [TooManyRedirects; HTTPError; RequestException] = false.
Proof.
  intros status msg. unfold classified.
  repeat match goal with
         | |- context [Z.eqb status ?k] => destruct (Z.eqb status k)
         end; split; reflexivity.
Qed.

Lemma classified_not_429 : forall status msg,
  status <> 429%Z ->
  isinstance (mkExn (classified status) msg None) [Timeout; TooManyRequestsError]
  = false.
Proof.
  intros status msg Hne. unfold classified.
  destruct (Z.eqb_spec status 429) as [->|_]; [congruence|].
  repeat match goal with
         | |- context [Z.eqb status ?k] => destruct (Z.eqb status k)
         end; reflexivity.
Qed.

(** [_handle_response] returns the response it was given when the status is
    200, 201 or 202, and raises the mapped class otherwise, logging once. *)
Lemma handle_response_success : forall response url w,
  is_success (status_code response) = true ->
  AbstractPbiAPI._handle_response response url w = (Return response, w).
Proof.
  intros response url w H. unfold AbstractPbiAPI._handle_response.
  unfold is_success in H. rewrite H. reflexivity.
Qed.

Lemma handle_response_failure : forall response url w,
  is_success (status_code response) = false ->
  exists msg entry,
    AbstractPbiAPI._handle_response response url w
    = (Raise (mkExn (classified (status_code response)) msg None),
       {| http_calls := http_calls w; sleeps := sleeps w;
          log := (log w ++ [entry])%list; logins := logins w;
          PbiAPI_instance := PbiAPI_instance w; heap := heap w |}).
Proof.
  intros response url w H. unfold AbstractPbiAPI._handle_response.
  unfold is_success in H. rewrite H.
  rewrite <- classified_table.
  destruct (AbstractPbiAPI.dict_get _ _ _) as [error_class message].
  do 2 eexists. reflexivity.
Qed.

Lemma backoff_cons : forall first count,
  backoff first (S count) = (2 ^ Z.of_nat first)%Z :: backoff (S first) count.
Proof. reflexivity. Qed.

Lemma range_split : forall max_retries k,
  (Z.of_nat k < max_retries)%Z ->
  exists rest, range max_retries = (seq 0 k ++ k :: rest)%list.
Proof.
  intros max_retries k Hk. unfold range.
  assert (Hn : Z.to_nat max_retries = k + S (Z.to_nat max_retries - S k)) by lia.
  rewrite Hn, seq_app. cbn [seq]. eexists. reflexivity.
Qed.

(** The loop walks over the attempts that are retried. *)
Lemma for_attempts_retries :
  forall (body : nat -> M World (option Response)) (req : Request)
         (P : nat -> Prop) (after : M World Response),
    (forall a w, P (List.length (http_calls w)) -> exists w', retried body req a w w') ->
    forall k a rest w,
      (forall i, i < k -> P (List.length (http_calls w) + i)) ->
      exists wk,
        for_attempts body (seq a k ++ rest) after w = for_attempts body rest after wk
        /\ http_calls wk = (http_calls w ++ repeat req k)%list
        /\ sleeps wk = (sleeps w ++ backoff a k)%list.
Proof.
  intros body req P after Hstep.
  induction k as [|k IH]; intros a rest w Hk.
  - exists w. cbn. rewrite !app_nil_r. auto.
  - destruct (Hstep a w) as (w1 & Hbody & Hcalls & Hsleeps).
    { rewrite <- (Nat.add_0_r (List.length (http_calls w))). apply Hk. lia. }
    destruct (IH (S a) rest w1) as (wk & Hloop & Hcallsk & Hsleepsk).
    { intros i Hi. rewrite Hcalls, length_app. cbn [List.length].
      replace (List.length (http_calls w) + 1 + i)
        with (List.length (http_calls w) + S i) by lia.
      apply Hk. lia. }
    exists wk. split; [|split].
    + cbn [seq app for_attempts]. unfold bind at 1. rewrite Hbody. exact Hloop.
    + rewrite Hcallsk, Hcalls, <- app_assoc. reflexivity.
    + rewrite Hsleepsk, Hsleeps, <- app_assoc, backoff_cons. reflexivity.
Qed.

(** An attempt that raises ends the loop with that exception. *)
Lemma for_attempts_raises :
  forall (body : nat -> M World (option Response)) after a rest w e w',
    body a w = (Raise e, w') ->
    for_attempts body (a :: rest) after w = (Raise e, w').
Proof.
  intros body after a rest w e w' H. cbn [for_attempts]. unfold bind.
  rewrite H. reflexivity.
Qed.

Ltac step_attempt :=
  unfold try_except, bind, requests_request, AbstractPbiAPI._log_retry_attempt,
    logger, time_sleep, ret, raise.

Lemma get_attempt_timeout : forall E url headers proxies timeout_duration max_retries a w,
  times_out E (get_request url headers proxies timeout_duration)
    (List.length (http_calls w)) ->
  exists w',
    retried (AbstractPbiAPI.get_attempt E url headers proxies timeout_duration max_retries)
      (get_request url headers proxies timeout_duration) a w w'.
Proof.
  intros E url headers proxies timeout_duration max_retries a w (e & He & Hto).
  unfold retried, AbstractPbiAPI.get_attempt, get_request in *. step_attempt.
  rewrite He, Hto. cbn. eexists. repeat split.
Qed.

Lemma delete_attempt_timeout : forall E url headers proxies timeout_duration max_retries a w,
  times_out E (delete_request url headers proxies timeout_duration)
    (List.length (http_calls w)) ->
  exists w',
    retried (AbstractPbiAPI.delete_attempt E url headers proxies timeout_duration max_retries)
      (delete_request url headers proxies timeout_duration) a w w'.
Proof.
  intros E url headers proxies timeout_duration max_retries a w (e & He & Hto).
  unfold retried, AbstractPbiAPI.delete_attempt, delete_request in *. step_attempt.
  rewrite He, Hto. cbn. eexists. repeat split.
Qed.

Lemma isinstance_Timeout_weaken : forall e,
  isinstance e [Timeout] = true ->
  isinstance e [Timeout; TooManyRequestsError] = true.
Proof.
  intros e H. unfold isinstance in *. cbn [existsb] in *.
  rewrite orb_false_r in H. rewrite H. reflexivity.
Qed.

Lemma post_attempt_timeout :
  forall E url headers proxies timeout_duration max_retries payload a w,
  times_out E (post_request url headers proxies timeout_duration payload)
    (List.length (http_calls w)) ->
  exists w',
    retried (AbstractPbiAPI.post_attempt E url headers proxies timeout_duration
               max_retries payload)
      (post_request url headers proxies timeout_duration payload) a w w'.
Proof.
  intros E url headers proxies timeout_duration max_retries payload a w (e & He & Hto).
  apply isinstance_Timeout_weaken in Hto.
  unfold retried, AbstractPbiAPI.post_attempt, post_request in *. step_attempt.
  rewrite He, Hto. cbn. eexists. repeat split.
Qed.

Ltac handle_failure response url H :=
  match goal with
  | |- context [AbstractPbiAPI._handle_response response url ?w2] =>
      let msg := fresh "msg" in
      let entry := fresh "entry" in
      let Hr := fresh "Hr" in
      destruct (handle_response_failure response url w2 H) as (msg & entry & Hr);
      rewrite Hr; clear Hr
  end.

Lemma get_attempt_failure :
  forall E url headers proxies timeout_duration max_retries a w response,
  transport E (List.length (http_calls w))
    (get_request url headers proxies timeout_duration) = Ok response ->
  is_success (status_code response) = false ->
  exists msg w',
    AbstractPbiAPI.get_attempt E url headers proxies timeout_duration max_retries a w
    = (Raise (mkExn (classified (status_code response)) msg None), w')
    /\ http_calls w'
       = (http_calls w ++ [get_request url headers proxies timeout_duration])%list
    /\ sleeps w' = sleeps w.
Proof.
  intros E url headers proxies timeout_duration max_retries a w response He Hs.
  unfold AbstractPbiAPI.get_attempt, get_request in *. step_attempt.
  rewrite He. cbv beta iota.
  handle_failure response url Hs.
  destruct (classified_not_caught (status_code response) msg) as [H1 H2].
  cbv beta iota. rewrite H1, H2. do 2 eexists. repeat split.
Qed.

Lemma delete_attempt_failure :
  forall E url headers proxies timeout_duration max_retries a w response,
  transport E (List.length (http_calls w))
    (delete_request url headers proxies timeout_duration) = Ok response ->
  is_success (status_code response) = false ->
  exists msg w',
    AbstractPbiAPI.delete_attempt E url headers proxies timeout_duration max_retries a w
    = (Raise (mkExn (classified (status_code response)) msg None), w')
    /\ http_calls w'
       = (http_calls w ++ [delete_request url headers proxies timeout_duration])%list
    /\ sleeps w' = sleeps w.
Proof.
  intros E url headers proxies timeout_duration max_retries a w response He Hs.
  unfold AbstractPbiAPI.delete_attempt, delete_request in *. step_attempt.
  rewrite He. cbv beta iota.
  handle_failure response url Hs.
  destruct (classified_not_caught (status_code response) msg) as [H1 H2].
  cbv beta iota. rewrite H1, H2. do 2 eexists. repeat split.
Qed.

Lemma post_attempt_failure :
  forall E url headers proxies timeout_duration max_retries payload a w response,
  transport E (List.length (http_calls w))
    (post_request url headers proxies timeout_duration payload) = Ok response ->
  is_success (status_code response) = false ->
  status_code response <> 429%Z ->
  exists msg w',
    AbstractPbiAPI.post_attempt E url headers proxies timeout_duration max_retries
      payload a w
    = (Raise (mkExn (classified (status_code response)) msg None), w')
    /\ http_calls w'
       = (http_calls w ++ [post_request url headers proxies timeout_duration payload])%list
    /\ sleeps w' = sleeps w.
Proof.
  intros E url headers proxies timeout_duration max_retries payload a w response
    He Hs Hne.
  unfold AbstractPbiAPI.post_attempt, post_request in *. step_attempt.
  rewrite He. cbv beta iota.
  handle_failure response url Hs.
  destruct (classified_not_caught (status_code response) msg) as [_ H2].
  pose proof (classified_not_429 (status_code response) msg Hne) as H1.
  cbv beta iota. rewrite H1, H2. do 2 eexists. repeat split.
Qed.

(** On a 429 the POST loop does not raise: the [TooManyRequestsError] is
    caught next to [Timeout], the attempt sleeps and falls through. *)
Lemma post_attempt_429 :
  forall E url headers proxies timeout_duration max_retries payload a w response,
  transport E (List.length (http_calls w))
    (post_request url headers proxies timeout_duration payload) = Ok response ->
  status_code response = 429%Z ->
  exists w',
    retried (AbstractPbiAPI.post_attempt E url headers proxies timeout_duration
               max_retries payload)
      (post_request url headers proxies timeout_duration payload) a w w'.
Proof.
  intros E url headers proxies timeout_duration max_retries payload a w response
    He H429.
  assert (Hs : is_success (status_code response) = false) by (rewrite H429; reflexivity).
  unfold retried, AbstractPbiAPI.post_attempt, post_request in *. step_attempt.
  rewrite He. cbv beta iota.
  handle_failure response url Hs.
  rewrite H429. cbn. eexists. repeat split.
Qed.

(** A method call ends with the mapped error on the first classified
    failure, whatever number of timeouts came before it. *)
Lemma loop_raises_classified :
  forall (body : nat -> M World (option Response)) (req : Request) E after
         max_retries k w response,
    (forall a w, times_out E req (List.length (http_calls w)) ->
                 exists w', retried body req a w w') ->
    (forall a w, transport E (List.length (http_calls w)) req = Ok response ->
                 exists msg w',
                   body a w = (Raise (mkExn (classified (status_code response)) msg None), w')
                   /\ http_calls w' = (http_calls w ++ [req])%list
                   /\ sleeps w' = sleeps w) ->
    (Z.of_nat k < max_retries)%Z ->
    (forall i, i < k -> times_out E req (List.length (http_calls w) + i)) ->
    transport E (List.length (http_calls w) + k) req = Ok response ->
    raised_classified (status_code response) req k w
      (for_attempts body (range max_retries) after w).
Proof.
  intros body req E after max_retries k w response Hretry Hfail Hk Hto Hresp.
  destruct (range_split max_retries k Hk) as [rest ->].
  destruct (for_attempts_retries body req (times_out E req) after Hretry k 0
              (k :: rest) w Hto) as (wk & Hloop & Hcalls & Hsleeps).
  rewrite Hloop.
  destruct (Hfail k wk) as (msg & w' & Hbody & Hcalls' & Hsleeps').
  { rewrite Hcalls, length_app, repeat_length. exact Hresp. }
  rewrite (for_attempts_raises body after k rest wk _ w' Hbody).
  unfold raised_classified. cbn [fst snd]. split; [eauto|]. split.
  - rewrite Hcalls', Hcalls, <- app_assoc.
    f_equal. change [req] with (repeat req 1). rewrite <- repeat_app.
    f_equal. lia.
  - rewrite Hsleeps', Hsleeps. reflexivity.
Qed.

(** C1, as the code has it: a response whose status is not 200, 201 or 202
    makes [make_api_get_request] and [make_api_delete_request] raise the
    mapped error at once (401 UnauthorizedError, 403 TokenExpiredError, 404
    PowerBIEntityNotFoundError, 429 TooManyRequestsError, 500
    InternalServerError, anything else APIError): after [k] timeouts the
    call has issued [k + 1] requests and slept [k] times.
    [make_api_post_request] does the same for every such status but 429; on a
    429 its attempt is given up, sleeps [2 ^ attempt] and the loop goes on. *)
Theorem classified_failure_raised_without_retry :
  forall E url headers proxies timeout_duration max_retries payload w k response,
    (Z.of_nat k < max_retries)%Z ->
    is_success (status_code response) = false ->
    let n := List.length (http_calls w) in
    let get := get_request url headers proxies timeout_duration in
    let delete := delete_request url headers proxies timeout_duration in
    let post := post_request url headers proxies timeout_duration payload in
    ((forall i, i < k -> times_out E get (n + i)) ->
     transport E (n + k) get = Ok response ->
     raised_classified (status_code response) get k w
       (AbstractPbiAPI.make_api_get_request E url headers proxies timeout_duration
          max_retries w))
    /\
    ((forall i, i < k -> times_out E delete (n + i)) ->
     transport E (n + k) delete = Ok response ->
     raised_classified (status_code response) delete k w
       (AbstractPbiAPI.make_api_delete_request E url headers proxies timeout_duration
          max_retries w))
    /\
    ((forall i, i < k -> times_out E post (n + i)) ->
     transport E (n + k) post = Ok response ->
     status_code response <> 429%Z ->
     raised_classified (status_code response) post k w
       (AbstractPbiAPI.make_api_post_request E url headers proxies timeout_duration
          max_retries payload w))
    /\
    (status_code response = 429%Z ->
     forall attempt w0,
       transport E (List.length (http_calls w0)) post = Ok response ->
       exists w1,
         retried (AbstractPbiAPI.post_attempt E url headers proxies timeout_duration
                    max_retries payload) post attempt w0 w1).
Proof.
  intros E url headers proxies timeout_duration max_retries payload w k response
    Hk Hs n get delete post.
  split; [|split; [|split]].
  - intros Hto Hresp. unfold AbstractPbiAPI.make_api_get_request.
    apply loop_raises_classified with (E := E); auto.
    + intros a w0. apply get_attempt_timeout.
    + intros a w0 H0. apply get_attempt_failure; auto.
  - intros Hto Hresp. unfold AbstractPbiAPI.make_api_delete_request.
    apply loop_raises_classified with (E := E); auto.
    + intros a w0. apply delete_attempt_timeout.
    + intros a w0 H0. apply delete_attempt_failure; auto.
  - intros Hto Hresp Hne. unfold AbstractPbiAPI.make_api_post_request.
    apply loop_raises_classified with (E := E); auto.
    + intros a w0. apply post_attempt_timeout.
    + intros a w0 H0. apply post_attempt_failure; auto.
  - intros H429 attempt w0 H0. apply post_attempt_429 with (response := response); auto.
Qed.

Lemma classified_failure_raised_without_retry_witness :
  raised_classified 404 (get_request "u" None None 10) 0 fresh_world
    (AbstractPbiAPI.make_api_get_request env_404 "u" None None 10 5 fresh_world)
  /\ raised_classified 404 (delete_request "u" None None 10) 0 fresh_world
       (AbstractPbiAPI.make_api_delete_request env_404 "u" None None 10 5 fresh_world)
  /\ raised_classified 404 (post_request "u" None None 10 None) 0 fresh_world
       (AbstractPbiAPI.make_api_post_request env_404 "u" None None 10 5 None fresh_world)
  /\ exists w1,
       retried (AbstractPbiAPI.post_attempt env_429 "u" None None 10 5 None)
         (post_request "u" None None 10 None) 0 fresh_world w1.
Proof.
  pose proof (classified_failure_raised_without_retry env_404 "u" None None 10 5
                None fresh_world 0 response_404 eq_refl eq_refl)
    as (Hget & Hdelete & Hpost & _).
  pose proof (classified_failure_raised_without_retry env_429 "u" None None 10 5
                None fresh_world 0 response_429 eq_refl eq_refl)
    as (_ & _ & _ & H429).
  split; [|split; [|split]].
  - apply Hget; [intros i Hi; inversion Hi | reflexivity].
  - apply Hdelete; [intros i Hi; inversion Hi | reflexivity].
  - apply Hpost; [intros i Hi; inversion Hi | reflexivity | discriminate].
  - apply (H429 eq_refl 0 fresh_world). reflexivity.
Defined.

(** C1 as stated fails for POST: with a server that answers 429 to every
    request, [make_api_post_request] with two attempts issues two requests,
    sleeps 1 and 2, and raises the exhaustion [APIError], not
    [TooManyRequestsError]. *)
Lemma post_retries_on_429 :
  let out := AbstractPbiAPI.make_api_post_request env_429 "u" None None 10 2 None
               fresh_world in
  ~ raised_classified 429 (post_request "u" None None 10 None) 0 fresh_world out
  /\ fst out = Raise (mkExn APIError "API request failed after maximum retries." None)
  /\ List.length (http_calls (snd out)) = 2
  /\ sleeps (snd out) = [1%Z; 2%Z].
Proof.
  cbv zeta. split; [|vm_compute; repeat split].
  intros ((msg & Hraise) & _ & _). vm_compute in Hraise. discriminate.
Qed.

(** C4: with [max_retries = 3] and a transport that times out on the three
    requests, [make_api_get_request] issues exactly three requests, sleeps
    1, 2 and 4, and raises the [APIError] "API request failed after maximum
    retries.". *)
Theorem three_timeouts_then_exhaustion :
  forall E url headers proxies timeout_duration w,
    let req := get_request url headers proxies timeout_duration in
    (forall i, i < 3 -> times_out E req (List.length (http_calls w) + i)) ->
    let out := AbstractPbiAPI.make_api_get_request E url headers proxies
                 timeout_duration 3 w in
    fst out = Raise (mkExn APIError "API request failed after maximum retries." None)
    /\ http_calls (snd out) = (http_calls w ++ [req; req; req])%list
    /\ sleeps (snd out) = (sleeps w ++ [1%Z; 2%Z; 4%Z])%list.
Proof.
  intros E url headers proxies timeout_duration w req Hto out.
  destruct (for_attempts_retries
              (AbstractPbiAPI.get_attempt E url headers proxies timeout_duration 3)
              req (times_out E req)
              (raise (mkExn APIError AbstractPbiAPI.max_retries_message None))
              (fun a w0 => get_attempt_timeout E url headers proxies timeout_duration
                             3 a w0)
              3 0 [] w Hto) as (wk & Hloop & Hcalls & Hsleeps).
  subst out. unfold AbstractPbiAPI.make_api_get_request.
  change (range 3) with (seq 0 3 ++ [])%list. rewrite Hloop.
  cbn [for_attempts]. unfold raise. cbn [fst snd].
  rewrite Hcalls, Hsleeps. repeat split.
Qed.

Lemma three_timeouts_then_exhaustion_witness :
  let req := get_request "u" None None 10 in
  let out := AbstractPbiAPI.make_api_get_request env_timeout "u" None None 10 3
               fresh_world in
  fst out = Raise (mkExn APIError "API request failed after maximum retries." None)
  /\ http_calls (snd out) = [req; req; req]
  /\ sleeps (snd out) = [1%Z; 2%Z; 4%Z].
Proof.
  apply (three_timeouts_then_exhaustion env_timeout "u" None None 10 fresh_world).
  intros i Hi. eexists. split; reflexivity.
Defined.

(** The loop returns only what one of its attempts returned. *)
Lemma for_attempts_returns :
  forall (body : nat -> M World (option Response)) (Q : Response -> Prop) e attempts w r w',
    (forall a w0 r0 w1, body a w0 = (Return (Some r0), w1) -> Q r0) ->
    for_attempts body attempts (raise e) w = (Return r, w') ->
    Q r.
Proof.
  intros body Q e attempts. induction attempts as [|a rest IH]; intros w r w' Hbody H.
  - discriminate.
  - cbn [for_attempts] in H. unfold bind in H.
    destruct (body a w) as [[[r0|] | | |] w1] eqn:Ha; try discriminate.
    + inversion H; subst. eapply Hbody; eauto.
    + eapply IH; eauto.
Qed.

Lemma is_success_In : forall status,
  is_success status = true -> In status [200%Z; 201%Z; 202%Z].
Proof.
  intros status H. unfold is_success in H. apply existsb_exists in H.
  destruct H as (x & Hin & Heq). apply Z.eqb_eq in Heq. subst. exact Hin.
Qed.

Ltac attempt_returns H :=
  unfold try_except, bind, requests_request, AbstractPbiAPI._log_retry_attempt,
    logger, time_sleep, ret, raise in H;
  match type of H with
  | context [transport ?E ?n ?req] => destruct (transport E n req)
  end;
  cbv beta iota in H;
  try match type of H with
      | context [AbstractPbiAPI._handle_response ?response ?url ?w2] =>
          let Hs := fresh "Hs" in
          destruct (is_success (status_code response)) eqn:Hs;
          [ rewrite (handle_response_success response url w2 Hs) in H;
            inversion H; subst; apply is_success_In; exact Hs
          | let msg := fresh "msg" in
            let entry := fresh "entry" in
            let Hr := fresh "Hr" in
            destruct (handle_response_failure response url w2 Hs) as (msg & entry & Hr);
            rewrite Hr in H; clear Hr; cbv beta iota in H ]
      end;
  repeat match type of H with
         | context [if ?b then _ else _] => destruct b
         end;
  discriminate.

Lemma get_attempt_returns :
  forall E url headers proxies timeout_duration max_retries a w r w',
    AbstractPbiAPI.get_attempt E url headers proxies timeout_duration max_retries a w
    = (Return (Some r), w') ->
    In (status_code r) [200%Z; 201%Z; 202%Z].
Proof.
  intros E url headers proxies timeout_duration max_retries a w r w' H.
  unfold AbstractPbiAPI.get_attempt in H. attempt_returns H.
Qed.

Lemma post_attempt_returns :
  forall E url headers proxies timeout_duration max_retries payload a w r w',
    AbstractPbiAPI.post_attempt E url headers proxies timeout_duration max_retries
      payload a w = (Return (Some r), w') ->
    In (status_code r) [200%Z; 201%Z; 202%Z].
Proof.
  intros E url headers proxies timeout_duration max_retries payload a w r w' H.
  unfold AbstractPbiAPI.post_attempt in H. attempt_returns H.
Qed.

Lemma delete_attempt_returns :
  forall E url headers proxies timeout_duration max_retries a w r w',
    AbstractPbiAPI.delete_attempt E url headers proxies timeout_duration max_retries a w
    = (Return (Some r), w') ->
    In (status_code r) [200%Z; 201%Z; 202%Z].
Proof.
  intros E url headers proxies timeout_duration max_retries a w r w' H.
  unfold AbstractPbiAPI.delete_attempt in H. attempt_returns H.
Qed.

(** C10: [_handle_response] raises for every status other than 200, 201 and
    202 (204 included), and a response returned by [make_api_get_request],
    [make_api_post_request] or [make_api_delete_request] has one of these
    three statuses. *)
Theorem only_200_201_202_are_returned :
  (forall response url w,
     ~ In (status_code response) [200%Z; 201%Z; 202%Z] ->
     exists e w', AbstractPbiAPI._handle_response response url w = (Raise e, w'))
  /\ (forall E url headers proxies timeout_duration max_retries w r w',
        AbstractPbiAPI.make_api_get_request E url headers proxies timeout_duration
          max_retries w = (Return r, w') ->
        In (status_code r) [200%Z; 201%Z; 202%Z])
  /\ (forall E url headers proxies timeout_duration max_retries payload w r w',
        AbstractPbiAPI.make_api_post_request E url headers proxies timeout_duration
          max_retries payload w = (Return r, w') ->
        In (status_code r) [200%Z; 201%Z; 202%Z])
  /\ (forall E url headers proxies timeout_duration max_retries w r w',
        AbstractPbiAPI.make_api_delete_request E url headers proxies timeout_duration
          max_retries w = (Return r, w') ->
        In (status_code r) [200%Z; 201%Z; 202%Z]).
Proof.
  split; [|split; [|split]].
  - intros response url w Hout.
    destruct (is_success (status_code response)) eqn:Hs.
    + exfalso. apply Hout. apply is_success_In. exact Hs.
    + destruct (handle_response_failure response url w Hs) as (msg & entry & Hr).
      rewrite Hr. eauto.
  - intros E url headers proxies timeout_duration max_retries w r w' H.
    unfold AbstractPbiAPI.make_api_get_request in H.
    apply (for_attempts_returns _
             (fun r0 => In (status_code r0) [200%Z; 201%Z; 202%Z]) _ _ _ _ _) in H;
      [exact H|].
    intros a w0 r0 w1. apply get_attempt_returns.
  - intros E url headers proxies timeout_duration max_retries payload w r w' H.
    unfold AbstractPbiAPI.make_api_post_request in H.
    apply (for_attempts_returns _
             (fun r0 => In (status_code r0) [200%Z; 201%Z; 202%Z]) _ _ _ _ _) in H;
      [exact H|].
    intros a w0 r0 w1. apply post_attempt_returns.
  - intros E url headers proxies timeout_duration max_retries w r w' H.
    unfold AbstractPbiAPI.make_api_delete_request in H.
    apply (for_attempts_returns _
             (fun r0 => In (status_code r0) [200%Z; 201%Z; 202%Z]) _ _ _ _ _) in H;
      [exact H|].
    intros a w0 r0 w1. apply delete_attempt_returns.
Qed.



Lemma only_200_201_202_are_returned_witness :
  (exists e w', AbstractPbiAPI._handle_response response_204 "u" fresh_world = (Raise e, w'))
  /\ In (status_code response_200) [200%Z; 201%Z; 202%Z].
Proof.
  destruct only_200_201_202_are_returned as (Hraise & Hget & _ & _).
  split.
  - apply Hraise. cbn. intros [H|[H|[H|[]]]]; discriminate.
  - apply (Hget env_200 "u" None None 10%Z 5%Z fresh_world response_200
             (snd (AbstractPbiAPI.make_api_get_request env_200 "u" None None 10 5
                     fresh_world))).
    reflexivity.
Defined.

(** ** Authentication *)

Lemma user_info_unusable : forall E self token,
  access_token self = Some token ->
  usable E token = false ->
  exists e, AbstractPbiAPI.__user_info E self = Err e.
Proof.
  intros E self token Ht Hu. unfold AbstractPbiAPI.__user_info, usable in *.
  rewrite Ht. destruct (jwt_decode E token) as [decoded|e]; [|eauto].
  destruct (lookup "upn" decoded); [discriminate|eauto].
Qed.

Lemma user_info_usable : forall E self token,
  access_token self = Some token ->
  usable E token = true ->
  exists self', AbstractPbiAPI.__user_info E self = Ok self'
                /\ access_token self' = Some token
                /\ saved_token self' = saved_token self.
Proof.
  intros E self token Ht Hu. unfold AbstractPbiAPI.__user_info, usable in *.
  rewrite Ht. destruct (jwt_decode E token) as [decoded|e]; [|discriminate].
  destruct (lookup "upn" decoded); [|discriminate].
  eexists. repeat split.
Qed.

Lemma isinstance_Exception : forall e, isinstance e [Exception] = true.
Proof.
  intros e. unfold isinstance. cbn [existsb].
  rewrite issubclass_Exception. reflexivity.
Qed.

Lemma reauthenticate_returns_self :
  forall (m : AbstractPbiAPI_t -> M World AbstractPbiAPI_t) self w,
    bind (AbstractPbiAPI.reauthenticate_via m self) (fun r => ret (snd r)) w
    = m {| proxies := proxies self; user := user self; saved_token := None;
           access_token := access_token self; header := header self |} w.
Proof.
  intros m self w. unfold AbstractPbiAPI.reauthenticate_via, bind, ret.
  destruct (m _ w) as [[s| | |] w']; reflexivity.
Qed.

(** After a failed decode [authenticate] logs once and starts over without
    the saved token. *)
Lemma authenticate_after_failed_decode : forall E fuel self token w e,
  AbstractPbiAPI.__user_info E
    {| proxies := proxies self; user := user self; saved_token := saved_token self;
       access_token := Some token;
       header := Some [("Authorization", ("Bearer " ++ token)%string)] |} = Err e ->
  exists entry,
    announces_reauthentication entry = true
    /\ try_except
         (lift (AbstractPbiAPI.__user_info E
            {| proxies := proxies self; user := user self;
               saved_token := saved_token self; access_token := Some token;
               header := Some [("Authorization", ("Bearer " ++ token)%string)] |}))
         (fun e =>
            if isinstance e [ExpiredSignatureError; DecodeError;
                             InvalidSignatureError; InvalidTokenError] then
              logger WARNING "Saved token has expired. Reauthenticating...";;
              r <- AbstractPbiAPI.reauthenticate_via
                     (AbstractPbiAPI.authenticate E fuel)
                     {| proxies := proxies self; user := user self;
                        saved_token := saved_token self; access_token := Some token;
                        header := Some [("Authorization", ("Bearer " ++ token)%string)] |};;
              ret (snd r)
            else if isinstance e [Exception] then
              logger ERROR "Unexpected error during user info retrieval. Reauthenticating...";;
              r <- AbstractPbiAPI.reauthenticate_via
                     (AbstractPbiAPI.authenticate E fuel)
                     {| proxies := proxies self; user := user self;
                        saved_token := saved_token self; access_token := Some token;
                        header := Some [("Authorization", ("Bearer " ++ token)%string)] |};;
              ret (snd r)
            else raise e) w
       = AbstractPbiAPI.authenticate E fuel (discarded self token)
           {| http_calls := http_calls w; sleeps := sleeps w;
              log := (log w ++ [entry])%list; logins := logins w;
              PbiAPI_instance := PbiAPI_instance w; heap := heap w |}.
Proof.
  intros E fuel self token w e He.
  unfold try_except. rewrite He. cbn [lift]. unfold raise at 1.
  destruct (isinstance e [ExpiredSignatureError; DecodeError;
                          InvalidSignatureError; InvalidTokenError]).
  - exists (WARNING, "Saved token has expired. Reauthenticating...").
    split; [reflexivity|].
    unfold bind at 1. unfold logger at 1.
    rewrite reauthenticate_returns_self. reflexivity.
  - rewrite isinstance_Exception.
    exists (ERROR, "Unexpected error during user info retrieval. Reauthenticating...").
    split; [reflexivity|].
    unfold bind at 1. unfold logger at 1.
    rewrite reauthenticate_returns_self. reflexivity.
Qed.

Lemma reauthentications_logged : forall w entry,
  announces_reauthentication entry = true ->
  reauthentications
    {| http_calls := http_calls w; sleeps := sleeps w;
       log := (log w ++ [entry])%list; logins := logins w;
       PbiAPI_instance := PbiAPI_instance w; heap := heap w |}
  = S (reauthentications w).
Proof.
  intros w entry H. unfold reauthentications. cbn [log].
  rewrite filter_app, length_app. cbn [filter]. rewrite H. cbn. lia.
Qed.

(** Without a saved token: [k] fresh tokens that do not decode, then one
    that does. *)
Lemma authenticate_fresh_tokens : forall E k fuel self w,
  truthy_str (saved_token self) = false ->
  (forall i, i < k ->
     exists t, get_token E (logins w + i) = Ok t /\ usable E t = false) ->
  (exists t, get_token E (logins w + k) = Ok t /\ usable E t = true) ->
  k < fuel ->
  exists self' w',
    AbstractPbiAPI.authenticate E fuel self w = (Return self', w')
    /\ logins w' = logins w + S k
    /\ reauthentications w' = reauthentications w + k.
Proof.
  intros E. induction k as [|k IH]; intros fuel self w Hs Hbad Hgood Hfuel;
    (destruct fuel as [|fuel]; [lia|]); cbn [AbstractPbiAPI.authenticate];
    rewrite Hs; cbn [negb]; unfold bind at 1;
    unfold InteractiveBrowserCredential_get_token.
  - destruct Hgood as (t & Ht & Hu). rewrite Nat.add_0_r in Ht. rewrite Ht.
    destruct (user_info_usable E
                {| proxies := proxies self; user := user self;
                   saved_token := saved_token self; access_token := Some t;
                   header := Some [("Authorization", ("Bearer " ++ t)%string)] |}
                t eq_refl Hu) as (self' & Hok & _).
    unfold try_except. rewrite Hok. cbn [lift]. unfold ret.
    do 2 eexists. split; [reflexivity|]. cbn [logins log]. split; [lia|].
    unfold reauthentications. cbn [log]. lia.
  - destruct (Hbad 0) as (t & Ht & Hu); [lia|]. rewrite Nat.add_0_r in Ht. rewrite Ht.
    destruct (user_info_unusable E
                {| proxies := proxies self; user := user self;
                   saved_token := saved_token self; access_token := Some t;
                   header := Some [("Authorization", ("Bearer " ++ t)%string)] |}
                t eq_refl Hu) as (e & He).
    destruct (authenticate_after_failed_decode E fuel self t
                {| http_calls := http_calls w; sleeps := sleeps w; log := log w;
                   logins := S (logins w); PbiAPI_instance := PbiAPI_instance w;
                   heap := heap w |} e He) as (entry & Hentry & ->).
    cbn [http_calls sleeps log logins PbiAPI_instance heap].
    match goal with
    | |- context [AbstractPbiAPI.authenticate E fuel ?s ?w2] =>
        destruct (IH fuel s w2) as (self' & w' & Hrun & Hlogins & Hre)
    end.
    + reflexivity.
    + intros i Hi. cbn [logins].
      replace (S (logins w) + i) with (logins w + S i) by lia. apply Hbad. lia.
    + cbn [logins].
      replace (S (logins w) + k) with (logins w + S k) by lia. exact Hgood.
    + lia.
    + exists self', w'. split; [exact Hrun|]. cbn [logins] in Hlogins.
      split; [lia|]. rewrite Hre.
      pose proof (reauthentications_logged
                    {| http_calls := http_calls w; sleeps := sleeps w; log := log w;
                       logins := S (logins w); PbiAPI_instance := PbiAPI_instance w;
                       heap := heap w |} entry Hentry) as Hlog.
      cbn [http_calls sleeps log logins PbiAPI_instance heap] in Hlog.
      rewrite Hlog. unfold reauthentications. cbn [log]. lia.
Qed.

(** C2, as the code has it: [authenticate] discards a token whose claims do
    not decode and re-authenticates, once for every failed decode.  With a
    saved token that does not decode, [k] fresh tokens that do not decode
    either and then one that does, it returns after exactly [k + 1]
    re-authentications (one when the first fresh token decodes). *)
Theorem authenticate_reauthenticates_per_failed_decode :
  forall E k fuel self saved w,
    saved_token self = Some saved ->
    saved <> "" ->
    usable E saved = false ->
    (forall i, i < k ->
       exists t, get_token E (logins w + i) = Ok t /\ usable E t = false) ->
    (exists t, get_token E (logins w + k) = Ok t /\ usable E t = true) ->
    S k < fuel ->
    exists self' w',
      AbstractPbiAPI.authenticate E fuel self w = (Return self', w')
      /\ reauthentications w' = reauthentications w + S k
      /\ logins w' = logins w + S k.
Proof.
  intros E k fuel self saved w Hsaved Hne Hu Hbad Hgood Hfuel.
  destruct fuel as [|fuel]; [lia|]. cbn [AbstractPbiAPI.authenticate].
  assert (Htruthy : truthy_str (saved_token self) = true).
  { rewrite Hsaved. cbn. destruct (String.eqb_spec saved ""); [contradiction|reflexivity]. }
  rewrite Htruthy. cbn [negb].
  replace (match saved_token self with Some t => t | None => "" end) with saved
    by (rewrite Hsaved; reflexivity).
  unfold bind at 1. unfold ret at 1.
  destruct (user_info_unusable E
              {| proxies := proxies self; user := user self;
                 saved_token := saved_token self; access_token := Some saved;
                 header := Some [("Authorization", ("Bearer " ++ saved)%string)] |}
              saved eq_refl Hu) as (e & He).
  destruct (authenticate_after_failed_decode E fuel self saved w e He)
    as (entry & Hentry & ->).
  match goal with
  | |- context [AbstractPbiAPI.authenticate E fuel ?s ?w2] =>
      destruct (authenticate_fresh_tokens E k fuel s w2)
        as (self' & w' & Hrun & Hlogins & Hre)
  end; try reflexivity; try assumption; try lia.
  exists self', w'. split; [exact Hrun|]. cbn [logins] in Hlogins.
  rewrite Hre, (reauthentications_logged w entry Hentry). split; lia.
Qed.

Lemma authenticate_reauthenticates_per_failed_decode_witness :
  exists self' w',
    AbstractPbiAPI.authenticate env_two_stale 3 (client_with_saved_token "stale")
      fresh_world = (Return self', w')
    /\ reauthentications w' = 2
    /\ logins w' = 2.
Proof.
  apply (authenticate_reauthenticates_per_failed_decode env_two_stale 1 3
           (client_with_saved_token "stale") "stale" fresh_world).
  - reflexivity.
  - discriminate.
  - reflexivity.
  - intros i Hi. exists "fresh-but-bad". destruct i as [|i]; [|lia]. split; reflexivity.
  - exists "good". split; reflexivity.
  - lia.
Defined.

(** C2 as stated fails: a saved token and the first fresh token both fail to
    decode, the second fresh token decodes; [authenticate] returns after two
    re-authentications, and no run of it ends with at most one. *)
Lemma authenticate_reauthenticates_twice :
  (exists self' w',
     AbstractPbiAPI.authenticate env_two_stale 3 (client_with_saved_token "stale")
       fresh_world = (Return self', w')
     /\ reauthentications w' = 2)
  /\ ~ (exists fuel out w',
          AbstractPbiAPI.authenticate env_two_stale fuel
            (client_with_saved_token "stale") fresh_world = (out, w')
          /\ out <> OutOfFuel
          /\ reauthentications w' <= 1).
Proof.
  split.
  - do 2 eexists. split; [vm_compute; reflexivity|reflexivity].
  - intros (fuel & out & w' & Hrun & Hout & Hle).
    destruct fuel as [|[|[|fuel]]].
    + vm_compute in Hrun. inversion Hrun; subst. congruence.
    + vm_compute in Hrun. inversion Hrun; subst. congruence.
    + vm_compute in Hrun. inversion Hrun; subst. congruence.
    + vm_compute in Hrun. inversion Hrun; subst.
      vm_compute in Hle. lia.
Qed.

(** When no token decodes, [authenticate] does not end: every bound on the
    depth of calls is exhausted. *)
Lemma authenticate_never_ends : forall E,
  (forall n, exists t, get_token E n = Ok t /\ usable E t = false) ->
  forall fuel self w,
    (forall s, saved_token self = Some s -> usable E s = false) ->
    fst (AbstractPbiAPI.authenticate E fuel self w) = OutOfFuel.
Proof.
  intros E Hbad. induction fuel as [|fuel IH]; intros self w Hsaved; [reflexivity|].
  cbn [AbstractPbiAPI.authenticate]. unfold bind at 1.
  destruct (truthy_str (saved_token self)) eqn:Htruthy; cbn [negb].
  - assert (exists saved, saved_token self = Some saved) as [saved Hs].
    { destruct (saved_token self); [eauto|discriminate]. }
    replace (match saved_token self with Some t => t | None => "" end) with saved
      by (rewrite Hs; reflexivity).
    unfold ret at 1.
    destruct (user_info_unusable E
                {| proxies := proxies self; user := user self;
                   saved_token := saved_token self; access_token := Some saved;
                   header := Some [("Authorization", ("Bearer " ++ saved)%string)] |}
                saved eq_refl (Hsaved saved Hs)) as (e & He).
    destruct (authenticate_after_failed_decode E fuel self saved w e He)
      as (entry & _ & ->).
    apply IH. intros s Hd. discriminate.
  - unfold InteractiveBrowserCredential_get_token.
    destruct (Hbad (logins w)) as (t & Ht & Hu). rewrite Ht.
    destruct (user_info_unusable E
                {| proxies := proxies self; user := user self;
                   saved_token := saved_token self; access_token := Some t;
                   header := Some [("Authorization", ("Bearer " ++ t)%string)] |}
                t eq_refl Hu) as (e & He).
    destruct (authenticate_after_failed_decode E fuel self t
                {| http_calls := http_calls w; sleeps := sleeps w; log := log w;
                   logins := S (logins w); PbiAPI_instance := PbiAPI_instance w;
                   heap := heap w |} e He) as (entry & _ & ->).
    apply IH. intros s Hd. discriminate.
Qed.

Lemma authenticate_never_ends_sample : forall fuel,
  fst (AbstractPbiAPI.authenticate env_never_decodes fuel
         (client_with_saved_token "stale") fresh_world) = OutOfFuel.
Proof.
  intros fuel. apply authenticate_never_ends.
  - intros n. exists "bad". split; reflexivity.
  - intros s _. reflexivity.
Qed.

(** ** Values: equality and hash *)

Lemma PyVal_nested_ind : forall P : PyVal -> Prop,
  P PyNone ->
  (forall b, P (PyBool b)) ->
  (forall n, P (PyInt n)) ->
  (forall f, P (PyFloat f)) ->
  (forall s, P (PyStr s)) ->
  (forall l, Forall P l -> P (PyList l)) ->
  (forall l, Forall P l -> P (PyTuple l)) ->
  (forall d, Forall (fun kv => P (snd kv)) d -> P (PyDict d)) ->
  forall v, P v.
Proof.
  intros P HNone HBool HInt HFloat HStr HList HTuple HDict.
  fix IH 1. intros [ |b|n|f|s|l|l|d].
  - exact HNone.
  - apply HBool.
  - apply HInt.
  - apply HFloat.
  - apply HStr.
  - apply HList. induction l as [|x xs IHxs]; constructor; [apply IH|exact IHxs].
  - apply HTuple. induction l as [|x xs IHxs]; constructor; [apply IH|exact IHxs].
  - apply HDict. induction d as [|[k x] xs IHxs]; constructor; [apply IH|exact IHxs].
Qed.

(** *** Floats *)

Lemma PyFloat_eqb_eq : forall f g, PyFloat_eqb f g = true <-> f = g.
Proof.
  intros f g. unfold PyFloat_eqb. destruct (PyFloat_eq_dec f g); split; congruence.
Qed.

Lemma normalize_odd : forall m e m' e',
  normalize m e = (m', e') -> Z.odd (Z.pos m') = true.
Proof.
  induction m as [m IH|m IH| ]; intros e m' e' H; cbn [normalize] in H.
  - injection H as <- _. reflexivity.
  - apply (IH _ _ _ H).
  - injection H as <- _. reflexivity.
Qed.

(** An odd number times a power of two is written so in one way only. *)
Lemma odd_times_power_lt : forall m1 m2 e1 e2,
  Z.odd m1 = true -> (0 <= e1 < e2)%Z -> (m1 * 2 ^ e1 <> m2 * 2 ^ e2)%Z.
Proof.
  intros m1 m2 e1 e2 Hodd He Heq.
  replace e2 with (e1 + 1 + (e2 - e1 - 1))%Z in Heq by lia.
  rewrite !Z.pow_add_r in Heq by lia.
  change (2 ^ 1)%Z with 2%Z in Heq.
  assert (Hpos : (0 < 2 ^ e1)%Z) by (apply Z.pow_pos_nonneg; lia).
  assert (Hm : (m1 = m2 * (2 * 2 ^ (e2 - e1 - 1)))%Z).
  { apply (Z.mul_cancel_r _ _ (2 ^ e1)%Z); [lia|]. rewrite Heq. ring. }
  apply Z.odd_spec in Hodd as [k Hk].
  set (q := (m2 * 2 ^ (e2 - e1 - 1))%Z) in *.
  assert (m1 = 2 * q)%Z by (rewrite Hm; unfold q; ring). lia.
Qed.

Lemma odd_times_power_unique : forall m1 m2 e1 e2,
  Z.odd (Z.pos m1) = true -> Z.odd (Z.pos m2) = true ->
  (0 <= e1)%Z -> (0 <= e2)%Z ->
  (Z.pos m1 * 2 ^ e1 = Z.pos m2 * 2 ^ e2)%Z ->
  m1 = m2 /\ e1 = e2.
Proof.
  intros m1 m2 e1 e2 H1 H2 He1 He2 Heq.
  destruct (Z.lt_trichotomy e1 e2) as [Hlt|[->|Hgt]].
  - exfalso.
    apply (odd_times_power_lt (Z.pos m1) (Z.pos m2) e1 e2); [assumption|lia|assumption].
  - split; [|reflexivity].
    assert (Hpos : (0 < 2 ^ e2)%Z) by (apply Z.pow_pos_nonneg; lia).
    apply Z.mul_cancel_r in Heq; [|lia]. congruence.
  - exfalso.
    apply (odd_times_power_lt (Z.pos m2) (Z.pos m1) e2 e1);
      [assumption|lia|symmetry; assumption].
Qed.

Lemma canonical_zero : forall f negative,
  canonical f = F_zero negative -> negative = false.
Proof.
  intros [obj|s|s|s m e] negative H; cbn [canonical] in H; try discriminate.
  - congruence.
  - destruct (normalize m e). discriminate.
Qed.

Lemma canonical_finite_odd : forall f negative m e,
  canonical f = F_finite negative m e -> Z.odd (Z.pos m) = true.
Proof.
  intros [obj|s|s|s m0 e0] negative m e H; cbn [canonical] in H; try discriminate.
  destruct (normalize m0 e0) as [m' e'] eqn:Hn. injection H as _ <- _.
  apply (normalize_odd _ _ _ _ Hn).
Qed.

Lemma canonical_nan : forall f obj, canonical f = F_nan obj -> f = F_nan obj.
Proof.
  intros [o|s|s|s m e] obj H; cbn [canonical] in H; try discriminate.
  - exact H.
  - destruct (normalize m e). discriminate.
Qed.

Lemma float_eq_true : forall f g,
  float_eq f g = true <->
  canonical f = canonical g /\ (forall obj, f <> F_nan obj).
Proof.
  intros f g. split.
  - intros H. destruct f as [o|s|s|s m e], g as [o'|s'|s'|s' m' e']; cbn [float_eq] in H;
      try discriminate; apply PyFloat_eqb_eq in H; (split; [exact H|discriminate]).
  - intros [Hc Hn].
    assert (Hg : forall obj, g <> F_nan obj).
    { intros obj ->. cbn [canonical] in Hc. apply canonical_nan in Hc.
      apply (Hn obj Hc). }
    destruct f as [o|s|s|s m e]; [exfalso; apply (Hn o); reflexivity| | |];
      (destruct g as [o'|s'|s'|s' m' e']; [exfalso; apply (Hg o'); reflexivity| | |]);
      cbn [float_eq]; apply PyFloat_eqb_eq; exact Hc.
Qed.

(** Two floats that equal the same integer have the same value. *)
Lemma float_as_int_inj : forall f g n,
  float_as_int f = Some n -> float_as_int g = Some n -> canonical f = canonical g.
Proof.
  intros f g n Hf Hg. unfold float_as_int in Hf, Hg.
  destruct (canonical f) as [o|s|s|s m e] eqn:Hcf; try discriminate;
    destruct (canonical g) as [o'|s'|s'|s' m' e'] eqn:Hcg; try discriminate.
  - rewrite (canonical_zero _ _ Hcf), (canonical_zero _ _ Hcg). reflexivity.
  - exfalso. destruct (Z.leb_spec 0 e'); [|discriminate].
    assert ((0 < Z.pos m' * 2 ^ e')%Z)
      by (apply Z.mul_pos_pos; [lia|apply Z.pow_pos_nonneg; lia]).
    set (v' := (Z.pos m' * 2 ^ e')%Z) in *.
    destruct s'; injection Hf as <-; injection Hg as Hg; lia.
  - exfalso. destruct (Z.leb_spec 0 e); [|discriminate].
    assert ((0 < Z.pos m * 2 ^ e)%Z)
      by (apply Z.mul_pos_pos; [lia|apply Z.pow_pos_nonneg; lia]).
    set (v := (Z.pos m * 2 ^ e)%Z) in *.
    destruct s; injection Hg as <-; injection Hf as Hf; lia.
  - destruct (Z.leb_spec 0 e); [|discriminate].
    destruct (Z.leb_spec 0 e'); [|discriminate].
    assert (Hp : (0 < Z.pos m * 2 ^ e)%Z)
      by (apply Z.mul_pos_pos; [lia|apply Z.pow_pos_nonneg; lia]).
    assert (Hp' : (0 < Z.pos m' * 2 ^ e')%Z)
      by (apply Z.mul_pos_pos; [lia|apply Z.pow_pos_nonneg; lia]).
    pose proof (canonical_finite_odd _ _ _ _ Hcf) as Hodd.
    pose proof (canonical_finite_odd _ _ _ _ Hcg) as Hodd'.
    assert (Hv : (Z.pos m * 2 ^ e = Z.pos m' * 2 ^ e')%Z /\ s = s').
    { set (v := (Z.pos m * 2 ^ e)%Z) in *. set (v' := (Z.pos m' * 2 ^ e')%Z) in *.
      destruct s, s'; injection Hf as Hf; injection Hg as Hg;
        first [split; [lia|reflexivity] | exfalso; lia]. }
    destruct Hv as [Hv <-].
    destruct (odd_times_power_unique m m' e e' Hodd Hodd') as [-> ->];
      [assumption|assumption|exact Hv|reflexivity].
Qed.

Lemma float_as_int_nan : forall obj, float_as_int (F_nan obj) = None.
Proof. reflexivity. Qed.

(** *** Numbers *)

Lemma number_of_float : forall f,
  (forall obj, f <> F_nan obj) ->
  number_of (PyFloat f)
  = match float_as_int f with
    | Some n => Some (Integer n)
    | None => Some (Fraction (canonical f))
    end.
Proof.
  intros [o|s|s|s m e] H; try reflexivity. exfalso. apply (H o). reflexivity.
Qed.

Lemma number_of_integer : forall f n,
  number_of (PyFloat f) = Some (Integer n) <-> float_as_int f = Some n.
Proof.
  intros f n. destruct f as [o|s|s|s m e]; cbn [number_of];
    try (destruct (float_as_int _); split; congruence).
  rewrite float_as_int_nan. split; discriminate.
Qed.

Lemma number_of_fraction : forall f c,
  number_of (PyFloat f) = Some (Fraction c) ->
  canonical f = c /\ (forall obj, f <> F_nan obj).
Proof.
  intros f c H. destruct f as [o|s|s|s m e]; cbn [number_of] in H; try discriminate;
    (destruct (float_as_int _); [discriminate|]); injection H as <-;
    (split; [reflexivity|discriminate]).
Qed.

Lemma number_of_not_nan : forall f x,
  number_of (PyFloat f) = Some x -> forall obj, f <> F_nan obj.
Proof. intros f x H obj ->. discriminate. Qed.

Lemma int_eq_float_number : forall n f,
  int_eq_float n f = true <-> number_of (PyFloat f) = Some (Integer n).
Proof.
  intros n f. rewrite number_of_integer. unfold int_eq_float.
  destruct (float_as_int f) as [k|]; [|split; discriminate].
  rewrite Z.eqb_eq. split; congruence.
Qed.

Lemma float_eq_number : forall f g,
  float_eq f g = true <->
  exists x, number_of (PyFloat f) = Some x /\ number_of (PyFloat g) = Some x.
Proof.
  intros f g. rewrite float_eq_true. split.
  - intros [Hc Hn].
    assert (Hg : forall obj, g <> F_nan obj).
    { intros obj ->. cbn [canonical] in Hc. apply canonical_nan in Hc.
      apply (Hn obj Hc). }
    rewrite (number_of_float f Hn), (number_of_float g Hg).
    unfold float_as_int. rewrite Hc.
    match goal with |- exists x, ?t = Some x /\ _ => destruct t as [x|] eqn:Hx end.
    + exists x. split; reflexivity.
    + destruct (match canonical g with F_zero _ => _ | _ => _ end); discriminate.
  - intros (x & Hf & Hg). split; [|apply (number_of_not_nan f x Hf)].
    destruct x as [n|c].
    + apply number_of_integer in Hf, Hg. apply (float_as_int_inj f g n Hf Hg).
    + apply number_of_fraction in Hf as [Hf _]. apply number_of_fraction in Hg as [Hg _].
      congruence.
Qed.

(** On numbers, [==] holds exactly between those that stand for the same
    number. *)
Lemma py_eq_number : forall a b x,
  number_of a = Some x -> (py_eq a b = true <-> number_of b = Some x).
Proof.
  intros a b x Ha.
  destruct a as [ |p|m|f|s|l|l|d]; cbn [number_of] in Ha; try discriminate.
  - injection Ha as <-.
    destruct b as [ |q|n|g|t|l|l|d]; cbn [py_eq number_of];
      try (split; discriminate).
    + destruct p, q; cbn; split; congruence.
    + rewrite Z.eqb_eq. split; congruence.
    + apply int_eq_float_number.
  - injection Ha as <-.
    destruct b as [ |q|n|g|t|l|l|d]; cbn [py_eq number_of];
      try (split; discriminate).
    + rewrite Z.eqb_eq. split; congruence.
    + rewrite Z.eqb_eq. split; congruence.
    + apply int_eq_float_number.
  - change (number_of (PyFloat f) = Some x) in Ha.
    destruct b as [ |q|n|g|t|l|l|d]; cbn [py_eq];
      try (split; [discriminate|cbn [number_of]; discriminate]).
    + rewrite int_eq_float_number, Ha. cbn [number_of]. split; congruence.
    + rewrite int_eq_float_number, Ha. cbn [number_of]. split; congruence.
    + rewrite float_eq_number. split.
      * intros (y & Hf & Hg). congruence.
      * intros Hg. exists x. split; assumption.
Qed.

Lemma py_hash_number : forall E v x,
  number_of v = Some x -> py_hash E v = Ok (hash_number E x).
Proof.
  intros E v x H. destruct v as [ |p|m|f|s|l|l|d]; cbn [number_of] in H;
    try discriminate.
  - injection H as <-. reflexivity.
  - injection H as <-. reflexivity.
  - destruct f as [o|s|s|s m e]; [discriminate| | |]; cbn [py_hash];
      (destruct (float_as_int _); injection H as <-; reflexivity).
Qed.

(** *** Equality and hash of all values *)

Lemma py_eq_nan_left : forall obj b, py_eq (PyFloat (F_nan obj)) b = false.
Proof. intros obj [ |q|n|g|t|l|l|d]; reflexivity. Qed.

Lemma py_eq_nan_right : forall a obj, py_eq a (PyFloat (F_nan obj)) = false.
Proof.
  intros [ |p|m|f|s|l|l|d] obj; try reflexivity.
  cbn [py_eq]. destruct f; reflexivity.
Qed.

Lemma same_nan_true : forall x y,
  same_nan x y = true -> exists obj, x = PyFloat (F_nan obj) /\ y = PyFloat (F_nan obj).
Proof.
  intros [ | | |[i| | | ]| | | | ] [ | | |[j| | | ]| | | | ] H; try discriminate.
  apply Nat.eqb_eq in H. subst. eauto.
Qed.

Lemma same_nan_not_nan : forall x y, is_nan x = false -> same_nan x y = false.
Proof. intros [ | | |[i| | | ]| | | | ] y H; try reflexivity. discriminate. Qed.

Lemma py_eq_not_nan : forall a b,
  py_eq a b = true -> is_nan a = false /\ is_nan b = false.
Proof.
  intros a b H. split.
  - destruct a as [ | | |[i| | | ]| | | | ]; try reflexivity.
    rewrite py_eq_nan_left in H. discriminate.
  - destruct b as [ | | |[j| | | ]| | | | ]; try reflexivity.
    rewrite py_eq_nan_right in H. discriminate.
Qed.

Lemma lookup_distinct : forall (d : list (string * PyVal)) k v,
  keys_distinct (map fst d) = true -> In (k, v) d -> lookup k d = Some v.
Proof.
  induction d as [|[k0 v0] d IH]; intros k v Hd Hin; [contradiction|].
  cbn [map fst keys_distinct] in Hd. apply andb_true_iff in Hd as [Hfresh Hd].
  cbn [lookup]. destruct Hin as [Heq|Hin].
  - inversion Heq; subst. rewrite String.eqb_refl. reflexivity.
  - destruct (String.eqb_spec k0 k) as [->|Hne]; [|apply IH; assumption].
    exfalso. apply negb_true_iff in Hfresh.
    assert (Hex : existsb (String.eqb k) (map fst d) = true).
    { apply existsb_exists. exists k. split; [|apply String.eqb_refl].
      change k with (fst (k, v)). apply in_map. exact Hin. }
    congruence.
Qed.

(** [v is v or v == v] for every value whose dicts have distinct keys. *)
Lemma same_or_eq_refl : forall v,
  well_formed v = true -> same_nan v v || py_eq v v = true.
Proof.
  induction v as [ |b|n|f|s|l IHl|l IHl|d IHd] using PyVal_nested_ind; intros Hwf.
  - reflexivity.
  - destruct b; reflexivity.
  - cbn. apply Z.eqb_refl.
  - destruct (number_of (PyFloat f)) as [x|] eqn:Hx.
    + apply orb_true_iff. right. apply (py_eq_number _ _ x Hx). exact Hx.
    + destruct f as [o|? |? |? ? ?]; cbn [number_of] in Hx;
        try (destruct (float_as_int _); discriminate).
      cbn. rewrite Nat.eqb_refl. reflexivity.
  - cbn. apply String.eqb_refl.
  - cbn [same_nan py_eq orb]. cbn [well_formed] in Hwf.
    induction IHl as [|x xs Hx _ IHxs]; [reflexivity|].
    cbn [forallb] in Hwf. apply andb_true_iff in Hwf as [Hwx Hwxs].
    rewrite (Hx Hwx). cbn [andb]. apply IHxs. exact Hwxs.
  - cbn [same_nan py_eq orb]. cbn [well_formed] in Hwf.
    induction IHl as [|x xs Hx _ IHxs]; [reflexivity|].
    cbn [forallb] in Hwf. apply andb_true_iff in Hwf as [Hwx Hwxs].
    rewrite (Hx Hwx). cbn [andb]. apply IHxs. exact Hwxs.
  - cbn [same_nan py_eq orb]. cbn [well_formed] in Hwf.
    apply andb_true_iff in Hwf as [Hkeys Hvals].
    rewrite Nat.eqb_refl. cbn [andb].
    match goal with
    | |- ?items_eq d = true =>
        assert (Hgen : forall items,
                   (forall kv, In kv items -> In kv d) ->
                   forallb (fun kv => well_formed (snd kv)) items = true ->
                   Forall (fun kv => well_formed (snd kv) = true ->
                                     same_nan (snd kv) (snd kv)
                                     || py_eq (snd kv) (snd kv) = true) items ->
                   items_eq items = true)
    end.
    { induction items as [|[k v] items IH]; intros Hsub Hwvs HP; [reflexivity|].
      cbn [forallb snd] in Hwvs. apply andb_true_iff in Hwvs as [Hwv Hwvs].
      inversion HP as [|? ? Hv Hrest]; subst. cbn [snd] in Hv.
      rewrite (lookup_distinct d k v Hkeys (Hsub (k, v) (or_introl eq_refl))).
      rewrite (Hv Hwv). cbn [andb].
      apply IH; auto. intros kv Hin. apply Hsub. right. exact Hin. }
    apply Hgen; auto.
Qed.

(** [v == v] for every such value but a NaN. *)
Lemma py_eq_refl : forall v,
  well_formed v = true -> is_nan v = false -> py_eq v v = true.
Proof.
  intros v Hwf Hnan. pose proof (same_or_eq_refl v Hwf) as H.
  rewrite (same_nan_not_nan v v Hnan) in H. exact H.
Qed.

(** Two items a container takes for the same hash alike. *)
Lemma same_or_eq_hash : forall E x y,
  (py_eq x y = true -> py_hash E x = py_hash E y) ->
  same_nan x y || py_eq x y = true -> py_hash E x = py_hash E y.
Proof.
  intros E x y IH H. apply orb_true_iff in H as [H|H]; [|exact (IH H)].
  apply same_nan_true in H as (obj & -> & ->). reflexivity.
Qed.

(** Values that compare equal hash alike (or are both unhashable). *)
Lemma py_eq_hash : forall E a b, py_eq a b = true -> py_hash E a = py_hash E b.
Proof.
  intros E a.
  induction a as [ |x|m|f|s|l IHl|l IHl|d IHd] using PyVal_nested_ind;
    intros b H.
  - destruct b; try discriminate. reflexivity.
  - rewrite (py_eq_number (PyBool x) b _ eq_refl) in H.
    rewrite (py_hash_number E b _ H). reflexivity.
  - rewrite (py_eq_number (PyInt m) b _ eq_refl) in H.
    rewrite (py_hash_number E b _ H). reflexivity.
  - destruct (number_of (PyFloat f)) as [x|] eqn:Hx.
    + rewrite (py_hash_number E _ _ Hx).
      rewrite (py_eq_number _ b _ Hx) in H.
      rewrite (py_hash_number E b _ H). reflexivity.
    + destruct f as [o|? |? |? ? ?]; cbn [number_of] in Hx;
        try (destruct (float_as_int _); discriminate).
      rewrite py_eq_nan_left in H. discriminate.
  - destruct b; try discriminate. cbn [py_eq] in H.
    apply String.eqb_eq in H. subst. reflexivity.
  - destruct b; try discriminate. reflexivity.
  - destruct b as [ | | | | |l2|l2|d2]; try discriminate. cbn [py_eq] in H.
    cbn [py_hash].
    match goal with
    | |- match ?f l with _ => _ end = match ?g l2 with _ => _ end =>
        assert (Hhs : f l = g l2)
    end.
    { revert l2 H. induction IHl as [|x xs Hx _ IHxs]; intros [|y ys] H;
        try discriminate; [reflexivity|].
      apply andb_true_iff in H as [Hxy Hrest].
      rewrite (same_or_eq_hash E x y (Hx y) Hxy). rewrite (IHxs ys Hrest).
      reflexivity. }
    rewrite Hhs. reflexivity.
  - destruct b; try discriminate. reflexivity.
Qed.

Lemma tuple_items_hashable : forall E l h,
  py_hash E (PyTuple l) = Ok h ->
  Forall (fun x => exists hx, py_hash E x = Ok hx) l.
Proof.
  intros E l h H. cbn [py_hash] in H.
  match type of H with
  | match ?f l with _ => _ end = _ => destruct (f l) as [hs|e] eqn:Hhs
  end; [|discriminate]. clear H.
  revert hs Hhs. induction l as [|x xs IH]; intros hs Hhs; [constructor|].
  destruct (py_hash E x) as [hx|] eqn:Hhx; [|discriminate].
  match type of Hhs with
  | match ?f xs with _ => _ end = _ => destruct (f xs) as [hs'|e] eqn:Hhs'
  end; [|discriminate].
  constructor; [eauto|]. apply (IH hs'). reflexivity.
Qed.

(** A value that can be hashed holds no dict, so it is well formed. *)
Lemma hashable_well_formed : forall E v h, py_hash E v = Ok h -> well_formed v = true.
Proof.
  intros E v.
  induction v as [ |b|n|f|s|l IHl|l IHl|d IHd] using PyVal_nested_ind; intros h H;
    try reflexivity; try (cbn [py_hash] in H; discriminate).
  pose proof (tuple_items_hashable E l h H) as Hitems. clear H.
  cbn [well_formed]. induction IHl as [|x xs Hx _ IHxs]; [reflexivity|].
  inversion Hitems as [|? ? [hx Hhx] Hrest]; subst.
  cbn [forallb]. rewrite (Hx hx Hhx). apply IHxs. exact Hrest.
Qed.

Lemma py_hash_refl : forall E v h,
  py_hash E v = Ok h -> is_nan v = false -> py_eq v v = true.
Proof.
  intros E v h H Hnan. apply py_eq_refl; [|exact Hnan].
  apply (hashable_well_formed E v h H).
Qed.

Lemma same_nan_sym : forall x y, same_nan x y = same_nan y x.
Proof.
  intros [ | | |[i| | | ]| | | | ] [ | | |[j| | | ]| | | | ]; try reflexivity.
  cbn. apply Nat.eqb_sym.
Qed.

Lemma py_eq_sym_hashable : forall E a h,
  py_hash E a = Ok h -> forall b, py_eq a b = true -> py_eq b a = true.
Proof.
  intros E a.
  induction a as [ |x|m|f|s|l IHl|l IHl|d IHd] using PyVal_nested_ind; intros h Hh b H;
    try (cbn [py_hash] in Hh; discriminate).
  - destruct b; try discriminate. reflexivity.
  - pose proof H as H'. rewrite (py_eq_number (PyBool x) b _ eq_refl) in H'.
    apply (py_eq_number b _ _ H'). reflexivity.
  - pose proof H as H'. rewrite (py_eq_number (PyInt m) b _ eq_refl) in H'.
    apply (py_eq_number b _ _ H'). reflexivity.
  - destruct (number_of (PyFloat f)) as [x|] eqn:Hx.
    + pose proof H as H'. rewrite (py_eq_number _ b _ Hx) in H'.
      apply (py_eq_number b _ _ H'). exact Hx.
    + destruct f as [o|? |? |? ? ?]; cbn [number_of] in Hx;
        try (destruct (float_as_int _); discriminate).
      rewrite py_eq_nan_left in H. discriminate.
  - destruct b; try discriminate. cbn [py_eq] in H |- *.
    rewrite String.eqb_sym. exact H.
  - destruct b as [ | | | | |l2|l2|d2]; try discriminate. cbn [py_eq] in H |- *.
    pose proof (tuple_items_hashable E l h Hh) as Hitems. clear Hh.
    revert l2 H. induction IHl as [|x xs Hx _ IHxs]; intros [|y ys] H;
      try discriminate; [reflexivity|].
    inversion Hitems as [|? ? [hx Hhx] Hrest]; subst.
    apply andb_true_iff in H as [Hxy Hxs].
    apply andb_true_iff. split; [|apply IHxs; assumption].
    apply orb_true_iff in Hxy as [Hxy|Hxy]; apply orb_true_iff.
    + left. rewrite same_nan_sym. exact Hxy.
    + right. apply (Hx hx Hhx y Hxy).
Qed.

Lemma py_eq_trans_hashable : forall E a h,
  py_hash E a = Ok h ->
  forall b c, py_eq a b = true -> py_eq b c = true -> py_eq a c = true.
Proof.
  intros E a.
  induction a as [ |x|m|f|s|l IHl|l IHl|d IHd] using PyVal_nested_ind;
    intros h Hh b c H1 H2;
    try (cbn [py_hash] in Hh; discriminate).
  - destruct b; try discriminate. exact H2.
  - rewrite (py_eq_number (PyBool x) b _ eq_refl) in H1.
    rewrite (py_eq_number _ c _ H1) in H2.
    apply (py_eq_number (PyBool x) c _ eq_refl). exact H2.
  - rewrite (py_eq_number (PyInt m) b _ eq_refl) in H1.
    rewrite (py_eq_number _ c _ H1) in H2.
    apply (py_eq_number (PyInt m) c _ eq_refl). exact H2.
  - destruct (number_of (PyFloat f)) as [x|] eqn:Hx.
    + rewrite (py_eq_number _ b _ Hx) in H1. rewrite (py_eq_number _ c _ H1) in H2.
      apply (py_eq_number _ c _ Hx). exact H2.
    + destruct f as [o|? |? |? ? ?]; cbn [number_of] in Hx;
        try (destruct (float_as_int _); discriminate).
      rewrite py_eq_nan_left in H1. discriminate.
  - destruct b; try discriminate. cbn [py_eq] in H1.
    apply String.eqb_eq in H1. subst. exact H2.
  - destruct b as [ | | | | |l2|l2|d2]; try discriminate.
    destruct c as [ | | | | |l3|l3|d3]; try discriminate.
    cbn [py_eq] in H1, H2 |- *.
    pose proof (tuple_items_hashable E l h Hh) as Hitems. clear Hh.
    revert l2 l3 H1 H2.
    induction IHl as [|x xs Hx _ IHxs]; intros [|y ys] [|z zs] H1 H2;
      try discriminate; [reflexivity|].
    inversion Hitems as [|? ? [hx Hhx] Hrest]; subst.
    apply andb_true_iff in H1 as [Hxy Hxs]. apply andb_true_iff in H2 as [Hyz Hys].
    apply andb_true_iff. split; [|apply (IHxs Hrest ys zs); assumption].
    apply orb_true_iff in Hxy as [Hxy|Hxy].
    + apply same_nan_true in Hxy as (obj & -> & ->).
      rewrite py_eq_nan_left, orb_false_r in Hyz. rewrite Hyz. reflexivity.
    + destruct (py_eq_not_nan x y Hxy) as [_ Hy].
      rewrite (same_nan_not_nan y z Hy) in Hyz. cbn [orb] in Hyz.
      rewrite (Hx hx Hhx y z Hxy Hyz). apply orb_true_r.
Qed.

(** ** Entities: equality and hash *)




Lemma Report_eq_keys_match : forall a b,
  Report.__eq__ a (ObjReport b) = keys_match (Report_identity a) (Report_identity b).
Proof. intros a b. cbn. rewrite andb_true_r. reflexivity. Qed.

Lemma Report_eq_key : forall a b,
  Report.__eq__ a (ObjReport b) = true -> py_eq (Report_key a) (Report_key b) = true.
Proof.
  intros a b H. unfold Report.__eq__ in H. apply andb_true_iff in H as [Hd Hi].
  unfold Report_key. cbn [py_eq]. rewrite Hd, Hi, !orb_true_r. reflexivity.
Qed.

(** C9: the hash of an entity is a function of its identity key alone, so it
    is the same at every call; and two entities of one kind that are equal
    have the same hash. *)
Theorem equal_entities_hash_alike : forall E,
  (forall a b : Workspace_t,
     Workspace.__eq__ a (ObjWorkspace b) = true ->
     Workspace.__hash__ E a = Workspace.__hash__ E b)
  /\ (forall a b : Report_t,
        Report.__eq__ a (ObjReport b) = true ->
        Report.__hash__ E a = Report.__hash__ E b)
  /\ (forall a b : User_t,
        User.__eq__ a (ObjUser b) = true ->
        User.__hash__ E a = User.__hash__ E b)
  /\ (forall a b : SemanticModel_t,
        SemanticModel.__eq__ a (ObjSemanticModel b) = true ->
        SemanticModel.__hash__ E a = SemanticModel.__hash__ E b)
  /\ (forall a b : App_t,
        App.__eq__ a (ObjApp b) = true ->
        App.__hash__ E a = App.__hash__ E b)
  /\ (forall a : Workspace_t, Workspace.__hash__ E a = py_hash E (Workspace_key a))
  /\ (forall a : Report_t, Report.__hash__ E a = py_hash E (Report_key a))
  /\ (forall a : User_t, User.__hash__ E a = py_hash E (User_key a))
  /\ (forall a : SemanticModel_t,
        SemanticModel.__hash__ E a = py_hash E (SemanticModel_key a))
  /\ (forall a : App_t, App.__hash__ E a = py_hash E (App_key a)).
Proof.
  intros E. repeat match goal with |- _ /\ _ => split end;
    try (intros a; reflexivity).
  - intros a b H. apply py_eq_hash. exact H.
  - intros a b H. unfold Report.__hash__. apply py_eq_hash.
    apply (Report_eq_key a b H).
  - intros a b H. apply py_eq_hash. exact H.
  - intros a b H. apply py_eq_hash. exact H.
  - intros a b H. apply py_eq_hash. exact H.
Qed.

Lemma equal_entities_hash_alike_witness :
  Workspace.__hash__ env_200 workspace_before = Workspace.__hash__ env_200 workspace_after
  /\ Report.__hash__ env_200 report_before = Report.__hash__ env_200 report_after
  /\ User.__hash__ env_200 user_before = User.__hash__ env_200 user_after
  /\ SemanticModel.__hash__ env_200 model_before
     = SemanticModel.__hash__ env_200 model_after
  /\ App.__hash__ env_200 app_before = App.__hash__ env_200 app_after.
Proof.
  destruct (equal_entities_hash_alike env_200)
    as (Hworkspace & Hreport & Huser & Hmodel & Happ & _).
  split; [apply Hworkspace; reflexivity|].
  split; [apply Hreport; reflexivity|].
  split; [apply Huser; reflexivity|].
  split; [apply Hmodel; reflexivity|].
  apply Happ; reflexivity.
Defined.

(** ** Fetching child collections *)

(** A fetch whose GET brought a body that is not a mapping. *)
Ltac fetch_no_mapping H :=
  let response := fresh "response" in
  let data := fresh "data" in
  let w1 := fresh "w1" in
  let Hf := fresh "Hf" in
  let Hd := fresh "Hd" in
  destruct H as (response & data & w1 & Hf & Hd);
  unfold type_error_unchanged, bind, get_self, in_world, set_self, raise, logger;
  cbn [fst snd]; cbv zeta in Hf |- *;
  rewrite Hf; cbn [fst snd];
  destruct data; cbn in Hd; try contradiction;
  (split; [eexists; split; reflexivity | reflexivity]).

(** C6: when the body of the answer to its GET is not a mapping, a fetch of
    a child collection raises a [TypeError] and leaves the object, and so
    the collection it would have assigned, as it was.  What the server
    answers at other endpoints plays no part. *)
Theorem fetch_of_non_mapping_fails_unchanged :
  forall E fuel top skip filter workspace_id,
    (forall (self : Workspace_t) w,
       (answered_no_mapping E (Workspace_api self) (reports_url E self) w ->
        type_error_unchanged self (Workspace.get_reports E fuel (self, w)))
       /\ (answered_no_mapping E (Workspace_api self) (semantic_models_url E self) w ->
           type_error_unchanged self (Workspace.get_semantic_models E (self, w)))
       /\ (answered_no_mapping E (Workspace_api self) (users_url E self top skip) w ->
           type_error_unchanged self (Workspace.get_users E top skip (self, w)))
       /\ (answered_no_mapping E (Workspace_api self) (dashboards_url E self) w ->
           type_error_unchanged self (Workspace.get_dashboards E (self, w))))
    /\ (forall (self : Service_t) w,
          (answered_no_mapping E (Service_api self) (workspaces_url filter top skip) w ->
           type_error_unchanged self
             (Service.get_workspaces E fuel filter top skip (self, w)))
          /\ (answered_no_mapping E (Service_api self) apps_url w ->
              type_error_unchanged self (Service.get_apps E (self, w)))
          /\ (answered_no_mapping E (Service_api self) (workspace_url workspace_id) w ->
              type_error_unchanged self
                (Service.get_workspace E fuel workspace_id (self, w)))).
Proof.
  intros E fuel top skip filter workspace_id. split.
  - intros self w. split; [|split; [|split]]; intros H.
    + unfold Workspace.get_reports, reports_url in *. fetch_no_mapping H.
    + unfold Workspace.get_semantic_models, semantic_models_url in *. fetch_no_mapping H.
    + unfold Workspace.get_users, users_url in *. fetch_no_mapping H.
    + unfold Workspace.get_dashboards, dashboards_url in *. fetch_no_mapping H.
  - intros self w. split; [|split]; intros H.
    + unfold Service.get_workspaces, workspaces_url in *. fetch_no_mapping H.
    + unfold Service.get_apps, apps_url in *. fetch_no_mapping H.
    + unfold Service.get_workspace, workspace_url in *. fetch_no_mapping H.
Qed.

Lemma fetch_of_non_mapping_fails_unchanged_witness :
  let E := env_array_at "https://api.powerbi.com/v1.0/myorg/groups/w1/reports" in
  let self := sample_workspace E in
  let w := snd (started E) in
  type_error_unchanged self (Workspace.get_reports E 2 (self, w))
  /\ (exists self', fst (Workspace.get_users E None None (self, w)) = Return tt
                    /\ fst (snd (Workspace.get_users E None None (self, w))) = self').
Proof.
  intros E self w. split.
  - apply (proj1 (proj1 (fetch_of_non_mapping_fails_unchanged E 2 None None None "w1")
                    self w)).
    do 3 eexists. split; [vm_compute; reflexivity|exact I].
  - eexists. split; vm_compute; reflexivity.
Defined.

(** ** Sets of entities *)

Lemma existsb_eq_in : forall (A : Type) (f g : A -> bool) l,
  (forall y, In y l -> f y = g y) -> existsb f l = existsb g l.
Proof.
  intros A f g l H. induction l as [|y l IH]; [reflexivity|].
  cbn [existsb]. rewrite (H y (or_introl eq_refl)), IH; [reflexivity|].
  intros z Hz. apply H. right. exact Hz.
Qed.

Lemma collected_keeps : forall (A : Type) (eq : A -> A -> bool) xs acc y,
  In y acc -> In y (collected eq xs acc).
Proof.
  intros A eq. induction xs as [|x xs IH]; intros acc y Hy; [exact Hy|].
  cbn [collected]. apply IH. destruct (existsb _ acc); [exact Hy|].
  apply in_or_app. left. exact Hy.
Qed.

Lemma collected_from : forall (A : Type) (eq : A -> A -> bool) xs acc y,
  In y (collected eq xs acc) -> In y acc \/ In y xs.
Proof.
  intros A eq. induction xs as [|x xs IH]; intros acc y Hy; [left; exact Hy|].
  cbn [collected] in Hy. apply IH in Hy as [Hy|Hy]; [|right; right; exact Hy].
  destruct (existsb _ acc); [left; exact Hy|].
  apply in_app_or in Hy as [Hy|[<-|[]]]; [left; exact Hy|right; left; reflexivity].
Qed.

Lemma collected_covers : forall (A : Type) (eq : A -> A -> bool) xs acc x,
  In x xs ->
  In x (collected eq xs acc)
  \/ exists y, In y (collected eq xs acc) /\ eq y x = true.
Proof.
  intros A eq. induction xs as [|x0 xs IH]; intros acc x Hx; [contradiction|].
  cbn [collected]. destruct Hx as [->|Hx]; [|apply IH; exact Hx].
  destruct (existsb (fun y => eq y x) acc) eqn:Hex.
  - right. apply existsb_exists in Hex as (y & Hy & Hyx).
    exists y. split; [apply collected_keeps; exact Hy|exact Hyx].
  - left. apply collected_keeps. apply in_or_app. right. left. reflexivity.
Qed.

Lemma collected_app : forall (A : Type) (eq : A -> A -> bool) pre post acc,
  collected eq (pre ++ post) acc = collected eq post (collected eq pre acc).
Proof.
  intros A eq. induction pre as [|x pre IH]; intros post acc; [reflexivity|].
  cbn [collected app]. apply IH.
Qed.

(** Of entities that are equal the first stays. *)
Lemma collected_first_stays : forall (A : Type) (eq : A -> A -> bool) pre x post,
  existsb (fun y => eq y x) pre = false ->
  In x (collected eq (pre ++ x :: post) []).
Proof.
  intros A eq pre x post Hpre. rewrite collected_app. cbn [collected].
  apply collected_keeps.
  destruct (existsb (fun y => eq y x) (collected eq pre [])) eqn:Hex.
  - exfalso. apply existsb_exists in Hex as (y & Hy & Hyx).
    apply collected_from in Hy as [[]|Hy].
    assert (existsb (fun y => eq y x) pre = true)
      by (apply existsb_exists; eauto).
    congruence.
  - apply in_or_app. right. left. reflexivity.
Qed.

Section SetOfEntities.
Context {A : Type} (new : PyVal -> M World A)
        (hash : A -> result Z) (eq : A -> A -> bool).
Context (Heq_hash : forall x y, eq y x = true -> hash y = hash x).

Lemma set_add_collects : forall x s s',
  Forall (fun y => exists h, hash y = Ok h) s ->
  set_add hash eq x s = Ok s' ->
  s' = (if existsb (fun y => eq y x) s then s else s ++ [x])%list
  /\ (exists h, hash x = Ok h)
  /\ Forall (fun y => exists h, hash y = Ok h) s'.
Proof.
  intros x s s' Hs H. unfold set_add in H.
  destruct (hash x) as [h|] eqn:Hx; [|discriminate].
  assert (Hsame : existsb (fun y => match hash y with
                                    | Ok h' => Z.eqb h' h && eq y x
                                    | Err _ => false
                                    end) s
                  = existsb (fun y => eq y x) s).
  { apply existsb_eq_in. intros y Hy.
    destruct (eq y x) eqn:Hyx.
    - rewrite (Heq_hash x y Hyx), Hx, Z.eqb_refl. reflexivity.
    - destruct (hash y); [apply andb_false_r|reflexivity]. }
  rewrite Hsame in H.
  destruct (existsb (fun y => eq y x) s); injection H as <-.
  - split; [reflexivity|]. split; [eauto|exact Hs].
  - split; [reflexivity|]. split; [eauto|].
    apply Forall_app. split; [exact Hs|]. constructor; [eauto|constructor].
Qed.

(** What a set comprehension returns is the list of the entities it built,
    in the order of the items, collected from [acc]. *)
Lemma set_comprehension_collects : forall items acc w s w',
  Forall (fun y => exists h, hash y = Ok h) acc ->
  set_comprehension new hash eq items acc w = (Return s, w') ->
  exists xs,
    Forall2 (fun item x => exists w0 w1, new item w0 = (Return x, w1)) items xs
    /\ Forall (fun y => exists h, hash y = Ok h) xs
    /\ s = collected eq xs acc.
Proof.
  induction items as [|item items IH]; intros acc w s w' Hacc H.
  - injection H as <- _. exists []. repeat split; constructor.
  - cbn [set_comprehension] in H. unfold bind at 1 in H.
    destruct (new item w) as [[x| | |] w1] eqn:Hx; try discriminate.
    unfold bind at 1 in H.
    destruct (set_add hash eq x acc) as [acc'|e] eqn:Hadd; cbn [lift] in H;
      [|discriminate].
    unfold ret at 1 in H.
    destruct (set_add_collects x acc acc' Hacc Hadd) as (-> & Hhx & Hacc').
    destruct (IH _ w1 s w' Hacc' H) as (xs & Hbuilt & Hhash & ->).
    exists (x :: xs). split; [|split].
    + constructor; [eauto|exact Hbuilt].
    + constructor; assumption.
    + reflexivity.
Qed.
End SetOfEntities.

(** What [Report(parent, **item)] returns is a snapshot of its item. *)
Lemma Report_new_snapshot : forall E fuel parent item w r w',
  Report.new E fuel parent item w = (Return r, w') ->
  snapshot_of Report_original_data Report_identity ["datasetId"; "id"] item r.
Proof.
  intros E fuel parent item w r w' H.
  unfold Report.new, Report.__init__, bind in H.
  destruct item as [ | | | | | | |d]; try discriminate.
  cbn [unpack_kwargs] in H.
  destruct (existsb _ _); cbn [lift] in H; [discriminate|].
  unfold ret at 1 in H.
  destruct (PbiAPI.shared E fuel None None w) as [[api| | |] w1]; try discriminate.
  inversion H; subst. split; reflexivity.
Qed.

Lemma Report_eq_hash : forall E x y,
  Report.__eq__ y (ObjReport x) = true -> Report.__hash__ E y = Report.__hash__ E x.
Proof.
  intros E x y H. unfold Report.__hash__. apply py_eq_hash.
  apply (Report_eq_key y x H).
Qed.

(** A successful [get_reports] assigns the set built, from the empty set,
    out of the items of the answer it fetched. *)
Lemma get_reports_assigns : forall E fuel self w self' w',
  Workspace.get_reports E fuel (self, w) = (Return tt, (self', w')) ->
  exists response data items w1,
    fetch_json E (Workspace_api self) (reports_url E self) w
    = (Return (response, PyDict data), w1)
    /\ py_iter (value_of data) = Ok items
    /\ set_comprehension
         (Report.new E fuel (OwnerWorkspace (Workspace_id self)))
         (Report.__hash__ E) (fun a b => Report.__eq__ a (ObjReport b))
         items [] w1 = (Return (reports self'), w')
    /\ self' = Workspace.with_reports self (reports self').
Proof.
  intros E fuel self w self' w' H.
  unfold Workspace.get_reports, bind, get_self, in_world, set_self, raise in H.
  cbn [fst snd] in H. fold (reports_url E self) in H.
  destruct (fetch_json E (Workspace_api self) (reports_url E self) w)
    as [[[response data]| | |] w1] eqn:Hfetch; try discriminate.
  cbn [fst snd] in H.
  destruct data as [ | | | | | | |data]; try discriminate.
  destruct (py_iter (value_of data)) as [items|e] eqn:Hiter; cbn [lift] in H;
    [|discriminate].
  unfold ret in H. cbn [fst snd] in H.
  destruct (set_comprehension
              (Report.new E fuel (OwnerWorkspace (Workspace_id self)))
              (Report.__hash__ E) (fun a b => Report.__eq__ a (ObjReport b))
              items [] w1) as [[s| | |] w2] eqn:Hset;
    try discriminate.
  cbn [fst snd] in H. injection H as <- <-.
  exists response, data, items, w1.
  split; [reflexivity|]. split; [assumption|]. split; [exact Hset|reflexivity].
Qed.

Lemma set_contains_true : forall (A : Type) hash eq (x : A) s,
  set_contains hash eq x s = Ok true ->
  exists y, In y s /\ eq y x = true.
Proof.
  intros A hash eq x s H. unfold set_contains in H.
  destruct (hash x); [|discriminate]. injection H as Hex.
  apply existsb_exists in Hex as (y & Hin & Hy).
  destruct (hash y); [|discriminate].
  apply andb_true_iff in Hy as [_ Hy]. eauto.
Qed.

(** C7: [get_reports] replaces the reports of the workspace with the set
    built from the answer it has just fetched.  Whatever reports the
    workspace held before, the set it holds afterwards is the same: the
    reports built from the items of that answer, taken in order, each one
    unless an equal one came before it.  So every item of the latest answer
    has its report in the set, every report in the set was built from one of
    these items, and a report whose identity key matches no item of the
    latest answer is not in the set. *)
Theorem get_reports_replaces :
  forall E fuel self w self' w',
    Workspace.get_reports E fuel (self, w) = (Return tt, (self', w')) ->
    exists response data items w1 xs,
      fetch_json E (Workspace_api self) (reports_url E self) w
      = (Return (response, PyDict data), w1)
      /\ py_iter (value_of data) = Ok items
      /\ Forall2 (snapshot_of Report_original_data Report_identity ["datasetId"; "id"])
           items xs
      /\ reports self' = collected (fun a b => Report.__eq__ a (ObjReport b)) xs []
      /\ (forall prior,
            Workspace.get_reports E fuel (Workspace.with_reports self prior, w)
            = (Return tt, (self', w')))
      /\ (forall x, In x xs ->
            In x (reports self')
            \/ exists r, In r (reports self') /\ Report.__eq__ r (ObjReport x) = true)
      /\ (forall r, In r (reports self') -> In r xs)
      /\ (forall x,
            (forall kwargs, In (PyDict kwargs) items ->
               keys_match (item_identity ["datasetId"; "id"] kwargs) (Report_identity x)
               = false) ->
            report_in E x (reports self') <> Ok true).
Proof.
  intros E fuel self w self' w' H.
  destruct (get_reports_assigns E fuel self w self' w' H)
    as (response & data & items & w1 & Hfetch & Hiter & Hset & Hself).
  destruct (set_comprehension_collects
              (Report.new E fuel (OwnerWorkspace (Workspace_id self)))
              (Report.__hash__ E) (fun a b => Report.__eq__ a (ObjReport b))
              (Report_eq_hash E) items [] w1 (reports self') w'
              (Forall_nil _) Hset) as (xs & Hbuilt & _ & Hcollected).
  assert (Hsnap : Forall2 (snapshot_of Report_original_data Report_identity
                             ["datasetId"; "id"]) items xs).
  { clear - Hbuilt. induction Hbuilt as [|item x items xs (w0 & w1 & Hnew) _ IH];
      constructor; [|exact IH].
    apply (Report_new_snapshot _ _ _ _ _ _ _ Hnew). }
  assert (Hfrom : forall r, In r (reports self') -> In r xs).
  { intros r Hr. rewrite Hcollected in Hr.
    apply collected_from in Hr as [[]|Hr]. exact Hr. }
  exists response, data, items, w1, xs.
  split; [exact Hfetch|]. split; [exact Hiter|]. split; [exact Hsnap|].
  split; [exact Hcollected|]. split; [|split; [|split]].
  - intros prior.
    unfold Workspace.get_reports, bind, get_self, in_world, set_self, raise.
    cbn [fst snd Workspace.with_reports Workspace_id Workspace_api].
    fold (reports_url E self). rewrite Hfetch. cbn [fst snd].
    rewrite Hiter. cbn [lift]. unfold ret at 1. rewrite Hset. cbn [fst snd].
    rewrite Hself at 2. reflexivity.
  - intros x Hx. rewrite Hcollected. apply collected_covers. exact Hx.
  - exact Hfrom.
  - intros x Hx Hcontains. unfold report_in in Hcontains.
    apply set_contains_true in Hcontains as (r & Hr & Heq).
    apply Hfrom in Hr.
    assert (Hitem : exists item, In item items
                      /\ snapshot_of Report_original_data Report_identity
                           ["datasetId"; "id"] item r).
    { clear - Hsnap Hr. induction Hsnap as [|item y items xs Hy _ IH]; [contradiction|].
      destruct Hr as [->|Hr]; [exists item; split; [left; reflexivity|exact Hy]|].
      destruct (IH Hr) as (item' & Hin & Hs). exists item'. split; [right|]; assumption. }
    destruct Hitem as (item & Hin & -> & Hkey).
    specialize (Hx _ Hin). rewrite <- Hkey in Hx.
    rewrite Report_eq_keys_match in Heq. congruence.
Qed.

Lemma get_reports_replaces_witness :
  let E := env_two_fetches in
  exists self1 w1 self2 w2,
    Workspace.get_reports E 2 (sample_workspace E, snd (started E))
    = (Return tt, (self1, w1))
    /\ Workspace.get_reports E 2 (self1, w1) = (Return tt, (self2, w2))
    /\ report_in E report_before (reports self1) = Ok true
    /\ report_in E report_before (reports self2) <> Ok true
    /\ List.length (reports self2) = 1.
Proof.
  intros E.
  destruct (Workspace.get_reports E 2 (sample_workspace E, snd (started E)))
    as [out1 [self1 w1]] eqn:H1.
  destruct (Workspace.get_reports E 2 (self1, w1)) as [out2 [self2 w2]] eqn:H2.
  assert (Hout1 : out1 = Return tt) by (vm_compute in H1; congruence).
  assert (Hout2 : out2 = Return tt).
  { vm_compute in H1. injection H1 as _ <- <-. vm_compute in H2. congruence. }
  subst out1 out2.
  destruct (get_reports_replaces E 2 self1 w1 self2 w2 H2)
    as (response & data & items & w1' & xs & Hfetch & Hiter & _ & _ & _ & _ & _ & Hnot).
  exists self1, w1, self2, w2.
  split; [reflexivity|]. split; [exact H2|]. split; [|split].
  - vm_compute in H1. injection H1 as <- _. reflexivity.
  - apply Hnot. intros kwargs Hin.
    vm_compute in H1. injection H1 as <- <-.
    vm_compute in Hfetch. injection Hfetch as _ <- _.
    vm_compute in Hiter. injection Hiter as <-.
    destruct Hin as [Hin|[]]. injection Hin as <-. reflexivity.
  - vm_compute in H1. injection H1 as <- <-.
    vm_compute in H2. injection H2 as <- _. reflexivity.
Defined.

(** ** The shared client *)

Section Keeps.
Context {S : Type} (I : S -> Prop).

Lemma keeps_ret : forall (A : Type) (a : A), keeps I (ret a).
Proof. intros A a s H. exact H. Qed.

Lemma keeps_raise : forall (A : Type) e, keeps I (@raise S A e).
Proof. intros A e s H. exact H. Qed.

Lemma keeps_out_of_fuel : forall (A : Type), keeps I (@out_of_fuel S A).
Proof. intros A s H. exact H. Qed.

Lemma keeps_lift : forall (A : Type) (r : result A), keeps I (lift r).
Proof. intros A [a|e] s H; exact H. Qed.

Lemma keeps_bind : forall (A B : Type) (m : M S A) (k : A -> M S B),
  keeps I m -> (forall a, keeps I (k a)) -> keeps I (bind m k).
Proof.
  intros A B m k Hm Hk s H. unfold bind.
  pose proof (Hm s H) as H1. destruct (m s) as [[a|e| |] s1]; cbn [snd] in *;
    try exact H1.
  apply Hk. exact H1.
Qed.

Lemma keeps_try_except : forall (A : Type) (body : M S A) handler,
  keeps I body -> (forall e, keeps I (handler e)) -> keeps I (try_except body handler).
Proof.
  intros A body handler Hb Hh s H. unfold try_except.
  pose proof (Hb s H) as H1. destruct (body s) as [[a|e| |] s1]; cbn [snd] in *;
    try exact H1.
  apply Hh. exact H1.
Qed.

Lemma keeps_for_attempts : forall (A : Type) (body : nat -> M S (option A)) after attempts,
  (forall a, keeps I (body a)) -> keeps I after ->
  keeps I (for_attempts body attempts after).
Proof.
  intros A body after attempts Hb Ha.
  induction attempts as [|a rest IH]; cbn [for_attempts]; [exact Ha|].
  apply keeps_bind; [apply Hb|]. intros [r|]; [apply keeps_ret|exact IH].
Qed.
End Keeps.

Lemma keeps_if : forall (S A : Type) (I : S -> Prop) (b : bool) (m1 m2 : M S A),
  keeps I m1 -> keeps I m2 -> keeps I (if b then m1 else m2).
Proof. intros S A I [|] m1 m2 H1 H2; assumption. Qed.

Lemma keeps_in_world : forall (Self A : Type) (I : World -> Prop) (m : M World A),
  keeps I m -> keeps (@of_world Self I) (in_world m).
Proof.
  intros Self A I m Hm [self w] H. unfold in_world, of_world in *. cbn [fst snd] in *.
  pose proof (Hm w H) as H1. destruct (m w) as [r w']. exact H1.
Qed.

Lemma keeps_get_self : forall (Self : Type) (I : World -> Prop),
  keeps (@of_world Self I) get_self.
Proof. intros Self I s H. exact H. Qed.

Lemma keeps_set_self : forall (Self : Type) (I : World -> Prop) (self : Self),
  keeps (@of_world Self I) (set_self self).
Proof. intros Self I self s H. exact H. Qed.

Section Framing.
Context (I : World -> Prop) (HI : registry_only I).

Lemma keeps_logger : forall level message, keeps I (logger level message).
Proof. intros level message w H. apply (HI w); auto. Qed.

Lemma keeps_time_sleep : forall seconds, keeps I (time_sleep seconds).
Proof. intros seconds w H. apply (HI w); auto. Qed.

Lemma keeps_requests_request : forall E req, keeps I (requests_request E req).
Proof.
  intros E req w H. unfold requests_request.
  destruct (transport E _ req); apply (HI w); auto.
Qed.

Lemma keeps_get_token : forall E, keeps I (InteractiveBrowserCredential_get_token E).
Proof.
  intros E w H. unfold InteractiveBrowserCredential_get_token.
  destruct (get_token E _); apply (HI w); auto.
Qed.

Lemma keeps_deref : forall ref, keeps I (deref ref).
Proof. intros ref w H. unfold deref. destruct (nth_error _ _); exact H. Qed.

Lemma keeps_authenticate : forall E fuel self,
  keeps I (AbstractPbiAPI.authenticate E fuel self).
Proof.
  intros E. induction fuel as [|fuel IH]; intros self;
    cbn [AbstractPbiAPI.authenticate]; [apply keeps_out_of_fuel|].
  apply keeps_bind.
  - apply keeps_if; [apply keeps_get_token|apply keeps_ret].
  - intros token. apply keeps_try_except; [apply keeps_lift|].
    intros e. repeat apply keeps_if; try apply keeps_raise;
      (apply keeps_bind; [apply keeps_logger|]; intros _;
       apply keeps_bind; [|intros r; apply keeps_ret];
       unfold AbstractPbiAPI.reauthenticate_via;
       apply keeps_bind; [apply IH|intros s; apply keeps_ret]).
Qed.

Lemma keeps_client_init : forall E fuel proxy_url saved_token,
  keeps I (AbstractPbiAPI.__init__ E fuel proxy_url saved_token).
Proof.
  intros E fuel proxy_url saved_token. unfold AbstractPbiAPI.__init__.
  apply keeps_authenticate.
Qed.

Lemma keeps_handle_response : forall response url,
  keeps I (AbstractPbiAPI._handle_response response url).
Proof.
  intros response url. unfold AbstractPbiAPI._handle_response.
  apply keeps_if; [apply keeps_ret|].
  destruct (AbstractPbiAPI.dict_get _ _ _) as [error_class message].
  apply keeps_bind; [apply keeps_logger|intros _; apply keeps_raise].
Qed.

Ltac keeps_attempt :=
  apply keeps_try_except;
  [ apply keeps_bind; [apply keeps_requests_request|]; intros response;
    apply keeps_bind; [apply keeps_logger|]; intros _;
    apply keeps_bind; [apply keeps_handle_response|]; intros r; apply keeps_ret
  | intros e; repeat apply keeps_if; try apply keeps_raise;
    repeat (apply keeps_bind;
            [first [apply keeps_logger | apply keeps_time_sleep]|]; intros _);
    first [apply keeps_ret | apply keeps_raise] ].

Lemma keeps_get : forall E url headers proxies timeout_duration max_retries,
  keeps I (AbstractPbiAPI.make_api_get_request E url headers proxies
             timeout_duration max_retries).
Proof.
  intros. unfold AbstractPbiAPI.make_api_get_request.
  apply keeps_for_attempts; [|apply keeps_raise].
  intros a. unfold AbstractPbiAPI.get_attempt, AbstractPbiAPI._log_retry_attempt.
  keeps_attempt.
Qed.

Lemma keeps_post : forall E url headers proxies timeout_duration max_retries payload,
  keeps I (AbstractPbiAPI.make_api_post_request E url headers proxies
             timeout_duration max_retries payload).
Proof.
  intros. unfold AbstractPbiAPI.make_api_post_request.
  apply keeps_for_attempts; [|apply keeps_raise].
  intros a. unfold AbstractPbiAPI.post_attempt, AbstractPbiAPI._log_retry_attempt.
  keeps_attempt.
Qed.

Lemma keeps_delete : forall E url headers proxies timeout_duration max_retries,
  keeps I (AbstractPbiAPI.make_api_delete_request E url headers proxies
             timeout_duration max_retries).
Proof.
  intros. unfold AbstractPbiAPI.make_api_delete_request.
  apply keeps_for_attempts; [|apply keeps_raise].
  intros a. unfold AbstractPbiAPI.delete_attempt, AbstractPbiAPI._log_retry_attempt.
  keeps_attempt.
Qed.

Lemma keeps_fetch_json : forall E api url, keeps I (fetch_json E api url).
Proof.
  intros E api url. unfold fetch_json.
  apply keeps_bind; [apply keeps_deref|]. intros client.
  apply keeps_bind; [apply keeps_get|]. intros response.
  apply keeps_bind; [apply keeps_lift|]. intros data. apply keeps_ret.
Qed.

Lemma keeps_set_comprehension :
  forall (A : Type) (new : PyVal -> M World A) hash eq items acc,
    (forall item, keeps I (new item)) ->
    keeps I (set_comprehension new hash eq items acc).
Proof.
  intros A new hash eq items. induction items as [|item items IH]; intros acc Hnew;
    cbn [set_comprehension]; [apply keeps_ret|].
  apply keeps_bind; [apply Hnew|]. intros x.
  apply keeps_bind; [apply keeps_lift|]. intros acc'. apply IH. exact Hnew.
Qed.
End Framing.

Lemma client_init_frame : forall E fuel proxy_url saved_token w,
  heap (snd (AbstractPbiAPI.__init__ E fuel proxy_url saved_token w)) = heap w
  /\ PbiAPI_instance (snd (AbstractPbiAPI.__init__ E fuel proxy_url saved_token w))
     = PbiAPI_instance w.
Proof.
  intros E fuel proxy_url saved_token w.
  apply (keeps_client_init
           (fun w' => heap w' = heap w /\ PbiAPI_instance w' = PbiAPI_instance w)).
  - intros w1 w2 Hh Hp [H1 H2]. split; congruence.
  - split; reflexivity.
Qed.

Lemma one_client_registry_only : registry_only one_client.
Proof.
  intros w w' Hh Hp H. unfold one_client in *. rewrite Hh, Hp. exact H.
Qed.

Lemma one_client_with_registry_only : forall h, registry_only (one_client_with h).
Proof.
  intros h w w' Hh Hp [H1 H2]. split.
  - apply (one_client_registry_only w); assumption.
  - congruence.
Qed.

(** The property [pbi_api] on the instance the singleton table holds. *)
Lemma pbi_api_spec : forall E fuel self w,
  PbiAPI_instance w = Some self ->
  one_client w ->
  let out := PbiAPI.pbi_api E fuel self w in
  one_client (snd out)
  /\ (forall ref, fst out = Return ref -> ref = 0 /\ List.length (heap (snd out)) = 1)
  /\ (heap w <> [] -> heap (snd out) = heap w).
Proof.
  intros E fuel self w Hself Hone. unfold one_client in Hone. rewrite Hself in Hone.
  unfold PbiAPI.pbi_api. destruct (_pbi_api self) as [ref|] eqn:Href.
  - cbn. unfold one_client. rewrite Hself, Href.
    split; [exact Hone|]. split; [|reflexivity].
    intros ref' Hr. injection Hr as <-. exact Hone.
  - unfold PbiAPI.new_AbstractPbiAPI, bind.
    destruct (client_init_frame E fuel (PbiAPI_proxy_url self)
                (PbiAPI_saved_token self) w) as [Hh Hp].
    destruct (AbstractPbiAPI.__init__ E fuel (PbiAPI_proxy_url self)
                (PbiAPI_saved_token self) w) as [[client|e| |] w1];
      cbn [fst snd] in *.
    + unfold one_client. cbn. rewrite Hh, Hone. cbn.
      split; [auto|]. split; [|intros Hne; contradiction].
      intros ref Hr. injection Hr as <-. auto.
    + unfold one_client. rewrite Hh, Hp, Hself, Href.
      split; [exact Hone|]. split; [discriminate|reflexivity].
    + unfold one_client. rewrite Hh, Hp, Hself, Href.
      split; [exact Hone|]. split; [discriminate|reflexivity].
    + unfold one_client. rewrite Hh, Hp, Hself, Href.
      split; [exact Hone|]. split; [discriminate|reflexivity].
Qed.

(** [PbiAPI(...).pbi_api] in a process with at most one client: there is
    at most one client afterwards, the reference returned is to it, and a
    client that existed before is the one that exists after. *)
Lemma shared_spec : forall E fuel proxy_url saved_token w,
  one_client w ->
  let out := PbiAPI.shared E fuel proxy_url saved_token w in
  one_client (snd out)
  /\ (forall ref, fst out = Return ref -> ref = 0 /\ List.length (heap (snd out)) = 1)
  /\ (heap w <> [] -> heap (snd out) = heap w).
Proof.
  intros E fuel proxy_url saved_token w Hone.
  unfold PbiAPI.shared, bind, SingletonMeta.__call__.
  destruct (PbiAPI_instance w) as [self|] eqn:Hself.
  - apply pbi_api_spec; assumption.
  - match goal with
    | |- context [PbiAPI.pbi_api E fuel ?self ?w1] =>
        pose proof (pbi_api_spec E fuel self w1 eq_refl) as Hspec
    end.
    cbn [heap] in Hspec. apply Hspec.
    unfold one_client in *. rewrite Hself in Hone. cbn. exact Hone.
Qed.

Lemma shared_keeps_one_client : forall E fuel proxy_url saved_token,
  keeps one_client (PbiAPI.shared E fuel proxy_url saved_token).
Proof. intros E fuel proxy_url saved_token w H. apply shared_spec. exact H. Qed.

Lemma shared_keeps_client : forall h E fuel proxy_url saved_token,
  h <> [] -> keeps (one_client_with h) (PbiAPI.shared E fuel proxy_url saved_token).
Proof.
  intros h E fuel proxy_url saved_token Hne w [Hone Hh].
  destruct (shared_spec E fuel proxy_url saved_token w Hone) as (H1 & _ & H3).
  split; [exact H1|]. rewrite H3; congruence.
Qed.

Section Operations.
Context (I : World -> Prop) (HI : registry_only I).
Context (Hshared : forall E fuel proxy_url saved_token,
            keeps I (PbiAPI.shared E fuel proxy_url saved_token)).

Lemma keeps_Service_init : forall E fuel proxy_url saved_token,
  keeps I (Service.__init__ E fuel proxy_url saved_token).
Proof.
  intros. unfold Service.__init__.
  apply keeps_bind; [apply Hshared|intros api; apply keeps_ret].
Qed.

Lemma keeps_Workspace_init : forall E fuel parent kwargs,
  keeps I (Workspace.__init__ E fuel parent kwargs).
Proof.
  intros. unfold Workspace.__init__.
  apply keeps_bind; [apply Hshared|intros api; apply keeps_ret].
Qed.

Lemma keeps_Report_init : forall E fuel parent kwargs,
  keeps I (Report.__init__ E fuel parent kwargs).
Proof.
  intros. unfold Report.__init__.
  apply keeps_bind; [apply Hshared|intros api; apply keeps_ret].
Qed.

Lemma keeps_Workspace_new : forall E fuel parent item,
  keeps I (Workspace.new E fuel parent item).
Proof.
  intros. unfold Workspace.new.
  apply keeps_bind; [apply keeps_lift|intros kwargs; apply keeps_Workspace_init].
Qed.

Lemma keeps_Report_new : forall E fuel parent item,
  keeps I (Report.new E fuel parent item).
Proof.
  intros. unfold Report.new.
  apply keeps_bind; [apply keeps_lift|intros kwargs; apply keeps_Report_init].
Qed.

(** The shape every fetch has. *)
Ltac keeps_fetch new_keeps :=
  apply keeps_bind; [apply keeps_get_self|]; intros self;
  apply keeps_bind; [apply keeps_in_world, keeps_fetch_json, HI|]; intros rd;
  destruct (snd rd);
  try (apply keeps_bind; [apply keeps_in_world, keeps_logger, HI|]; intros _);
  try apply keeps_raise;
  apply keeps_bind; [|intros s; apply keeps_set_self];
  apply keeps_in_world, keeps_bind; [apply keeps_lift|]; intros items;
  apply keeps_set_comprehension; intros item; new_keeps.

Lemma keeps_get_reports : forall E fuel,
  keeps (of_world I) (Workspace.get_reports E fuel).
Proof.
  intros. unfold Workspace.get_reports.
  keeps_fetch ltac:(apply keeps_Report_new).
Qed.

Lemma keeps_get_semantic_models : forall E,
  keeps (of_world I) (Workspace.get_semantic_models E).
Proof.
  intros. unfold Workspace.get_semantic_models.
  keeps_fetch ltac:(unfold SemanticModel.new;
                    apply keeps_bind; [apply keeps_lift|intros kw; apply keeps_ret]).
Qed.

Lemma keeps_get_users : forall E top skip,
  keeps (of_world I) (Workspace.get_users E top skip).
Proof.
  intros. unfold Workspace.get_users.
  keeps_fetch ltac:(unfold User.new;
                    apply keeps_bind; [apply keeps_lift|intros kw; apply keeps_ret]).
Qed.

Lemma keeps_get_dashboards : forall E,
  keeps (of_world I) (Workspace.get_dashboards E).
Proof.
  intros. unfold Workspace.get_dashboards.
  keeps_fetch ltac:(apply keeps_lift).
Qed.

Lemma keeps_get_workspaces : forall E fuel filter top skip,
  keeps (of_world I) (Service.get_workspaces E fuel filter top skip).
Proof.
  intros. unfold Service.get_workspaces.
  keeps_fetch ltac:(apply keeps_Workspace_new).
Qed.

Lemma keeps_get_apps : forall E, keeps (of_world I) (Service.get_apps E).
Proof.
  intros. unfold Service.get_apps.
  keeps_fetch ltac:(unfold App.new;
                    apply keeps_bind; [apply keeps_lift|intros kw; apply keeps_ret]).
Qed.

Lemma keeps_get_workspace : forall E fuel workspace_id,
  keeps (of_world I) (Service.get_workspace E fuel workspace_id).
Proof.
  intros. unfold Service.get_workspace.
  apply keeps_bind; [apply keeps_get_self|]. intros self.
  apply keeps_bind; [apply keeps_in_world, keeps_fetch_json, HI|]. intros rd.
  destruct (snd rd);
    try (apply keeps_bind; [apply keeps_in_world, keeps_logger, HI|
                            intros _; apply keeps_raise]).
  apply keeps_in_world, keeps_Workspace_new.
Qed.

Lemma keeps_every_operation : every_operation_keeps I.
Proof.
  unfold every_operation_keeps. intros.
  repeat match goal with |- _ /\ _ => split end.
  - apply keeps_Service_init.
  - apply keeps_Workspace_init.
  - apply keeps_Report_init.
  - apply keeps_get_workspaces.
  - apply keeps_get_workspace.
  - apply keeps_get_apps.
  - apply keeps_get_reports.
  - apply keeps_get_semantic_models.
  - apply keeps_get_users.
  - apply keeps_get_dashboards.
  - apply keeps_get, HI.
  - apply keeps_post, HI.
  - apply keeps_delete, HI.
Qed.
End Operations.

(** C8: a process starts without a client; the first access through
    [PbiAPI(...).pbi_api] builds it, and every [Service], [Workspace] and
    [Report] is handed a reference to that one client; no constructor, fetch
    or request builds a second one or replaces the first. *)
Theorem one_shared_client :
  (heap fresh_world = [] /\ one_client fresh_world)
  /\ (forall E fuel proxy_url saved_token parent kwargs w,
        one_client w ->
        (forall service w', Service.__init__ E fuel proxy_url saved_token w
                            = (Return service, w') ->
                            holds_the_client (Service_api service) w')
        /\ (forall workspace w', Workspace.__init__ E fuel parent kwargs w
                                 = (Return workspace, w') ->
                                 holds_the_client (Workspace_api workspace) w')
        /\ (forall report w', Report.__init__ E fuel parent kwargs w
                              = (Return report, w') ->
                              holds_the_client (Report_api report) w'))
  /\ every_operation_keeps one_client
  /\ (forall h, h <> [] -> every_operation_keeps (one_client_with h)).
Proof.
  split; [split; reflexivity|]. split; [|split].
  - intros E fuel proxy_url saved_token parent kwargs w Hone.
    split; [|split].
    + intros service w' H. unfold Service.__init__, bind, ret in H.
      destruct (shared_spec E fuel proxy_url saved_token w Hone) as (H1 & H2 & _).
      destruct (PbiAPI.shared E fuel proxy_url saved_token w) as [[api| | |] w1];
        try discriminate.
      injection H as <- <-. destruct (H2 api eq_refl). repeat split; assumption.
    + intros workspace w' H. unfold Workspace.__init__, bind, ret in H.
      destruct (shared_spec E fuel None None w Hone) as (H1 & H2 & _).
      destruct (PbiAPI.shared E fuel None None w) as [[api| | |] w1];
        try discriminate.
      injection H as <- <-. destruct (H2 api eq_refl). repeat split; assumption.
    + intros report w' H. unfold Report.__init__, bind, ret in H.
      destruct (shared_spec E fuel None None w Hone) as (H1 & H2 & _).
      destruct (PbiAPI.shared E fuel None None w) as [[api| | |] w1];
        try discriminate.
      injection H as <- <-. destruct (H2 api eq_refl). repeat split; assumption.
  - apply keeps_every_operation.
    + exact one_client_registry_only.
    + exact shared_keeps_one_client.
  - intros h Hne. apply keeps_every_operation.
    + apply one_client_with_registry_only.
    + intros. apply shared_keeps_client. exact Hne.
Qed.

Lemma one_shared_client_witness :
  let E := env_200 in
  exists service w1 workspace w2 report w3,
    Service.__init__ E 2 (Some "http://proxy") None fresh_world = (Return service, w1)
    /\ Workspace.__init__ E 2 OwnerService [("id", PyStr "w1")] w1
       = (Return workspace, w2)
    /\ Report.__init__ E 2 (OwnerWorkspace (PyStr "w1")) [("id", PyStr "r1")] w2
       = (Return report, w3)
    /\ holds_the_client (Service_api service) w1
    /\ holds_the_client (Workspace_api workspace) w2
    /\ holds_the_client (Report_api report) w3
    /\ heap w3 = heap w1.
Proof.
  intros E.
  destruct one_shared_client as ((_ & Hfresh) & Hbuilt & _ & _).
  destruct (Service.__init__ E 2 (Some "http://proxy") None fresh_world)
    as [out1 w1] eqn:H1.
  destruct out1 as [service| | |]; try (vm_compute in H1; discriminate).
  destruct (Workspace.__init__ E 2 OwnerService [("id", PyStr "w1")] w1)
    as [out2 w2] eqn:H2.
  destruct (Hbuilt E 2 (Some "http://proxy") None OwnerService [("id", PyStr "w1")]
              fresh_world Hfresh) as (Hservice & _ & _).
  pose proof (Hservice service w1 H1) as Hs.
  destruct out2 as [workspace| | |];
    try (vm_compute in H1; injection H1 as <- <-; vm_compute in H2; discriminate).
  destruct (Hbuilt E 2 None None OwnerService [("id", PyStr "w1")] w1
              (proj2 (proj2 Hs))) as (_ & Hworkspace & _).
  pose proof (Hworkspace workspace w2 H2) as Hw.
  destruct (Report.__init__ E 2 (OwnerWorkspace (PyStr "w1")) [("id", PyStr "r1")] w2)
    as [out3 w3] eqn:H3.
  destruct out3 as [report| | |];
    try (vm_compute in H1; injection H1 as <- <-;
         vm_compute in H2; injection H2 as <- <-;
         vm_compute in H3; discriminate).
  destruct (Hbuilt E 2 None None (OwnerWorkspace (PyStr "w1")) [("id", PyStr "r1")] w2
              (proj2 (proj2 Hw))) as (_ & _ & Hreport).
  pose proof (Hreport report w3 H3) as Hr.
  exists service, w1, workspace, w2, report, w3.
  repeat (split; [first [reflexivity | assumption]|]).
  vm_compute in H1; injection H1 as <- <-.
  vm_compute in H2; injection H2 as <- <-.
  vm_compute in H3; injection H3 as <- <-.
  reflexivity.
Defined.

(* ================================================================== *)
(** * Further properties *)

(** ** The request methods: every way a call ends *)

Lemma loop_raises_after_timeouts :
  forall (body : nat -> M World (option Response)) (req : Request) E after
         max_retries k w e,
    (forall a w, times_out E req (List.length (http_calls w)) ->
                 exists w', retried body req a w w') ->
    (forall a w0, List.length (http_calls w0) = List.length (http_calls w) + k ->
                  exists w', body a w0 = (Raise e, w')
                             /\ http_calls w' = (http_calls w0 ++ [req])%list
                             /\ sleeps w' = sleeps w0) ->
    (Z.of_nat k < max_retries)%Z ->
    (forall i, i < k -> times_out E req (List.length (http_calls w) + i)) ->
    ended_after k req w (Raise e) (for_attempts body (range max_retries) after w).
Proof.
  intros body req E after max_retries k w e Hretry Hlast Hk Hto.
  destruct (range_split max_retries k Hk) as [rest ->].
  destruct (for_attempts_retries body req (times_out E req) after Hretry k 0
              (k :: rest) w Hto) as (wk & Hloop & Hcalls & Hsleeps).
  rewrite Hloop.
  destruct (Hlast k wk) as (w' & Hbody & Hcalls' & Hsleeps').
  { rewrite Hcalls, length_app, repeat_length. reflexivity. }
  rewrite (for_attempts_raises body after k rest wk _ w' Hbody).
  unfold ended_after. cbn [fst snd]. split; [reflexivity|]. split.
  - rewrite Hcalls', Hcalls, <- app_assoc.
    f_equal. change [req] with (repeat req 1). rewrite <- repeat_app.
    f_equal. lia.
  - rewrite Hsleeps', Hsleeps. reflexivity.
Qed.

Lemma loop_returns_after_timeouts :
  forall (body : nat -> M World (option Response)) (req : Request) E after
         max_retries k w response,
    (forall a w, times_out E req (List.length (http_calls w)) ->
                 exists w', retried body req a w w') ->
    (forall a w0, List.length (http_calls w0) = List.length (http_calls w) + k ->
                  exists w', body a w0 = (Return (Some response), w')
                             /\ http_calls w' = (http_calls w0 ++ [req])%list
                             /\ sleeps w' = sleeps w0) ->
    (Z.of_nat k < max_retries)%Z ->
    (forall i, i < k -> times_out E req (List.length (http_calls w) + i)) ->
    ended_after k req w (Return response)
      (for_attempts body (range max_retries) after w).
Proof.
  intros body req E after max_retries k w response Hretry Hlast Hk Hto.
  destruct (range_split max_retries k Hk) as [rest ->].
  destruct (for_attempts_retries body req (times_out E req) after Hretry k 0
              (k :: rest) w Hto) as (wk & Hloop & Hcalls & Hsleeps).
  rewrite Hloop.
  destruct (Hlast k wk) as (w' & Hbody & Hcalls' & Hsleeps').
  { rewrite Hcalls, length_app, repeat_length. reflexivity. }
  cbn [for_attempts]. unfold bind at 1. rewrite Hbody. unfold ret.
  unfold ended_after. cbn [fst snd]. split; [reflexivity|]. split.
  - rewrite Hcalls', Hcalls, <- app_assoc.
    f_equal. change [req] with (repeat req 1). rewrite <- repeat_app.
    f_equal. lia.
  - rewrite Hsleeps', Hsleeps. reflexivity.
Qed.

(** No class derives from both [RequestException] and
    [TooManyRequestsError]. *)
Lemma RequestException_not_TooManyRequests : forall e,
  isinstance e [TooManyRedirects; HTTPError; RequestException] = true ->
  isinstance e [TooManyRequestsError] = false.
Proof.
  intros [c msg cause]. unfold isinstance. cbn [exn_class].
  destruct c; cbn; intros H; try discriminate; reflexivity.
Qed.

Lemma isinstance_app : forall e cs ds,
  isinstance e (cs ++ ds) = isinstance e cs || isinstance e ds.
Proof. intros e cs ds. unfold isinstance. apply existsb_app. Qed.

Lemma fatal_not_post_retried : forall e,
  transport_fatal e -> isinstance e [Timeout; TooManyRequestsError] = false.
Proof.
  intros e [Hto Hre].
  change [Timeout; TooManyRequestsError] with ([Timeout] ++ [TooManyRequestsError])%list.
  rewrite isinstance_app, Hto, (RequestException_not_TooManyRequests e Hre).
  reflexivity.
Qed.

Lemma foreign_not_Timeout : forall e, foreign e -> isinstance e [Timeout] = false.
Proof.
  intros e [H _].
  change [Timeout; TooManyRequestsError]
    with ([Timeout] ++ [TooManyRequestsError])%list in H.
  rewrite isinstance_app in H. apply orb_false_iff in H. tauto.
Qed.

Ltac attempt_raises :=
  step_attempt;
  match goal with
  | He : transport _ _ _ = Err _ |- _ => rewrite He
  end;
  cbv beta iota;
  repeat match goal with
         | H : isinstance _ _ = _ |- _ => rewrite H
         end;
  cbn [fst snd]; eexists; repeat split.

Lemma get_attempt_fatal :
  forall E url headers proxies timeout_duration max_retries a w e,
    transport E (List.length (http_calls w))
      (get_request url headers proxies timeout_duration) = Err e ->
    transport_fatal e ->
    exists w',
      AbstractPbiAPI.get_attempt E url headers proxies timeout_duration max_retries a w
      = (Raise (mkExn APIError ("Request error: " ++ exn_msg e) (Some e)), w')
      /\ http_calls w'
         = (http_calls w ++ [get_request url headers proxies timeout_duration])%list
      /\ sleeps w' = sleeps w.
Proof.
  intros E url headers proxies timeout_duration max_retries a w e He [H1 H2].
  unfold AbstractPbiAPI.get_attempt, get_request in *. attempt_raises.
Qed.

Lemma delete_attempt_fatal :
  forall E url headers proxies timeout_duration max_retries a w e,
    transport E (List.length (http_calls w))
      (delete_request url headers proxies timeout_duration) = Err e ->
    transport_fatal e ->
    exists w',
      AbstractPbiAPI.delete_attempt E url headers proxies timeout_duration max_retries a w
      = (Raise (mkExn APIError ("Request error: " ++ exn_msg e) (Some e)), w')
      /\ http_calls w'
         = (http_calls w ++ [delete_request url headers proxies timeout_duration])%list
      /\ sleeps w' = sleeps w.
Proof.
  intros E url headers proxies timeout_duration max_retries a w e He [H1 H2].
  unfold AbstractPbiAPI.delete_attempt, delete_request in *. attempt_raises.
Qed.

Lemma post_attempt_fatal :
  forall E url headers proxies timeout_duration max_retries payload a w e,
    transport E (List.length (http_calls w))
      (post_request url headers proxies timeout_duration payload) = Err e ->
    transport_fatal e ->
    exists w',
      AbstractPbiAPI.post_attempt E url headers proxies timeout_duration max_retries
        payload a w
      = (Raise (mkExn APIError ("Request error: " ++ exn_msg e) (Some e)), w')
      /\ http_calls w'
         = (http_calls w ++ [post_request url headers proxies timeout_duration payload])%list
      /\ sleeps w' = sleeps w.
Proof.
  intros E url headers proxies timeout_duration max_retries payload a w e He Hf.
  pose proof (fatal_not_post_retried e Hf) as H0. destruct Hf as [H1 H2].
  unfold AbstractPbiAPI.post_attempt, post_request in *. attempt_raises.
Qed.

(** A transport failure that is a [RequestException] but not a [Timeout]
    (too many redirects, a connection error, an HTTP error) ends each of
    the three request methods at once with an [APIError] that carries
    "Request error: " and the failure's text and has the failure as its
    cause: after [k] timeouts, [k + 1] requests and [k] sleeps. *)
Theorem transport_failure_is_wrapped :
  forall E url headers proxies timeout_duration max_retries payload w k e,
    (Z.of_nat k < max_retries)%Z ->
    transport_fatal e ->
    let n := List.length (http_calls w) in
    let get := get_request url headers proxies timeout_duration in
    let delete := delete_request url headers proxies timeout_duration in
    let post := post_request url headers proxies timeout_duration payload in
    let wrapped := Raise (mkExn APIError ("Request error: " ++ exn_msg e) (Some e)) in
    ((forall i, i < k -> times_out E get (n + i)) ->
     transport E (n + k) get = Err e ->
     ended_after k get w wrapped
       (AbstractPbiAPI.make_api_get_request E url headers proxies timeout_duration
          max_retries w))
    /\
    ((forall i, i < k -> times_out E post (n + i)) ->
     transport E (n + k) post = Err e ->
     ended_after k post w wrapped
       (AbstractPbiAPI.make_api_post_request E url headers proxies timeout_duration
          max_retries payload w))
    /\
    ((forall i, i < k -> times_out E delete (n + i)) ->
     transport E (n + k) delete = Err e ->
     ended_after k delete w wrapped
       (AbstractPbiAPI.make_api_delete_request E url headers proxies timeout_duration
          max_retries w)).
Proof.
  intros E url headers proxies timeout_duration max_retries payload w k e Hk Hf
    n get delete post wrapped.
  split; [|split]; intros Hto He.
  - unfold AbstractPbiAPI.make_api_get_request.
    apply loop_raises_after_timeouts with (E := E); auto.
    + intros a w0. apply get_attempt_timeout.
    + intros a w0 Hlen. apply get_attempt_fatal; auto. rewrite Hlen. exact He.
  - unfold AbstractPbiAPI.make_api_post_request.
    apply loop_raises_after_timeouts with (E := E); auto.
    + intros a w0. apply post_attempt_timeout.
    + intros a w0 Hlen. apply post_attempt_fatal; auto. rewrite Hlen. exact He.
  - unfold AbstractPbiAPI.make_api_delete_request.
    apply loop_raises_after_timeouts with (E := E); auto.
    + intros a w0. apply delete_attempt_timeout.
    + intros a w0 Hlen. apply delete_attempt_fatal; auto. rewrite Hlen. exact He.
Qed.

Lemma transport_failure_is_wrapped_witness :
  let e := mkExn TooManyRedirects "Exceeded 30 redirects." None in
  let wrapped := Raise (mkExn APIError "Request error: Exceeded 30 redirects." (Some e)) in
  ended_after 0 (get_request "u" None None 10) fresh_world wrapped
    (AbstractPbiAPI.make_api_get_request env_redirects "u" None None 10 5 fresh_world)
  /\ ended_after 0 (post_request "u" None None 10 None) fresh_world wrapped
       (AbstractPbiAPI.make_api_post_request env_redirects "u" None None 10 5 None
          fresh_world)
  /\ ended_after 0 (delete_request "u" None None 10) fresh_world wrapped
       (AbstractPbiAPI.make_api_delete_request env_redirects "u" None None 10 5
          fresh_world).
Proof.
  intros e wrapped.
  destruct (transport_failure_is_wrapped env_redirects "u" None None 10 5 None
              fresh_world 0 e eq_refl (conj eq_refl eq_refl))
    as (Hget & Hpost & Hdelete).
  split; [|split].
  - apply Hget; [intros i Hi; inversion Hi|reflexivity].
  - apply Hpost; [intros i Hi; inversion Hi|reflexivity].
  - apply Hdelete; [intros i Hi; inversion Hi|reflexivity].
Defined.

Lemma get_attempt_foreign :
  forall E url headers proxies timeout_duration max_retries a w e,
    transport E (List.length (http_calls w))
      (get_request url headers proxies timeout_duration) = Err e ->
    foreign e ->
    exists w',
      AbstractPbiAPI.get_attempt E url headers proxies timeout_duration max_retries a w
      = (Raise e, w')
      /\ http_calls w'
         = (http_calls w ++ [get_request url headers proxies timeout_duration])%list
      /\ sleeps w' = sleeps w.
Proof.
  intros E url headers proxies timeout_duration max_retries a w e He Hf.
  pose proof (foreign_not_Timeout e Hf) as H0. destruct Hf as [H1 H2].
  unfold AbstractPbiAPI.get_attempt, get_request in *. attempt_raises.
Qed.

Lemma delete_attempt_foreign :
  forall E url headers proxies timeout_duration max_retries a w e,
    transport E (List.length (http_calls w))
      (delete_request url headers proxies timeout_duration) = Err e ->
    foreign e ->
    exists w',
      AbstractPbiAPI.delete_attempt E url headers proxies timeout_duration max_retries a w
      = (Raise e, w')
      /\ http_calls w'
         = (http_calls w ++ [delete_request url headers proxies timeout_duration])%list
      /\ sleeps w' = sleeps w.
Proof.
  intros E url headers proxies timeout_duration max_retries a w e He Hf.
  pose proof (foreign_not_Timeout e Hf) as H0. destruct Hf as [H1 H2].
  unfold AbstractPbiAPI.delete_attempt, delete_request in *. attempt_raises.
Qed.

Lemma post_attempt_foreign :
  forall E url headers proxies timeout_duration max_retries payload a w e,
    transport E (List.length (http_calls w))
      (post_request url headers proxies timeout_duration payload) = Err e ->
    foreign e ->
    exists w',
      AbstractPbiAPI.post_attempt E url headers proxies timeout_duration max_retries
        payload a w
      = (Raise e, w')
      /\ http_calls w'
         = (http_calls w ++ [post_request url headers proxies timeout_duration payload])%list
      /\ sleeps w' = sleeps w.
Proof.
  intros E url headers proxies timeout_duration max_retries payload a w e He [H1 H2].
  unfold AbstractPbiAPI.post_attempt, post_request in *. attempt_raises.
Qed.

(** An exception of the transport that is neither a [RequestException] nor
    a [TooManyRequestsError] passes through each of the three request
    methods as it is, not wrapped and not retried: after [k] timeouts,
    [k + 1] requests and [k] sleeps. *)
Theorem foreign_exception_passes_through :
  forall E url headers proxies timeout_duration max_retries payload w k e,
    (Z.of_nat k < max_retries)%Z ->
    foreign e ->
    let n := List.length (http_calls w) in
    let get := get_request url headers proxies timeout_duration in
    let delete := delete_request url headers proxies timeout_duration in
    let post := post_request url headers proxies timeout_duration payload in
    ((forall i, i < k -> times_out E get (n + i)) ->
     transport E (n + k) get = Err e ->
     ended_after k get w (Raise e)
       (AbstractPbiAPI.make_api_get_request E url headers proxies timeout_duration
          max_retries w))
    /\
    ((forall i, i < k -> times_out E post (n + i)) ->
     transport E (n + k) post = Err e ->
     ended_after k post w (Raise e)
       (AbstractPbiAPI.make_api_post_request E url headers proxies timeout_duration
          max_retries payload w))
    /\
    ((forall i, i < k -> times_out E delete (n + i)) ->
     transport E (n + k) delete = Err e ->
     ended_after k delete w (Raise e)
       (AbstractPbiAPI.make_api_delete_request E url headers proxies timeout_duration
          max_retries w)).
Proof.
  intros E url headers proxies timeout_duration max_retries payload w k e Hk Hf
    n get delete post.
  split; [|split]; intros Hto He.
  - unfold AbstractPbiAPI.make_api_get_request.
    apply loop_raises_after_timeouts with (E := E); auto.
    + intros a w0. apply get_attempt_timeout.
    + intros a w0 Hlen. apply get_attempt_foreign; auto. rewrite Hlen. exact He.
  - unfold AbstractPbiAPI.make_api_post_request.
    apply loop_raises_after_timeouts with (E := E); auto.
    + intros a w0. apply post_attempt_timeout.
    + intros a w0 Hlen. apply post_attempt_foreign; auto. rewrite Hlen. exact He.
  - unfold AbstractPbiAPI.make_api_delete_request.
    apply loop_raises_after_timeouts with (E := E); auto.
    + intros a w0. apply delete_attempt_timeout.
    + intros a w0 Hlen. apply delete_attempt_foreign; auto. rewrite Hlen. exact He.
Qed.

Lemma foreign_exception_passes_through_witness :
  let e := mkExn KeyError "'x'" None in
  ended_after 0 (get_request "u" None None 10) fresh_world (Raise e)
    (AbstractPbiAPI.make_api_get_request env_broken "u" None None 10 5 fresh_world)
  /\ ended_after 0 (post_request "u" None None 10 None) fresh_world (Raise e)
       (AbstractPbiAPI.make_api_post_request env_broken "u" None None 10 5 None
          fresh_world)
  /\ ended_after 0 (delete_request "u" None None 10) fresh_world (Raise e)
       (AbstractPbiAPI.make_api_delete_request env_broken "u" None None 10 5
          fresh_world).
Proof.
  intros e.
  destruct (foreign_exception_passes_through env_broken "u" None None 10 5 None
              fresh_world 0 e eq_refl (conj eq_refl eq_refl))
    as (Hget & Hpost & Hdelete).
  split; [|split].
  - apply Hget; [intros i Hi; inversion Hi|reflexivity].
  - apply Hpost; [intros i Hi; inversion Hi|reflexivity].
  - apply Hdelete; [intros i Hi; inversion Hi|reflexivity].
Defined.

(** With [max_retries] zero or negative none of the three methods issues a
    request: each raises the exhaustion [APIError] and leaves the world as
    it was. *)
Theorem no_attempts_no_request :
  forall E url headers proxies timeout_duration max_retries payload w,
    (max_retries <= 0)%Z ->
    let exhausted :=
      (@Raise Response (mkExn APIError "API request failed after maximum retries." None),
       w) in
    AbstractPbiAPI.make_api_get_request E url headers proxies timeout_duration
      max_retries w = exhausted
    /\ AbstractPbiAPI.make_api_post_request E url headers proxies timeout_duration
         max_retries payload w = exhausted
    /\ AbstractPbiAPI.make_api_delete_request E url headers proxies timeout_duration
         max_retries w = exhausted.
Proof.
  intros E url headers proxies timeout_duration max_retries payload w Hle exhausted.
  assert (Hrange : range max_retries = []).
  { unfold range. replace (Z.to_nat max_retries) with 0 by lia. reflexivity. }
  unfold AbstractPbiAPI.make_api_get_request, AbstractPbiAPI.make_api_post_request,
    AbstractPbiAPI.make_api_delete_request.
  rewrite Hrange. repeat split.
Qed.

Lemma no_attempts_no_request_witness :
  AbstractPbiAPI.make_api_get_request env_200 "u" None None 10 0 fresh_world
  = (Raise (mkExn APIError "API request failed after maximum retries." None),
     fresh_world)
  /\ AbstractPbiAPI.make_api_post_request env_200 "u" None None 10 (-1) None fresh_world
     = (Raise (mkExn APIError "API request failed after maximum retries." None),
        fresh_world)
  /\ AbstractPbiAPI.make_api_delete_request env_200 "u" None None 10 0 fresh_world
     = (Raise (mkExn APIError "API request failed after maximum retries." None),
        fresh_world).
Proof.
  destruct (no_attempts_no_request env_200 "u" None None 10 0 None fresh_world)
    as (Hget & _ & Hdelete); [discriminate|].
  destruct (no_attempts_no_request env_200 "u" None None 10 (-1) None fresh_world)
    as (_ & Hpost & _); [discriminate|].
  auto.
Defined.

Ltac attempt_succeeds Hs :=
  step_attempt;
  match goal with
  | He : transport _ _ _ = Ok _ |- _ => rewrite He
  end;
  cbv beta iota;
  match goal with
  | |- context [AbstractPbiAPI._handle_response ?response ?url ?w2] =>
      rewrite (handle_response_success response url w2 Hs)
  end;
  cbn [fst snd]; eexists; repeat split.

Lemma get_attempt_success :
  forall E url headers proxies timeout_duration max_retries a w response,
    transport E (List.length (http_calls w))
      (get_request url headers proxies timeout_duration) = Ok response ->
    is_success (status_code response) = true ->
    exists w',
      AbstractPbiAPI.get_attempt E url headers proxies timeout_duration max_retries a w
      = (Return (Some response), w')
      /\ http_calls w'
         = (http_calls w ++ [get_request url headers proxies timeout_duration])%list
      /\ sleeps w' = sleeps w.
Proof.
  intros E url headers proxies timeout_duration max_retries a w response He Hs.
  unfold AbstractPbiAPI.get_attempt, get_request in *. attempt_succeeds Hs.
Qed.

Lemma delete_attempt_success :
  forall E url headers proxies timeout_duration max_retries a w response,
    transport E (List.length (http_calls w))
      (delete_request url headers proxies timeout_duration) = Ok response ->
    is_success (status_code response) = true ->
    exists w',
      AbstractPbiAPI.delete_attempt E url headers proxies timeout_duration max_retries a w
      = (Return (Some response), w')
      /\ http_calls w'
         = (http_calls w ++ [delete_request url headers proxies timeout_duration])%list
      /\ sleeps w' = sleeps w.
Proof.
  intros E url headers proxies timeout_duration max_retries a w response He Hs.
  unfold AbstractPbiAPI.delete_attempt, delete_request in *. attempt_succeeds Hs.
Qed.

Lemma post_attempt_success :
  forall E url headers proxies timeout_duration max_retries payload a w response,
    transport E (List.length (http_calls w))
      (post_request url headers proxies timeout_duration payload) = Ok response ->
    is_success (status_code response) = true ->
    exists w',
      AbstractPbiAPI.post_attempt E url headers proxies timeout_duration max_retries
        payload a w
      = (Return (Some response), w')
      /\ http_calls w'
         = (http_calls w ++ [post_request url headers proxies timeout_duration payload])%list
      /\ sleeps w' = sleeps w.
Proof.
  intros E url headers proxies timeout_duration max_retries payload a w response He Hs.
  unfold AbstractPbiAPI.post_attempt, post_request in *. attempt_succeeds Hs.
Qed.

(** A 200, 201 or 202 answer that comes after [k] timeouts is returned, as
    it is, by each of the three request methods: [k + 1] requests were
    issued and the sleeps were [2^0, ..., 2^(k-1)]. *)
Theorem success_after_timeouts_is_returned :
  forall E url headers proxies timeout_duration max_retries payload w k response,
    (Z.of_nat k < max_retries)%Z ->
    In (status_code response) [200%Z; 201%Z; 202%Z] ->
    let n := List.length (http_calls w) in
    let get := get_request url headers proxies timeout_duration in
    let delete := delete_request url headers proxies timeout_duration in
    let post := post_request url headers proxies timeout_duration payload in
    ((forall i, i < k -> times_out E get (n + i)) ->
     transport E (n + k) get = Ok response ->
     ended_after k get w (Return response)
       (AbstractPbiAPI.make_api_get_request E url headers proxies timeout_duration
          max_retries w))
    /\
    ((forall i, i < k -> times_out E post (n + i)) ->
     transport E (n + k) post = Ok response ->
     ended_after k post w (Return response)
       (AbstractPbiAPI.make_api_post_request E url headers proxies timeout_duration
          max_retries payload w))
    /\
    ((forall i, i < k -> times_out E delete (n + i)) ->
     transport E (n + k) delete = Ok response ->
     ended_after k delete w (Return response)
       (AbstractPbiAPI.make_api_delete_request E url headers proxies timeout_duration
          max_retries w)).
Proof.
  intros E url headers proxies timeout_duration max_retries payload w k response
    Hk Hin n get delete post.
  assert (Hs : is_success (status_code response) = true).
  { unfold is_success. apply existsb_exists. exists (status_code response).
    split; [exact Hin|apply Z.eqb_refl]. }
  split; [|split]; intros Hto He.
  - unfold AbstractPbiAPI.make_api_get_request.
    apply loop_returns_after_timeouts with (E := E); auto.
    + intros a w0. apply get_attempt_timeout.
    + intros a w0 Hlen. apply get_attempt_success; auto. rewrite Hlen. exact He.
  - unfold AbstractPbiAPI.make_api_post_request.
    apply loop_returns_after_timeouts with (E := E); auto.
    + intros a w0. apply post_attempt_timeout.
    + intros a w0 Hlen. apply post_attempt_success; auto. rewrite Hlen. exact He.
  - unfold AbstractPbiAPI.make_api_delete_request.
    apply loop_returns_after_timeouts with (E := E); auto.
    + intros a w0. apply delete_attempt_timeout.
    + intros a w0 Hlen. apply delete_attempt_success; auto. rewrite Hlen. exact He.
Qed.

Lemma success_after_timeouts_is_returned_witness :
  ended_after 1 (get_request "u" None None 10) fresh_world (Return response_201)
    (AbstractPbiAPI.make_api_get_request env_timeout_then_201 "u" None None 10 5
       fresh_world)
  /\ ended_after 1 (post_request "u" None None 10 None) fresh_world
       (Return response_201)
       (AbstractPbiAPI.make_api_post_request env_timeout_then_201 "u" None None 10 5
          None fresh_world)
  /\ ended_after 1 (delete_request "u" None None 10) fresh_world (Return response_201)
       (AbstractPbiAPI.make_api_delete_request env_timeout_then_201 "u" None None 10 5
          fresh_world).
Proof.
  destruct (success_after_timeouts_is_returned env_timeout_then_201 "u" None None
              10 5 None fresh_world 1 response_201 eq_refl (or_intror (or_introl eq_refl)))
    as (Hget & Hpost & Hdelete).
  assert (Hto : forall req i, i < 1 -> times_out env_timeout_then_201 req (0 + i)).
  { intros req i Hi. destruct i as [|i]; [|lia]. eexists. split; reflexivity. }
  split; [|split].
  - apply Hget; [apply Hto|reflexivity].
  - apply Hpost; [apply Hto|reflexivity].
  - apply Hdelete; [apply Hto|reflexivity].
Defined.

Lemma loop_exhausts :
  forall (body : nat -> M World (option Response)) (req : Request)
         (P : nat -> Prop) e max_retries w,
    (forall a w, P (List.length (http_calls w)) -> exists w', retried body req a w w') ->
    (forall i, i < Z.to_nat max_retries -> P (List.length (http_calls w) + i)) ->
    let out := for_attempts body (range max_retries) (raise e) w in
    fst out = Raise e
    /\ accounted req (Z.to_nat max_retries) (Z.to_nat max_retries) w (snd out).
Proof.
  intros body req P e max_retries w Hretry Hall out. subst out.
  destruct (for_attempts_retries body req P (raise e) Hretry (Z.to_nat max_retries) 0
              [] w Hall) as (wk & Hloop & Hcalls & Hsleeps).
  unfold range. rewrite <- (app_nil_r (seq 0 (Z.to_nat max_retries))), Hloop.
  cbn [for_attempts]. unfold raise, accounted. cbn [fst snd]. auto.
Qed.

Lemma post_attempt_retried :
  forall E url headers proxies timeout_duration max_retries payload a w,
    post_retried E (post_request url headers proxies timeout_duration payload)
      (List.length (http_calls w)) ->
    exists w',
      retried (AbstractPbiAPI.post_attempt E url headers proxies timeout_duration
                 max_retries payload)
        (post_request url headers proxies timeout_duration payload) a w w'.
Proof.
  intros E url headers proxies timeout_duration max_retries payload a w
    [Hto|(response & He & H429)].
  - apply post_attempt_timeout. exact Hto.
  - apply post_attempt_429 with (response := response); assumption.
Qed.

(** When every attempt is given up, a request method issues exactly
    [max_retries] requests, sleeps [2^0, ..., 2^(max_retries-1)] (the last
    sleep comes after the last attempt) and raises the exhaustion
    [APIError].  GET and DELETE give an attempt up on a timeout; POST on a
    timeout or on a 429 answer. *)
Theorem exhaustion_after_max_retries :
  forall E url headers proxies timeout_duration max_retries payload w,
    let n := List.length (http_calls w) in
    let bound := Z.to_nat max_retries in
    let get := get_request url headers proxies timeout_duration in
    let delete := delete_request url headers proxies timeout_duration in
    let post := post_request url headers proxies timeout_duration payload in
    let exhausted (req : Request) (out : Outcome Response * World) :=
      fst out = Raise (mkExn APIError "API request failed after maximum retries." None)
      /\ accounted req bound bound w (snd out) in
    ((forall i, i < bound -> times_out E get (n + i)) ->
     exhausted get
       (AbstractPbiAPI.make_api_get_request E url headers proxies timeout_duration
          max_retries w))
    /\
    ((forall i, i < bound -> post_retried E post (n + i)) ->
     exhausted post
       (AbstractPbiAPI.make_api_post_request E url headers proxies timeout_duration
          max_retries payload w))
    /\
    ((forall i, i < bound -> times_out E delete (n + i)) ->
     exhausted delete
       (AbstractPbiAPI.make_api_delete_request E url headers proxies timeout_duration
          max_retries w)).
Proof.
  intros E url headers proxies timeout_duration max_retries payload w n bound
    get delete post exhausted.
  split; [|split]; intros Hall.
  - apply (loop_exhausts _ get (times_out E get)); [|exact Hall].
    intros a w0. apply get_attempt_timeout.
  - apply (loop_exhausts _ post (post_retried E post)); [|exact Hall].
    intros a w0. apply post_attempt_retried.
  - apply (loop_exhausts _ delete (times_out E delete)); [|exact Hall].
    intros a w0. apply delete_attempt_timeout.
Qed.

Lemma exhaustion_after_max_retries_witness :
  let exhausted (req : Request) (bound : nat) (out : Outcome Response * World) :=
    fst out = Raise (mkExn APIError "API request failed after maximum retries." None)
    /\ accounted req bound bound fresh_world (snd out) in
  exhausted (get_request "u" None None 10) 5
    (AbstractPbiAPI.make_api_get_request env_timeout "u" None None 10 5 fresh_world)
  /\ exhausted (post_request "u" None None 10 None) 4
       (AbstractPbiAPI.make_api_post_request env_429 "u" None None 10 4 None
          fresh_world)
  /\ exhausted (delete_request "u" None None 10) 1
       (AbstractPbiAPI.make_api_delete_request env_timeout "u" None None 10 1
          fresh_world).
Proof.
  intros exhausted.
  destruct (exhaustion_after_max_retries env_timeout "u" None None 10 5 None fresh_world)
    as (Hget & _ & _).
  destruct (exhaustion_after_max_retries env_429 "u" None None 10 4 None fresh_world)
    as (_ & Hpost & _).
  destruct (exhaustion_after_max_retries env_timeout "u" None None 10 1 None fresh_world)
    as (_ & _ & Hdelete).
  split; [|split].
  - apply Hget. intros i Hi. eexists. split; reflexivity.
  - apply Hpost. intros i Hi. right. eexists. split; reflexivity.
  - apply Hdelete. intros i Hi. eexists. split; reflexivity.
Defined.

(** ** The request methods: what a call can cost *)

Ltac attempt_costs_cases :=
  intros a w; step_attempt;
  match goal with
  | |- context [transport ?E ?n ?req] => destruct (transport E n req)
  end;
  cbv beta iota;
  try match goal with
      | |- context [AbstractPbiAPI._handle_response ?response ?url ?w2] =>
          let Hs := fresh "Hs" in
          destruct (is_success (status_code response)) eqn:Hs;
          [ rewrite (handle_response_success response url w2 Hs)
          | let msg := fresh "msg" in
            let entry := fresh "entry" in
            let Hr := fresh "Hr" in
            destruct (handle_response_failure response url w2 Hs) as (msg & entry & Hr);
            rewrite Hr; clear Hr; cbv beta iota ]
      end;
  repeat match goal with
         | |- context [if ?b then _ else _] => destruct b
         end;
  cbn [fst snd http_calls sleeps];
  (split; [reflexivity|]);
  first [ left; split; reflexivity
        | right; split; [discriminate|reflexivity] ].

Lemma get_attempt_costs : forall E url headers proxies timeout_duration max_retries,
  attempt_costs
    (AbstractPbiAPI.get_attempt E url headers proxies timeout_duration max_retries)
    (get_request url headers proxies timeout_duration).
Proof.
  intros E url headers proxies timeout_duration max_retries.
  unfold attempt_costs, AbstractPbiAPI.get_attempt, get_request.
  attempt_costs_cases.
Qed.

Lemma post_attempt_costs :
  forall E url headers proxies timeout_duration max_retries payload,
  attempt_costs
    (AbstractPbiAPI.post_attempt E url headers proxies timeout_duration max_retries
       payload)
    (post_request url headers proxies timeout_duration payload).
Proof.
  intros E url headers proxies timeout_duration max_retries payload.
  unfold attempt_costs, AbstractPbiAPI.post_attempt, post_request.
  attempt_costs_cases.
Qed.

Lemma delete_attempt_costs : forall E url headers proxies timeout_duration max_retries,
  attempt_costs
    (AbstractPbiAPI.delete_attempt E url headers proxies timeout_duration max_retries)
    (delete_request url headers proxies timeout_duration).
Proof.
  intros E url headers proxies timeout_duration max_retries.
  unfold attempt_costs, AbstractPbiAPI.delete_attempt, delete_request.
  attempt_costs_cases.
Qed.

Lemma loop_costs :
  forall (body : nat -> M World (option Response)) (req : Request) e,
    attempt_costs body req ->
    forall n a w,
      exists j s,
        j <= n /\ s <= j /\ (0 < n -> 0 < j)
        /\ http_calls (snd (for_attempts body (seq a n) (raise e) w))
           = (http_calls w ++ repeat req j)%list
        /\ sleeps (snd (for_attempts body (seq a n) (raise e) w))
           = (sleeps w ++ backoff a s)%list.
Proof.
  intros body req e Hcost. induction n as [|n IH]; intros a w.
  - exists 0, 0. cbn. rewrite !app_nil_r. repeat split; lia.
  - cbn [seq for_attempts]. unfold bind at 1 2.
    destruct (Hcost a w) as (Hcalls & Hsleeps).
    destruct (body a w) as [r w1] eqn:Hbody. cbn [fst snd] in *.
    assert (Hstop : forall out : Outcome Response,
               r <> Return None -> sleeps w1 = sleeps w ->
               exists j s,
                 j <= S n /\ s <= j /\ (0 < S n -> 0 < j)
                 /\ http_calls (snd (out, w1)) = (http_calls w ++ repeat req j)%list
                 /\ sleeps (snd (out, w1)) = (sleeps w ++ backoff a s)%list).
    { intros out _ Hs. exists 1, 0. cbn. rewrite app_nil_r.
      repeat split; try lia; assumption. }
    destruct Hsleeps as [[Hr Hs]|[Hr Hs]].
    + subst r. destruct (IH (S a) w1) as (j & s & Hj & Hsj & _ & Hc & Hsl).
      exists (S j), (S s). repeat split; try lia.
      * rewrite Hc, Hcalls, <- app_assoc. reflexivity.
      * rewrite Hsl, Hs, <- app_assoc, backoff_cons. reflexivity.
    + destruct r as [[response|]| | |]; try (apply Hstop; assumption).
      contradiction.
Qed.

(** However a call of a request method ends, it has issued at most
    [max_retries] requests, at least one when [max_retries] is positive, all
    of them the same request; it has slept at most once per request, for
    [2^0, 2^1, ...] in that order; and it has done so whatever the transport
    answers. *)
Theorem requests_are_bounded :
  forall E url headers proxies timeout_duration max_retries payload w,
    let cost (req : Request) (out : Outcome Response * World) :=
      exists j s,
        j <= Z.to_nat max_retries /\ s <= j /\ ((0 < max_retries)%Z -> 0 < j)
        /\ accounted req j s w (snd out) in
    cost (get_request url headers proxies timeout_duration)
      (AbstractPbiAPI.make_api_get_request E url headers proxies timeout_duration
         max_retries w)
    /\ cost (post_request url headers proxies timeout_duration payload)
         (AbstractPbiAPI.make_api_post_request E url headers proxies timeout_duration
            max_retries payload w)
    /\ cost (delete_request url headers proxies timeout_duration)
         (AbstractPbiAPI.make_api_delete_request E url headers proxies timeout_duration
            max_retries w).
Proof.
  intros E url headers proxies timeout_duration max_retries payload w cost.
  assert (Hcost : forall body req,
             attempt_costs body req ->
             cost req (for_attempts body (range max_retries)
                         (raise (mkExn APIError AbstractPbiAPI.max_retries_message None))
                         w)).
  { intros body req Hbody.
    destruct (loop_costs body req
                (mkExn APIError AbstractPbiAPI.max_retries_message None) Hbody
                (Z.to_nat max_retries) 0 w) as (j & s & Hj & Hs & Hpos & Hc & Hsl).
    exists j, s. unfold accounted, range. repeat split; try assumption.
    intros Hmax. apply Hpos. lia. }
  split; [|split].
  - apply Hcost, get_attempt_costs.
  - apply Hcost, post_attempt_costs.
  - apply Hcost, delete_attempt_costs.
Qed.

Lemma requests_are_bounded_witness :
  exists j s,
    j <= 5 /\ s <= j /\ ((0 < 5)%Z -> 0 < j)
    /\ accounted (get_request "u" None None 10) j s fresh_world
         (snd (AbstractPbiAPI.make_api_get_request env_404 "u" None None 10 5
                 fresh_world)).
Proof.
  exact (proj1 (requests_are_bounded env_404 "u" None None 10 5 None fresh_world)).
Defined.

(** ** Authentication: what a returned client looks like *)

Lemma authenticated_after_discard : forall E self token self' w w2 w',
  logins w <= logins w2 ->
  authenticated E (discarded self token) self' w2 w' ->
  authenticated E self self' w w'.
Proof.
  intros E self token self' w w2 w' Hle (t & claims & Ha & Hh & Hd & Hu & Hp & Hsrc).
  exists t, claims. repeat split; try assumption.
  right. destruct Hsrc as [(_ & Hsaved & _)|(Hlt & Hget & Htr)].
  - discriminate.
  - repeat split; try assumption. lia.
Qed.

(** One call of [authenticate] that returns: the token it tried decoded, or
    it returns what the call on the discarded token returned. *)
Lemma authenticate_step : forall E fuel self w self' w',
  AbstractPbiAPI.authenticate E (S fuel) self w = (Return self', w') ->
  authenticated E self self' w w'
  \/ exists token w2,
       logins w <= logins w2
       /\ AbstractPbiAPI.authenticate E fuel (discarded self token) w2
          = (Return self', w').
Proof.
  intros E fuel self w self' w' H.
  cbn [AbstractPbiAPI.authenticate] in H. unfold bind at 1 in H.
  destruct (truthy_str (saved_token self)) eqn:Htruthy; cbn [negb] in H.
  - assert (exists saved, saved_token self = Some saved) as [saved Hs].
    { destruct (saved_token self); [eauto|discriminate]. }
    replace (match saved_token self with Some t => t | None => "" end) with saved in H
      by (rewrite Hs; reflexivity).
    unfold ret at 1 in H.
    assert (Hcase : (exists self1, AbstractPbiAPI.__user_info E
                {| proxies := proxies self; user := user self;
                   saved_token := saved_token self; access_token := Some saved;
                   header := Some [("Authorization", ("Bearer " ++ saved)%string)] |}
                = Ok self1)
              \/ (exists e, AbstractPbiAPI.__user_info E
                {| proxies := proxies self; user := user self;
                   saved_token := saved_token self; access_token := Some saved;
                   header := Some [("Authorization", ("Bearer " ++ saved)%string)] |}
                = Err e)).
    { destruct (AbstractPbiAPI.__user_info E _); eauto. }
    destruct Hcase as [[self1 Hinfo]|[e Hinfo]].
    + left. unfold try_except in H. rewrite Hinfo in H. cbn [lift] in H. unfold ret in H.
      injection H as <- <-.
      unfold AbstractPbiAPI.__user_info in Hinfo. cbn [access_token] in Hinfo.
      destruct (jwt_decode E saved) as [claims|] eqn:Hd; [|discriminate].
      destruct (lookup "upn" claims) as [upn|] eqn:Hu; [|discriminate].
      injection Hinfo as <-. exists saved, claims. cbn.
      repeat split; try assumption. left. auto.
    + right. destruct (authenticate_after_failed_decode E fuel self saved w e Hinfo)
        as (entry & _ & Heq).
      rewrite Heq in H. eexists saved, _. split; [|exact H]. cbn. lia.
  - unfold InteractiveBrowserCredential_get_token in H.
    destruct (get_token E (logins w)) as [t|e0] eqn:Hget; [|discriminate].
    assert (Hcase : (exists self1, AbstractPbiAPI.__user_info E
                {| proxies := proxies self; user := user self;
                   saved_token := saved_token self; access_token := Some t;
                   header := Some [("Authorization", ("Bearer " ++ t)%string)] |}
                = Ok self1)
              \/ (exists e, AbstractPbiAPI.__user_info E
                {| proxies := proxies self; user := user self;
                   saved_token := saved_token self; access_token := Some t;
                   header := Some [("Authorization", ("Bearer " ++ t)%string)] |}
                = Err e)).
    { destruct (AbstractPbiAPI.__user_info E _); eauto. }
    destruct Hcase as [[self1 Hinfo]|[e Hinfo]].
    + left. unfold try_except in H. rewrite Hinfo in H. cbn [lift] in H. unfold ret in H.
      injection H as <- <-.
      unfold AbstractPbiAPI.__user_info in Hinfo. cbn [access_token] in Hinfo.
      destruct (jwt_decode E t) as [claims|] eqn:Hd; [|discriminate].
      destruct (lookup "upn" claims) as [upn|] eqn:Hu; [|discriminate].
      injection Hinfo as <-. exists t, claims. cbn.
      repeat split; try assumption. right.
      repeat split; try assumption; [lia|].
      rewrite Nat.sub_0_r. exact Hget.
    + right. destruct (authenticate_after_failed_decode E fuel self t
                  {| http_calls := http_calls w; sleeps := sleeps w; log := log w;
                     logins := S (logins w); PbiAPI_instance := PbiAPI_instance w;
                     heap := heap w |} e Hinfo) as (entry & _ & Heq).
      rewrite Heq in H. eexists t, _. split; [|exact H]. cbn. lia.
Qed.

Lemma authenticate_postcondition : forall E fuel self w self' w',
  AbstractPbiAPI.authenticate E fuel self w = (Return self', w') ->
  authenticated E self self' w w'.
Proof.
  intros E. induction fuel as [|fuel IH]; intros self w self' w' H; [discriminate|].
  destruct (authenticate_step E fuel self w self' w' H)
    as [Hdone|(token & w2 & Hle & Hnext)]; [exact Hdone|].
  apply (authenticated_after_discard E self token self' w w2 w' Hle).
  apply (IH _ _ _ _ Hnext).
Qed.

(** Whenever [authenticate] returns, the client it returns is consistent:
    the access token decodes, [user] is its [upn] claim, [header] is
    [Authorization: Bearer <token>], the proxies are those it started with,
    and the token is the saved token (no login was made) or the token of the
    last login. *)
Theorem authenticate_returns_consistent_client :
  forall E fuel self w self' w',
    AbstractPbiAPI.authenticate E fuel self w = (Return self', w') ->
    authenticated E self self' w w'.
Proof.
  intros E. induction fuel as [|fuel IH]; intros self w self' w' H; [discriminate|].
  destruct (authenticate_step E fuel self w self' w' H)
    as [Hdone|(token & w2 & Hle & Hnext)].
  - exact Hdone.
  - apply IH in Hnext.
    destruct Hnext as (t & claims & Ha & Hh & Hd & Hu & Hp & Hsrc).
    exists t, claims. repeat split; try assumption.
    right. destruct Hsrc as [(_ & Hsaved & _)|(Hlt & Hget & Htr)].
    + discriminate.
    + repeat split; try assumption. lia.
Qed.

Lemma authenticate_returns_consistent_client_witness :
  let out := AbstractPbiAPI.authenticate env_two_stale 3
               (client_with_saved_token "stale") fresh_world in
  exists self',
    fst out = Return self'
    /\ authenticated env_two_stale (client_with_saved_token "stale") self'
         fresh_world (snd out).
Proof.
  intros out.
  destruct (AbstractPbiAPI.authenticate env_two_stale 3
              (client_with_saved_token "stale") fresh_world) as [r w'] eqn:Hrun.
  destruct r as [self'| | |]; try (vm_compute in Hrun; discriminate).
  exists self'. split; [reflexivity|].
  apply (authenticate_returns_consistent_client env_two_stale 3 _ _ _ _ Hrun).
Defined.

(** A saved token that decodes is used as it is: [authenticate] returns
    without a login and without a log entry, in the world it started in. *)
Theorem usable_saved_token_is_kept :
  forall E fuel self saved w,
    saved_token self = Some saved ->
    saved <> "" ->
    usable E saved = true ->
    exists self',
      AbstractPbiAPI.authenticate E (S fuel) self w = (Return self', w)
      /\ access_token self' = Some saved
      /\ saved_token self' = Some saved
      /\ header self' = Some [("Authorization", ("Bearer " ++ saved)%string)].
Proof.
  intros E fuel self saved w Hsaved Hne Hu.
  cbn [AbstractPbiAPI.authenticate].
  assert (Htruthy : truthy_str (saved_token self) = true).
  { rewrite Hsaved. cbn. destruct (String.eqb_spec saved ""); [contradiction|reflexivity]. }
  rewrite Htruthy. cbn [negb].
  replace (match saved_token self with Some t => t | None => "" end) with saved
    by (rewrite Hsaved; reflexivity).
  unfold bind at 1. unfold ret at 1.
  unfold try_except, AbstractPbiAPI.__user_info. cbn [access_token].
  unfold usable in Hu.
  destruct (jwt_decode E saved) as [claims|]; [|discriminate].
  destruct (lookup "upn" claims) as [upn|]; [|discriminate].
  cbn [lift]. unfold ret. eexists. split; [reflexivity|]. cbn. auto.
Qed.

Lemma usable_saved_token_is_kept_witness :
  exists self',
    AbstractPbiAPI.authenticate env_two_stale 1 (client_with_saved_token "good")
      fresh_world = (Return self', fresh_world)
    /\ access_token self' = Some "good"
    /\ saved_token self' = Some "good"
    /\ header self' = Some [("Authorization", "Bearer good")].
Proof.
  apply (usable_saved_token_is_kept env_two_stale 0 (client_with_saved_token "good")
           "good" fresh_world); [reflexivity|discriminate|reflexivity].
Defined.

(** ** Authentication: giving up *)

Lemma authenticate_login_raises_fresh : forall E k fuel self w e,
  truthy_str (saved_token self) = false ->
  (forall i, i < k ->
     exists t, get_token E (logins w + i) = Ok t /\ usable E t = false) ->
  get_token E (logins w + k) = Err e ->
  k < fuel ->
  exists w',
    AbstractPbiAPI.authenticate E fuel self w = (Raise e, w')
    /\ logins w' = logins w + S k
    /\ reauthentications w' = reauthentications w + k.
Proof.
  intros E. induction k as [|k IH]; intros fuel self w e Hs Hbad Hraise Hfuel;
    (destruct fuel as [|fuel]; [lia|]); cbn [AbstractPbiAPI.authenticate];
    rewrite Hs; cbn [negb]; unfold bind at 1;
    unfold InteractiveBrowserCredential_get_token.
  - rewrite Nat.add_0_r in Hraise. rewrite Hraise.
    eexists. split; [reflexivity|]. cbn [logins]. split; [lia|].
    unfold reauthentications. cbn [log]. lia.
  - destruct (Hbad 0) as (t & Ht & Hu); [lia|]. rewrite Nat.add_0_r in Ht. rewrite Ht.
    destruct (user_info_unusable E
                {| proxies := proxies self; user := user self;
                   saved_token := saved_token self; access_token := Some t;
                   header := Some [("Authorization", ("Bearer " ++ t)%string)] |}
                t eq_refl Hu) as (e0 & He).
    destruct (authenticate_after_failed_decode E fuel self t
                {| http_calls := http_calls w; sleeps := sleeps w; log := log w;
                   logins := S (logins w); PbiAPI_instance := PbiAPI_instance w;
                   heap := heap w |} e0 He) as (entry & Hentry & ->).
    cbn [http_calls sleeps log logins PbiAPI_instance heap].
    match goal with
    | |- context [AbstractPbiAPI.authenticate E fuel ?s ?w2] =>
        destruct (IH fuel s w2 e) as (w' & Hrun & Hlogins & Hre)
    end.
    + reflexivity.
    + intros i Hi. cbn [logins].
      replace (S (logins w) + i) with (logins w + S i) by lia. apply Hbad. lia.
    + cbn [logins].
      replace (S (logins w) + k) with (logins w + S k) by lia. exact Hraise.
    + lia.
    + exists w'. split; [exact Hrun|]. cbn [logins] in Hlogins.
      split; [lia|]. rewrite Hre.
      pose proof (reauthentications_logged
                    {| http_calls := http_calls w; sleeps := sleeps w; log := log w;
                       logins := S (logins w); PbiAPI_instance := PbiAPI_instance w;
                       heap := heap w |} entry Hentry) as Hlog.
      cbn [http_calls sleeps log logins PbiAPI_instance heap] in Hlog.
      rewrite Hlog. unfold reauthentications. cbn [log]. lia.
Qed.

Lemma user_info_failed_unusable : forall E self token e,
  AbstractPbiAPI.__user_info E self = Err e ->
  access_token self = Some token ->
  usable E token = false.
Proof.
  intros E self token e He Ht. unfold AbstractPbiAPI.__user_info, usable in *.
  rewrite Ht in He. destruct (jwt_decode E token) as [decoded|]; [|reflexivity].
  destruct (lookup "upn" decoded); [discriminate|reflexivity].
Qed.

(** Whatever [authenticate] raises was raised by a login: by the last one
    made, after logins that all returned a token that did not decode. *)
Lemma authenticate_raises_what_login_raised : forall E fuel self w e w',
  AbstractPbiAPI.authenticate E fuel self w = (Raise e, w') ->
  logins w < logins w'
  /\ get_token E (logins w' - 1) = Err e
  /\ (forall i, logins w <= i -> i < logins w' - 1 ->
        exists t, get_token E i = Ok t /\ usable E t = false).
Proof.
  intros E. induction fuel as [|fuel IH]; intros self w e w' H; [discriminate|].
  cbn [AbstractPbiAPI.authenticate] in H. unfold bind at 1 in H.
  destruct (truthy_str (saved_token self)) eqn:Htruthy; cbn [negb] in H.
  - assert (exists saved, saved_token self = Some saved) as [saved Hs].
    { destruct (saved_token self); [eauto|discriminate]. }
    replace (match saved_token self with Some t => t | None => "" end) with saved in H
      by (rewrite Hs; reflexivity).
    unfold ret at 1 in H.
    assert (Hcase : (exists self1, AbstractPbiAPI.__user_info E
                {| proxies := proxies self; user := user self;
                   saved_token := saved_token self; access_token := Some saved;
                   header := Some [("Authorization", ("Bearer " ++ saved)%string)] |}
                = Ok self1)
              \/ (exists e, AbstractPbiAPI.__user_info E
                {| proxies := proxies self; user := user self;
                   saved_token := saved_token self; access_token := Some saved;
                   header := Some [("Authorization", ("Bearer " ++ saved)%string)] |}
                = Err e)).
    { destruct (AbstractPbiAPI.__user_info E _); eauto. }
    destruct Hcase as [[self1 Hinfo]|[e0 Hinfo]].
    + unfold try_except in H. rewrite Hinfo in H. discriminate.
    + destruct (authenticate_after_failed_decode E fuel self saved w e0 Hinfo)
        as (entry & _ & Heq).
      rewrite Heq in H. apply IH in H. cbn [logins] in H. exact H.
  - unfold InteractiveBrowserCredential_get_token in H.
    destruct (get_token E (logins w)) as [t|e0] eqn:Hget.
    + assert (Hcase : (exists self1, AbstractPbiAPI.__user_info E
                {| proxies := proxies self; user := user self;
                   saved_token := saved_token self; access_token := Some t;
                   header := Some [("Authorization", ("Bearer " ++ t)%string)] |}
                = Ok self1)
              \/ (exists e, AbstractPbiAPI.__user_info E
                {| proxies := proxies self; user := user self;
                   saved_token := saved_token self; access_token := Some t;
                   header := Some [("Authorization", ("Bearer " ++ t)%string)] |}
                = Err e)).
      { destruct (AbstractPbiAPI.__user_info E _); eauto. }
      destruct Hcase as [[self1 Hinfo]|[e1 Hinfo]].
      * unfold try_except in H. rewrite Hinfo in H. discriminate.
      * pose proof (user_info_failed_unusable E _ t e1 Hinfo eq_refl) as Hu.
        destruct (authenticate_after_failed_decode E fuel self t
                    {| http_calls := http_calls w; sleeps := sleeps w; log := log w;
                       logins := S (logins w); PbiAPI_instance := PbiAPI_instance w;
                       heap := heap w |} e1 Hinfo) as (entry & _ & Heq).
        rewrite Heq in H. apply IH in H. cbn [logins] in H.
        destruct H as (Hlt & Hlast & Hbefore).
        split; [lia|]. split; [exact Hlast|].
        intros i Hlo Hhi. destruct (Nat.eq_dec i (logins w)) as [->|Hne].
        -- exists t. split; assumption.
        -- apply Hbefore; lia.
    + injection H as <- <-. cbn [logins]. split; [lia|].
      split; [replace (S (logins w) - 1) with (logins w) by lia; exact Hget|].
      intros i Hlo Hhi. lia.
Qed.

(** [authenticate] gives up only when the login itself raises, and then it
    raises the login's exception unchanged.  Whatever it raises is what the
    last login raised, and every login before that one returned a token that
    did not decode.  The other way round, when a login raises, without a
    saved token that is after [k + 1] logins and [k] re-authentications
    when the first [k] fresh tokens did not decode; with a saved token that
    does not decode it is after [k + 1] logins and [k + 1]
    re-authentications. *)
Theorem login_failure_ends_authentication :
  forall E fuel self w,
    (forall e w',
       AbstractPbiAPI.authenticate E fuel self w = (Raise e, w') ->
       logins w < logins w'
       /\ get_token E (logins w' - 1) = Err e
       /\ (forall i, logins w <= i -> i < logins w' - 1 ->
             exists t, get_token E i = Ok t /\ usable E t = false))
    /\ (forall k e,
          (forall i, i < k ->
             exists t, get_token E (logins w + i) = Ok t /\ usable E t = false) ->
          get_token E (logins w + k) = Err e ->
          S k < fuel ->
          (truthy_str (saved_token self) = false ->
           exists w',
             AbstractPbiAPI.authenticate E fuel self w = (Raise e, w')
             /\ logins w' = logins w + S k
             /\ reauthentications w' = reauthentications w + k)
          /\
          (forall saved,
             saved_token self = Some saved -> saved <> "" -> usable E saved = false ->
             exists w',
               AbstractPbiAPI.authenticate E fuel self w = (Raise e, w')
               /\ logins w' = logins w + S k
               /\ reauthentications w' = reauthentications w + S k)).
Proof.
  intros E fuel self w. split.
  { intros e w' H. apply (authenticate_raises_what_login_raised E fuel self w e w' H). }
  intros k e Hbad Hraise Hfuel. split.
  - intros Hs. apply authenticate_login_raises_fresh; auto. lia.
  - intros saved Hsaved Hne Hu.
    destruct fuel as [|fuel]; [lia|]. cbn [AbstractPbiAPI.authenticate].
    assert (Htruthy : truthy_str (saved_token self) = true).
    { rewrite Hsaved. cbn.
      destruct (String.eqb_spec saved ""); [contradiction|reflexivity]. }
    rewrite Htruthy. cbn [negb].
    replace (match saved_token self with Some t => t | None => "" end) with saved
      by (rewrite Hsaved; reflexivity).
    unfold bind at 1. unfold ret at 1.
    destruct (user_info_unusable E
                {| proxies := proxies self; user := user self;
                   saved_token := saved_token self; access_token := Some saved;
                   header := Some [("Authorization", ("Bearer " ++ saved)%string)] |}
                saved eq_refl Hu) as (e0 & He).
    destruct (authenticate_after_failed_decode E fuel self saved w e0 He)
      as (entry & Hentry & ->).
    match goal with
    | |- context [AbstractPbiAPI.authenticate E fuel ?s ?w2] =>
        destruct (authenticate_login_raises_fresh E k fuel s w2 e)
          as (w' & Hrun & Hlogins & Hre)
    end; try reflexivity; try assumption; try lia.
    exists w'. split; [exact Hrun|]. cbn [logins] in Hlogins.
    rewrite Hre, (reauthentications_logged w entry Hentry). split; lia.
Qed.

Lemma login_failure_ends_authentication_witness :
  let e := mkExn Exception "login window closed" None in
  let stale := client_with_saved_token "stale" in
  (exists w',
     AbstractPbiAPI.authenticate env_no_login 2 stale fresh_world = (Raise e, w')
     /\ logins w' = 1 /\ reauthentications w' = 1)
  /\ (forall e' w',
        AbstractPbiAPI.authenticate env_no_login 2 stale fresh_world = (Raise e', w') ->
        get_token env_no_login (logins w' - 1) = Err e').
Proof.
  intros e stale.
  assert (Hbad : forall i, i < 0 ->
            exists t, get_token env_no_login (logins fresh_world + i) = Ok t
                      /\ usable env_no_login t = false).
  { intros i Hi. inversion Hi. }
  destruct (login_failure_ends_authentication env_no_login 2 stale fresh_world)
    as [Honly Hraises].
  split.
  - apply (proj2 (Hraises 0 e Hbad eq_refl (le_n 2)) "stale");
      [reflexivity|discriminate|reflexivity].
  - intros e' w' H. apply (Honly e' w' H).
Defined.

(** [reauthenticate] never reuses the saved token: when it returns, at
    least one login was made, the token it returns is the one the client now
    holds and the one the last login gave, and no saved token is left. *)
Theorem reauthenticate_asks_the_provider :
  forall E fuel self w token self' w',
    AbstractPbiAPI.reauthenticate E fuel self w = (Return (token, self'), w') ->
    logins w < logins w'
    /\ token = access_token self'
    /\ (exists t, token = Some t /\ get_token E (logins w' - 1) = Ok t
                  /\ usable E t = true)
    /\ truthy_str (saved_token self') = false
    /\ proxies self' = proxies self.
Proof.
  intros E fuel self w token self' w' H.
  unfold AbstractPbiAPI.reauthenticate, AbstractPbiAPI.reauthenticate_via, bind, ret in H.
  destruct (AbstractPbiAPI.authenticate E fuel _ w) as [[s| | |] w1] eqn:Hrun;
    try discriminate.
  injection H as <- <- <-.
  apply authenticate_postcondition in Hrun.
  destruct Hrun as (t & claims & Ha & _ & Hd & Hu & Hp & Hsrc).
  destruct Hsrc as [(_ & Hsaved & _)|(Hlt & Hget & Htr)]; [discriminate|].
  repeat split; try assumption.
  exists t. repeat split; try assumption.
  unfold usable. rewrite Hd, Hu. reflexivity.
Qed.

Lemma reauthenticate_asks_the_provider_witness :
  let out := AbstractPbiAPI.reauthenticate env_two_stale 3
               (client_with_saved_token "good") fresh_world in
  exists token self',
    fst out = Return (token, self')
    /\ logins fresh_world < logins (snd out)
    /\ token = access_token self'.
Proof.
  intros out.
  destruct (AbstractPbiAPI.reauthenticate env_two_stale 3
              (client_with_saved_token "good") fresh_world) as [r w'] eqn:Hrun.
  destruct r as [[token self']| | |]; try (vm_compute in Hrun; discriminate).
  exists token, self'. split; [reflexivity|].
  destruct (reauthenticate_asks_the_provider env_two_stale 3 _ _ _ _ _ Hrun)
    as (Hlt & Htok & _).
  split; assumption.
Defined.

(** A client that [AbstractPbiAPI(proxy_url, saved_token)] returns routes
    http and https through [proxy_url] when one is given, and has no proxies
    when [proxy_url] is missing or empty; it is consistent as every
    authenticated client is. *)
Theorem client_init_sets_proxies :
  forall E fuel proxy_url saved_token client w w',
    AbstractPbiAPI.__init__ E fuel proxy_url saved_token w = (Return client, w') ->
    proxies client
    = match proxy_url with
      | Some url => if String.eqb url "" then None
                    else Some [("http", url); ("https", url)]
      | None => None
      end
    /\ exists token,
         access_token client = Some token
         /\ header client = Some [("Authorization", ("Bearer " ++ token)%string)]
         /\ usable E token = true.
Proof.
  intros E fuel proxy_url saved_token client w w' H.
  unfold AbstractPbiAPI.__init__ in H.
  apply authenticate_postcondition in H.
  destruct H as (t & claims & Ha & Hh & Hd & Hu & Hp & _). split.
  - rewrite Hp. destruct proxy_url as [url|]; [|reflexivity].
    cbn [truthy_str]. destruct (String.eqb url ""); reflexivity.
  - exists t. repeat split; try assumption.
    unfold usable. rewrite Hd, Hu. reflexivity.
Qed.

Lemma client_init_sets_proxies_witness :
  let out := AbstractPbiAPI.__init__ env_200 1 (Some "http://proxy:8080") None
               fresh_world in
  exists client,
    fst out = Return client
    /\ proxies client
       = Some [("http", "http://proxy:8080"); ("https", "http://proxy:8080")].
Proof.
  intros out.
  destruct (AbstractPbiAPI.__init__ env_200 1 (Some "http://proxy:8080") None
              fresh_world) as [r w'] eqn:Hrun.
  destruct r as [client| | |]; try (vm_compute in Hrun; discriminate).
  exists client. split; [reflexivity|].
  exact (proj1 (client_init_sets_proxies env_200 1 _ _ _ _ _ Hrun)).
Defined.

(** ** What authentication and construction never do *)

Section Quiet.
Context (I : World -> Prop) (HI : traffic_only I).

Lemma quiet_logger : forall level message, keeps I (logger level message).
Proof. intros level message w H. apply (HI w); auto. Qed.

Lemma quiet_get_token : forall E, keeps I (InteractiveBrowserCredential_get_token E).
Proof.
  intros E w H. unfold InteractiveBrowserCredential_get_token.
  destruct (get_token E _); apply (HI w); auto.
Qed.

Lemma quiet_authenticate : forall E fuel self,
  keeps I (AbstractPbiAPI.authenticate E fuel self).
Proof.
  intros E. induction fuel as [|fuel IH]; intros self;
    cbn [AbstractPbiAPI.authenticate]; [apply keeps_out_of_fuel|].
  apply keeps_bind.
  - apply keeps_if; [apply quiet_get_token|apply keeps_ret].
  - intros token. apply keeps_try_except; [apply keeps_lift|].
    intros e. repeat apply keeps_if; try apply keeps_raise;
      (apply keeps_bind; [apply quiet_logger|]; intros _;
       apply keeps_bind; [|intros r; apply keeps_ret];
       unfold AbstractPbiAPI.reauthenticate_via;
       apply keeps_bind; [apply IH|intros s; apply keeps_ret]).
Qed.

Lemma quiet_reauthenticate : forall E fuel self,
  keeps I (AbstractPbiAPI.reauthenticate E fuel self).
Proof.
  intros E fuel self.
  unfold AbstractPbiAPI.reauthenticate, AbstractPbiAPI.reauthenticate_via.
  apply keeps_bind; [apply quiet_authenticate|intros s; apply keeps_ret].
Qed.

Lemma quiet_shared : forall E fuel proxy_url saved_token,
  keeps I (PbiAPI.shared E fuel proxy_url saved_token).
Proof.
  intros E fuel proxy_url saved_token. unfold PbiAPI.shared.
  apply keeps_bind.
  - intros w H. unfold SingletonMeta.__call__.
    destruct (PbiAPI_instance w); [exact H|]. apply (HI w); auto.
  - intros self. unfold PbiAPI.pbi_api.
    destruct (_pbi_api self); [apply keeps_ret|].
    apply keeps_bind.
    + unfold PbiAPI.new_AbstractPbiAPI. apply keeps_bind.
      * unfold AbstractPbiAPI.__init__. apply quiet_authenticate.
      * intros client w H. apply (HI w); auto.
    + intros ref w H. apply (HI w); auto.
Qed.

Lemma quiet_constructors : forall E fuel proxy_url saved_token parent kwargs,
  keeps I (AbstractPbiAPI.__init__ E fuel proxy_url saved_token)
  /\ keeps I (Service.__init__ E fuel proxy_url saved_token)
  /\ keeps I (Workspace.__init__ E fuel parent kwargs)
  /\ keeps I (Report.__init__ E fuel parent kwargs).
Proof.
  intros E fuel proxy_url saved_token parent kwargs.
  split; [|split; [|split]].
  - unfold AbstractPbiAPI.__init__. apply quiet_authenticate.
  - unfold Service.__init__.
    apply keeps_bind; [apply quiet_shared|intros api; apply keeps_ret].
  - unfold Workspace.__init__.
    apply keeps_bind; [apply quiet_shared|intros api; apply keeps_ret].
  - unfold Report.__init__.
    apply keeps_bind; [apply quiet_shared|intros api; apply keeps_ret].
Qed.
End Quiet.

Lemma same_traffic_only : forall w, traffic_only (same_traffic w).
Proof.
  intros w w1 w2 Hc Hs [H1 H2]. unfold same_traffic. split; congruence.
Qed.

(** Authentication and construction never touch the HTTP transport and
    never sleep: however [authenticate], [reauthenticate], the constructor
    of the client, and the constructors of [Service], [Workspace] and
    [Report] end, the requests issued and the sleeps taken are those of the
    world they started in. *)
Theorem construction_issues_no_request :
  forall E fuel self proxy_url saved_token parent kwargs w,
    same_traffic w (snd (AbstractPbiAPI.authenticate E fuel self w))
    /\ same_traffic w (snd (AbstractPbiAPI.reauthenticate E fuel self w))
    /\ same_traffic w (snd (AbstractPbiAPI.__init__ E fuel proxy_url saved_token w))
    /\ same_traffic w (snd (Service.__init__ E fuel proxy_url saved_token w))
    /\ same_traffic w (snd (Workspace.__init__ E fuel parent kwargs w))
    /\ same_traffic w (snd (Report.__init__ E fuel parent kwargs w)).
Proof.
  intros E fuel self proxy_url saved_token parent kwargs w.
  assert (Hw : same_traffic w w) by (split; reflexivity).
  destruct (quiet_constructors (same_traffic w) (same_traffic_only w) E fuel
              proxy_url saved_token parent kwargs) as (Hc & Hs & Hws & Hr).
  repeat split;
    first [ apply (quiet_authenticate (same_traffic w) (same_traffic_only w)); exact Hw
          | apply (quiet_reauthenticate (same_traffic w) (same_traffic_only w)); exact Hw
          | apply Hc; exact Hw | apply Hs; exact Hw
          | apply Hws; exact Hw | apply Hr; exact Hw ].
Qed.

(** ** The shared client: later accesses *)

Lemma shared_existing : forall E fuel proxy_url saved_token w,
  one_client w -> heap w <> [] ->
  PbiAPI.shared E fuel proxy_url saved_token w = (Return 0, w).
Proof.
  intros E fuel proxy_url saved_token w Hone Hne.
  unfold one_client in Hone. unfold PbiAPI.shared, bind, SingletonMeta.__call__.
  destruct (PbiAPI_instance w) as [self|]; [|contradiction].
  unfold PbiAPI.pbi_api. destruct (_pbi_api self) as [ref|]; [|contradiction].
  destruct Hone as [-> _]. reflexivity.
Qed.

(** Once an access through [PbiAPI(...).pbi_api] has returned, every later
    access, whatever its arguments and whatever the outside answers, returns
    the same reference and leaves the world exactly as it is: no login, no
    log entry, no new client.  (The singleton metaclass is as the
    specification describes it.) *)
Theorem later_access_changes_nothing :
  forall E fuel proxy_url saved_token w ref w1,
    one_client w ->
    PbiAPI.shared E fuel proxy_url saved_token w = (Return ref, w1) ->
    forall E' fuel' proxy_url' saved_token',
      PbiAPI.shared E' fuel' proxy_url' saved_token' w1 = (Return ref, w1).
Proof.
  intros E fuel proxy_url saved_token w ref w1 Hone H E' fuel' proxy_url' saved_token'.
  destruct (shared_spec E fuel proxy_url saved_token w Hone) as (H1 & H2 & _).
  rewrite H in H1, H2. cbn [fst snd] in *.
  destruct (H2 ref eq_refl) as [-> Hlen].
  apply shared_existing; [exact H1|].
  intros Hnil. rewrite Hnil in Hlen. discriminate.
Qed.

Lemma later_access_changes_nothing_witness :
  let out := PbiAPI.shared env_200 1 (Some "http://proxy") None fresh_world in
  fst out = Return 0
  /\ PbiAPI.shared env_no_login 0 None (Some "other") (snd out) = (Return 0, snd out).
Proof.
  intros out. split; [reflexivity|].
  apply (later_access_changes_nothing env_200 1 (Some "http://proxy") None
           fresh_world 0 (snd out)); reflexivity.
Defined.

(** A first access that fails is not remembered as a client, but its
    arguments are: when the first [PbiAPI(proxy_url, saved_token).pbi_api]
    of a process raises, no client exists afterwards, and a later access
    builds the client from the proxy and the saved token of that first call,
    not from its own.  (The singleton metaclass is as the specification
    describes it.) *)
Theorem failed_access_keeps_first_arguments :
  forall E fuel proxy_url saved_token w e w1,
    PbiAPI_instance w = None ->
    heap w = [] ->
    PbiAPI.shared E fuel proxy_url saved_token w = (Raise e, w1) ->
    heap w1 = []
    /\ forall E' fuel' proxy_url' saved_token',
         PbiAPI.shared E' fuel' proxy_url' saved_token' w1
         = PbiAPI.shared E' fuel' proxy_url saved_token w1
         /\ PbiAPI.shared E' fuel' proxy_url' saved_token' w1
            = PbiAPI.pbi_api E' fuel' (PbiAPI.__init__ proxy_url saved_token) w1.
Proof.
  intros E fuel proxy_url saved_token w e w1 Hnone Hheap H.
  unfold PbiAPI.shared, bind, SingletonMeta.__call__ in H. rewrite Hnone in H.
  unfold PbiAPI.pbi_api in H. cbn [_pbi_api PbiAPI.__init__] in H.
  unfold PbiAPI.new_AbstractPbiAPI, bind in H.
  change (PbiAPI_proxy_url (PbiAPI.__init__ proxy_url saved_token))
    with proxy_url in H.
  change (PbiAPI_saved_token (PbiAPI.__init__ proxy_url saved_token))
    with saved_token in H.
  match type of H with
  | context [AbstractPbiAPI.__init__ E fuel proxy_url saved_token ?w0] =>
      destruct (client_init_frame E fuel proxy_url saved_token w0) as [Hh Hp];
      destruct (AbstractPbiAPI.__init__ E fuel proxy_url saved_token w0)
        as [[client|e0| |] w2]; try discriminate
  end.
  injection H as <- <-. cbn [fst snd heap PbiAPI_instance] in *.
  split; [congruence|].
  intros E' fuel' proxy_url' saved_token'.
  unfold PbiAPI.shared, bind, SingletonMeta.__call__. rewrite Hp. split; reflexivity.
Qed.

Lemma failed_access_keeps_first_arguments_witness :
  let out := PbiAPI.shared env_no_login 2 None (Some "stale") fresh_world in
  (exists e, fst out = Raise e)
  /\ heap (snd out) = []
  /\ PbiAPI.shared env_two_stale 2 None (Some "good") (snd out)
     = PbiAPI.shared env_two_stale 2 None (Some "stale") (snd out).
Proof.
  cbv zeta.
  destruct (PbiAPI.shared env_no_login 2 None (Some "stale") fresh_world)
    as [r w1] eqn:Hrun.
  destruct r as [ref|e| |]; try (vm_compute in Hrun; discriminate).
  destruct (failed_access_keeps_first_arguments env_no_login 2 None (Some "stale")
              fresh_world e w1 eq_refl eq_refl Hrun) as (Hheap & Hlater).
  cbn [fst snd]. split; [exists e; reflexivity|]. split; [exact Hheap|].
  exact (proj1 (Hlater env_two_stale 2 None (Some "good"))).
Defined.

(** ** Fetches: all or nothing *)

Ltac fetch_atomic self :=
  let response := fresh "response" in
  let data := fresh "data" in
  let w1 := fresh "w1" in
  unfold atomic, lift, bind, get_self, in_world, set_self, raise, logger, ret;
  cbn [fst snd];
  match goal with
  | |- context [fetch_json ?E ?api ?url ?w] =>
      destruct (fetch_json E api url w) as [[[response data]| | |] w1]
  end;
  cbn [fst snd];
  try (split; [right; reflexivity|destruct self; reflexivity]);
  destruct data; cbn [fst snd];
  try (split; [right; reflexivity|destruct self; reflexivity]);
  match goal with
  | |- context [py_iter ?v] => destruct (py_iter v)
  end;
  cbn [fst snd];
  try (split; [right; reflexivity|destruct self; reflexivity]);
  match goal with
  | |- context [set_comprehension ?new ?hash ?eq ?items ?acc ?w2] =>
      destruct (set_comprehension new hash eq items acc w2) as [[?s| | |] ?w3]
  end;
  cbn [fst snd];
  first [ split; [left; reflexivity|reflexivity]
        | split; [right; reflexivity|destruct self; reflexivity] ].

(** A fetch either succeeds or leaves its object exactly as it was, whatever
    made it fail (the request, the body, an item, a hash); and when it
    succeeds it assigns its own collection and nothing else.
    [get_workspace] returns the workspace it built and never changes the
    service. *)
Theorem fetch_is_all_or_nothing :
  forall E fuel top skip filter workspace_id,
    (forall (self : Workspace_t) w,
       atomic self (fun self' => self' = Workspace.with_reports self (reports self'))
         (Workspace.get_reports E fuel (self, w))
       /\ atomic self
            (fun self' =>
               self' = Workspace.with_semantic_models self (semantic_models self'))
            (Workspace.get_semantic_models E (self, w))
       /\ atomic self (fun self' => self' = Workspace.with_users self (users self'))
            (Workspace.get_users E top skip (self, w))
       /\ atomic self
            (fun self' => self' = Workspace.with_dashboards self (dashboards self'))
            (Workspace.get_dashboards E (self, w)))
    /\ (forall (self : Service_t) w,
          atomic self (fun self' => self' = with_workspaces self (workspaces self'))
            (Service.get_workspaces E fuel filter top skip (self, w))
          /\ atomic self (fun self' => self' = with_apps self (apps self'))
               (Service.get_apps E (self, w))
          /\ fst (snd (Service.get_workspace E fuel workspace_id (self, w))) = self).
Proof.
  intros E fuel top skip filter workspace_id. split.
  - intros self w. split; [|split; [|split]].
    + unfold Workspace.get_reports. fetch_atomic self.
    + unfold Workspace.get_semantic_models. fetch_atomic self.
    + unfold Workspace.get_users. fetch_atomic self.
    + unfold Workspace.get_dashboards. fetch_atomic self.
  - intros self w. split; [|split].
    + unfold Service.get_workspaces. fetch_atomic self.
    + unfold Service.get_apps. fetch_atomic self.
    + unfold Service.get_workspace, bind, get_self, in_world, raise, logger.
      cbn [fst snd].
      match goal with
      | |- context [fetch_json ?E ?api ?url ?w] =>
          destruct (fetch_json E api url w) as [[[response data]| | |] w1]
      end; cbn [fst snd]; try reflexivity.
      destruct data; cbn [fst snd]; try reflexivity.
      match goal with
      | |- context [Workspace.new ?E ?fuel ?p ?item ?w2] =>
          destruct (Workspace.new E fuel p item w2) as [r w3]
      end. reflexivity.
Qed.

(** ** Fetches: a mapping without a usable ["value"] *)

Lemma py_iter_error_is_TypeError : forall v e,
  py_iter v = Err e -> exn_class e = TypeError.
Proof.
  intros v e H. destruct v; cbn in H; try discriminate; injection H as <-; reflexivity.
Qed.

Ltac fetch_without_value H :=
  let response := fresh "response" in
  let data := fresh "data" in
  let w1 := fresh "w1" in
  let e := fresh "e" in
  let Hf := fresh "Hf" in
  let Hv := fresh "Hv" in
  destruct H as (response & data & w1 & e & Hf & Hv);
  unfold type_error_unchanged, lift, bind, get_self, in_world, set_self,
    raise, logger, ret;
  cbn [fst snd]; cbv zeta in Hf |- *;
  rewrite Hf; cbn [fst snd]; rewrite Hv; cbn [fst snd];
  (split; [exists e; split;
             [reflexivity|exact (py_iter_error_is_TypeError _ e Hv)]
          |reflexivity]).

(** When the answer to its GET is a mapping whose ["value"] is missing,
    null, a number or a boolean, a fetch of a child collection raises a
    [TypeError] and leaves its object as it was.  What the server answers at
    other endpoints plays no part. *)
Theorem fetch_without_value_fails_unchanged :
  forall E fuel top skip filter,
    (forall (self : Workspace_t) w,
       (answered_without_value E (Workspace_api self) (reports_url E self) w ->
        type_error_unchanged self (Workspace.get_reports E fuel (self, w)))
       /\ (answered_without_value E (Workspace_api self) (semantic_models_url E self) w ->
           type_error_unchanged self (Workspace.get_semantic_models E (self, w)))
       /\ (answered_without_value E (Workspace_api self) (users_url E self top skip) w ->
           type_error_unchanged self (Workspace.get_users E top skip (self, w)))
       /\ (answered_without_value E (Workspace_api self) (dashboards_url E self) w ->
           type_error_unchanged self (Workspace.get_dashboards E (self, w))))
    /\ (forall (self : Service_t) w,
          (answered_without_value E (Service_api self)
             (workspaces_url filter top skip) w ->
           type_error_unchanged self
             (Service.get_workspaces E fuel filter top skip (self, w)))
          /\ (answered_without_value E (Service_api self) apps_url w ->
              type_error_unchanged self (Service.get_apps E (self, w)))).
Proof.
  intros E fuel top skip filter. split.
  - intros self w. split; [|split; [|split]]; intros H.
    + unfold Workspace.get_reports, reports_url in *. fetch_without_value H.
    + unfold Workspace.get_semantic_models, semantic_models_url in *.
      fetch_without_value H.
    + unfold Workspace.get_users, users_url in *. fetch_without_value H.
    + unfold Workspace.get_dashboards, dashboards_url in *. fetch_without_value H.
  - intros self w. split; intros H.
    + unfold Service.get_workspaces, workspaces_url in *. fetch_without_value H.
    + unfold Service.get_apps, apps_url in *. fetch_without_value H.
Qed.

Lemma fetch_without_value_fails_unchanged_witness :
  let E := env_empty_object_at "https://api.powerbi.com/v1.0/myorg/apps" in
  let self := sample_workspace E in
  let service := fst (started E) in
  let w := snd (started E) in
  type_error_unchanged service (Service.get_apps E (service, w))
  /\ fst (Workspace.get_reports E 2 (self, w)) = Return tt.
Proof.
  intros E self service w. split.
  - apply (proj2 (proj2 (fetch_without_value_fails_unchanged E 2 None None None)
                    service w)).
    do 4 eexists. split; vm_compute; reflexivity.
  - vm_compute. reflexivity.
Defined.

(** ** Fetches: the set that is assigned *)

Lemma ForallOrdPairs_snoc : forall (A : Type) (R : A -> A -> Prop) s x,
  ForallOrdPairs R s -> Forall (fun y => R y x) s -> ForallOrdPairs R (s ++ [x]).
Proof.
  intros A R s x Hs Hx. induction Hs as [|y s Hy Hs IH]; cbn.
  - constructor; constructor.
  - inversion Hx; subst. constructor.
    + apply Forall_app. split; [exact Hy|]. constructor; [assumption|constructor].
    + apply IH. assumption.
Qed.

Lemma collected_distinct : forall (A : Type) (eq : A -> A -> bool) xs acc,
  pairwise_distinct eq acc -> pairwise_distinct eq (collected eq xs acc).
Proof.
  intros A eq. induction xs as [|x xs IH]; intros acc Hacc; [exact Hacc|].
  cbn [collected]. apply IH.
  destruct (existsb (fun y => eq y x) acc) eqn:Hex; [exact Hacc|].
  apply ForallOrdPairs_snoc; [exact Hacc|].
  apply Forall_forall. intros y Hy.
  destruct (eq y x) eqn:Hyx; [|reflexivity].
  assert (existsb (fun y => eq y x) acc = true) by (apply existsb_exists; eauto).
  congruence.
Qed.

(** What [collected] returns holds the first of each group of equal
    entities, when equality is transitive on them. *)
Lemma collected_holds_the_first_of_each :
  forall (A : Type) (eq : A -> A -> bool) (P : A -> Prop) xs,
    (forall a b c, P a -> eq a b = true -> eq b c = true -> eq a c = true) ->
    Forall P xs ->
    holds_the_first_of_each eq xs (collected eq xs []).
Proof.
  intros A eq P xs Htrans HP. split; [|split].
  - apply collected_distinct. constructor.
  - intros x Hx. apply collected_from in Hx as [[]|Hx]. exact Hx.
  - intros pre x post ->.
    destruct (existsb (fun y => eq y x) pre) eqn:Hex;
      [|apply collected_first_stays; exact Hex].
    apply existsb_exists in Hex as (y0 & Hy0 & Hy0x).
    assert (Hkept : forall z, In z (collected eq pre []) ->
              In z pre /\ In z (collected eq (pre ++ x :: post) [])).
    { intros z Hz. split.
      - apply collected_from in Hz as [[]|Hz]. exact Hz.
      - rewrite collected_app. apply collected_keeps. exact Hz. }
    destruct (collected_covers A eq pre [] y0 Hy0) as [Hin|(z & Hz & Hzy)].
    + exists y0. destruct (Hkept y0 Hin). auto.
    + exists z. destruct (Hkept z Hz) as [Hpre Hs]. split; [exact Hpre|].
      split; [exact Hs|].
      apply (Htrans z y0 x); [|exact Hzy|exact Hy0x].
      rewrite Forall_forall in HP. apply HP. apply in_or_app. left. exact Hpre.
Qed.

(** *** The five kinds of entity *)

Lemma Report_eq_trans : forall E a b c h,
  Report.__hash__ E a = Ok h ->
  Report.__eq__ a (ObjReport b) = true -> Report.__eq__ b (ObjReport c) = true ->
  Report.__eq__ a (ObjReport c) = true.
Proof.
  intros E a b c h Hh Hab Hbc. unfold Report.__hash__ in Hh.
  pose proof (tuple_items_hashable E _ h Hh) as Hitems.
  inversion Hitems as [|? ? [hd Hd] Hrest]; subst.
  inversion Hrest as [|? ? [hi Hi] _]; subst.
  unfold Report.__eq__ in *.
  apply andb_true_iff in Hab as [Hab1 Hab2]. apply andb_true_iff in Hbc as [Hbc1 Hbc2].
  rewrite (py_eq_trans_hashable E _ hd Hd _ _ Hab1 Hbc1).
  rewrite (py_eq_trans_hashable E _ hi Hi _ _ Hab2 Hbc2). reflexivity.
Qed.

Lemma Report_eq_sym : forall E a b h,
  Report.__hash__ E a = Ok h ->
  Report.__eq__ a (ObjReport b) = true -> Report.__eq__ b (ObjReport a) = true.
Proof.
  intros E a b h Hh Hab. unfold Report.__hash__ in Hh.
  pose proof (tuple_items_hashable E _ h Hh) as Hitems.
  inversion Hitems as [|? ? [hd Hd] Hrest]; subst.
  inversion Hrest as [|? ? [hi Hi] _]; subst.
  unfold Report.__eq__ in *.
  apply andb_true_iff in Hab as [Hab1 Hab2].
  rewrite (py_eq_sym_hashable E _ hd Hd _ Hab1).
  rewrite (py_eq_sym_hashable E _ hi Hi _ Hab2). reflexivity.
Qed.

Lemma Workspace_new_snapshot : forall E fuel parent item w x w',
  Workspace.new E fuel parent item w = (Return x, w') ->
  snapshot_of Workspace_original_data Workspace_identity ["id"] item x.
Proof.
  intros E fuel parent item w x w' H.
  unfold Workspace.new, Workspace.__init__, bind in H.
  destruct item as [ | | | | | | |d]; try discriminate.
  cbn [unpack_kwargs] in H.
  destruct (existsb _ _); cbn [lift] in H; [discriminate|].
  unfold ret at 1 in H.
  destruct (PbiAPI.shared E fuel None None w) as [[api| | |] w1]; try discriminate.
  inversion H; subst. split; reflexivity.
Qed.

Ltac pure_new_snapshot H :=
  unfold bind in H;
  match type of H with
  | context [unpack_kwargs _ ?item] => destruct item; try discriminate
  end;
  cbn [unpack_kwargs] in H;
  match type of H with
  | context [existsb ?f ?l] => destruct (existsb f l)
  end;
  cbn [lift] in H; [discriminate|];
  unfold ret in H; inversion H; subst; split; reflexivity.

Lemma User_new_snapshot : forall parent item w x w',
  User.new parent item w = (Return x, w') ->
  snapshot_of User_original_data User_identity ["emailAddress"] item x.
Proof. intros parent item w x w' H. unfold User.new in H. pure_new_snapshot H. Qed.

Lemma SemanticModel_new_snapshot : forall parent item w x w',
  SemanticModel.new parent item w = (Return x, w') ->
  snapshot_of SemanticModel_original_data SemanticModel_identity ["id"] item x.
Proof.
  intros parent item w x w' H. unfold SemanticModel.new in H. pure_new_snapshot H.
Qed.

Lemma App_new_snapshot : forall service item w x w',
  App.new service item w = (Return x, w') ->
  snapshot_of App_original_data App_identity ["id"] item x.
Proof. intros service item w x w' H. unfold App.new in H. pure_new_snapshot H. Qed.

Section SetOfSnapshots.
Context {A : Type} (E : Env) (new : PyVal -> M World A)
        (hash : A -> result Z) (eq : A -> A -> bool)
        (data_of : A -> Kwargs) (identity : A -> list PyVal) (names : list string).
Context (Heq_hash : forall x y, eq y x = true -> hash y = hash x).
Context (Htrans : forall a b c, (exists h, hash a = Ok h) ->
                                eq a b = true -> eq b c = true -> eq a c = true).
Context (Hnew : forall item w x w',
            new item w = (Return x, w') -> snapshot_of data_of identity names item x).

Lemma set_comprehension_first_of_each : forall items w s w',
  set_comprehension new hash eq items [] w = (Return s, w') ->
  exists xs,
    Forall2 (snapshot_of data_of identity names) items xs
    /\ s = collected eq xs []
    /\ holds_the_first_of_each eq xs s.
Proof.
  intros items w s w' H.
  destruct (set_comprehension_collects new hash eq Heq_hash items [] w s w'
              (Forall_nil _) H) as (xs & Hbuilt & Hhash & ->).
  exists xs. split; [|split; [reflexivity|]].
  - clear - Hbuilt Hnew. induction Hbuilt as [|item x items xs (w0 & w1 & Hx) _ IH];
      constructor; [|exact IH].
    apply (Hnew _ _ _ _ Hx).
  - apply (collected_holds_the_first_of_each A eq
             (fun y => exists h, hash y = Ok h) xs Htrans Hhash).
Qed.
End SetOfSnapshots.

Lemma py_eq_trans_key : forall E (x y z : PyVal),
  (exists h, py_hash E x = Ok h) ->
  py_eq x y = true -> py_eq y z = true -> py_eq x z = true.
Proof.
  intros E x y z [h Hh] Hxy Hyz. apply (py_eq_trans_hashable E x h Hh y z Hxy Hyz).
Qed.

(** From a fetch that succeeded to the comprehension that built its set. *)
Ltac fetch_succeeded H :=
  unfold lift, bind, get_self, in_world, set_self, raise, logger, ret in H;
  cbn [fst snd] in H; cbv zeta in H |- *;
  match type of H with
  | context [fetch_json ?E ?api ?url ?w] =>
      let response := fresh "response" in
      let data := fresh "data" in
      let w1 := fresh "w1" in
      let Hfetch := fresh "Hfetch" in
      destruct (fetch_json E api url w) as [[[response data]| | |] w1] eqn:Hfetch;
      try discriminate;
      cbn [fst snd] in H;
      destruct data; try discriminate;
      match type of H with
      | context [py_iter ?v] =>
          let items := fresh "items" in
          let Hiter := fresh "Hiter" in
          destruct (py_iter v) as [items|] eqn:Hiter; [|discriminate];
          cbn [fst snd] in H;
          match type of H with
          | context [set_comprehension ?new ?hash ?eq items ?acc w1] =>
              let s := fresh "s" in
              let w2 := fresh "w2" in
              let Hset := fresh "Hset" in
              destruct (set_comprehension new hash eq items acc w1)
                as [[s| | |] w2] eqn:Hset;
              try discriminate;
              cbn [fst snd] in H; injection H as <- <-;
              unfold fetched_the_first_of_each;
              eexists _, _, items, _
          end
      end
  end.

Ltac first_of_each E Hset Hiter eq_hash eq_trans new_snapshot :=
  match type of Hset with
  | set_comprehension ?new ?hash ?eq ?items [] ?w1 = (Return ?s, ?w2) =>
      let xs := fresh "xs" in
      let Hsnap := fresh "Hsnap" in
      let Hcol := fresh "Hcol" in
      let Hfirst := fresh "Hfirst" in
      destruct (set_comprehension_first_of_each new hash eq _ _ _
                  eq_hash eq_trans new_snapshot items w1 s w2 Hset)
        as (xs & Hsnap & Hcol & Hfirst);
      exists xs;
      split; [eassumption|]; split; [exact Hiter|]; split; [exact Hsnap|];
      split; [exact Hcol|exact Hfirst]
  end.

(** When a fetch succeeds, the set it assigns is built from the answer to
    its own GET: the entities built from the items of ["value"], in their
    order, each one unless an equal one came before it.  So no two entries
    are equal, every entry was built from an item of the answer, and of
    items with equal identity keys the first one stays. *)
Theorem fetch_holds_each_item_once :
  forall E fuel top skip filter,
    (forall (self : Workspace_t) w self' w',
       (Workspace.get_reports E fuel (self, w) = (Return tt, (self', w')) ->
        fetched_the_first_of_each E (Workspace_api self) (reports_url E self) w
          Report_original_data Report_identity ["datasetId"; "id"]
          (fun a b => Report.__eq__ a (ObjReport b)) (reports self'))
       /\ (Workspace.get_semantic_models E (self, w) = (Return tt, (self', w')) ->
           fetched_the_first_of_each E (Workspace_api self)
             (semantic_models_url E self) w
             SemanticModel_original_data SemanticModel_identity ["id"]
             (fun a b => SemanticModel.__eq__ a (ObjSemanticModel b))
             (semantic_models self'))
       /\ (Workspace.get_users E top skip (self, w) = (Return tt, (self', w')) ->
           fetched_the_first_of_each E (Workspace_api self)
             (users_url E self top skip) w
             User_original_data User_identity ["emailAddress"]
             (fun a b => User.__eq__ a (ObjUser b)) (users self')))
    /\ (forall (self : Service_t) w self' w',
          (Service.get_workspaces E fuel filter top skip (self, w)
           = (Return tt, (self', w')) ->
           fetched_the_first_of_each E (Service_api self)
             (workspaces_url filter top skip) w
             Workspace_original_data Workspace_identity ["id"]
             (fun a b => Workspace.__eq__ a (ObjWorkspace b)) (workspaces self'))
          /\ (Service.get_apps E (self, w) = (Return tt, (self', w')) ->
              fetched_the_first_of_each E (Service_api self) apps_url w
                App_original_data App_identity ["id"]
                (fun a b => App.__eq__ a (ObjApp b)) (apps self'))).
Proof.
  intros E fuel top skip filter. split.
  - intros self w self' w'. split; [|split]; intros H.
    + unfold Workspace.get_reports, reports_url in *. fetch_succeeded H.
      first_of_each E Hset Hiter (Report_eq_hash E)
        (fun a b c (Ha : exists h, Report.__hash__ E a = Ok h) =>
           match Ha with ex_intro _ h Hh => Report_eq_trans E a b c h Hh end)
        (Report_new_snapshot E fuel (OwnerWorkspace (Workspace_id self))).
    + unfold Workspace.get_semantic_models, semantic_models_url in *. fetch_succeeded H.
      first_of_each E Hset Hiter
        (fun x y : SemanticModel_t =>
           py_eq_hash E (SemanticModel_id y) (SemanticModel_id x))
        (fun a b c : SemanticModel_t =>
           py_eq_trans_key E (SemanticModel_id a) (SemanticModel_id b)
             (SemanticModel_id c))
        (SemanticModel_new_snapshot (OwnerWorkspace (Workspace_id self))).
    + unfold Workspace.get_users, users_url in *. fetch_succeeded H.
      first_of_each E Hset Hiter
        (fun x y : User_t => py_eq_hash E (User_email y) (User_email x))
        (fun a b c : User_t =>
           py_eq_trans_key E (User_email a) (User_email b) (User_email c))
        (User_new_snapshot (OwnerWorkspace (Workspace_id self))).
  - intros self w self' w'. split; intros H.
    + unfold Service.get_workspaces, workspaces_url in *. fetch_succeeded H.
      first_of_each E Hset Hiter
        (fun x y : Workspace_t => py_eq_hash E (Workspace_id y) (Workspace_id x))
        (fun a b c : Workspace_t =>
           py_eq_trans_key E (Workspace_id a) (Workspace_id b) (Workspace_id c))
        (Workspace_new_snapshot E fuel OwnerService).
    + unfold Service.get_apps, apps_url in *. fetch_succeeded H.
      first_of_each E Hset Hiter
        (fun x y : App_t => py_eq_hash E (App_id y) (App_id x))
        (fun a b c : App_t => py_eq_trans_key E (App_id a) (App_id b) (App_id c))
        (App_new_snapshot OwnerService).
Qed.

Lemma fetch_holds_each_item_once_witness :
  let E := env_repeated_item in
  let self := sample_workspace E in
  let w := snd (started E) in
  exists self' w',
    Workspace.get_reports E 2 (self, w) = (Return tt, (self', w'))
    /\ fetched_the_first_of_each E (Workspace_api self) (reports_url E self) w
         Report_original_data Report_identity ["datasetId"; "id"]
         (fun a b => Report.__eq__ a (ObjReport b)) (reports self')
    /\ map Report_name (reports self') = [PyStr "Sales"; PyStr "Costs"].
Proof.
  intros E self w.
  destruct (Workspace.get_reports E 2 (self, w)) as [r [self' w']] eqn:Hrun.
  assert (Hr : r = Return tt) by (vm_compute in Hrun; congruence).
  subst r. exists self', w'. split; [reflexivity|]. split.
  - exact (proj1 (proj1 (fetch_holds_each_item_once E 2 None None None)
                    self w self' w') Hrun).
  - vm_compute in Hrun. injection Hrun as <- _. reflexivity.
Defined.

(** ** Fetches: the requests they send *)

Lemma fetch_traffic_only : forall req w, traffic_only (fetch_traffic req w).
Proof.
  intros req w w1 w2 Hc Hs (j & s & Hj & Hsj & Hcalls & Hsleeps).
  exists j, s. unfold accounted. repeat split; try lia; congruence.
Qed.

Lemma fetch_json_traffic : forall E api url w client,
  nth_error (heap w) api = Some client ->
  fetch_traffic (get_request url (header client) (proxies client) 10) w
    (snd (fetch_json E api url w)).
Proof.
  intros E api url w client Hc.
  unfold fetch_json, bind at 1. unfold deref at 1. rewrite Hc.
  unfold AbstractPbiAPI.make_api_get_request.
  destruct (loop_costs
              (AbstractPbiAPI.get_attempt E url (header client) (proxies client) 10 5)
              (get_request url (header client) (proxies client) 10)
              (mkExn APIError AbstractPbiAPI.max_retries_message None)
              (get_attempt_costs E url (header client) (proxies client) 10 5)
              5 0 w) as (j & s & Hj & Hs & Hpos & Hcalls & Hsleeps).
  change (seq 0 5) with (range 5) in Hcalls, Hsleeps.
  unfold bind, ret, lift.
  destruct (for_attempts _ (range 5) _ w) as [[response| | |] w1]; cbn [fst snd] in *;
    try (exists j, s; unfold accounted; repeat split; try lia; assumption).
  destruct (json response); cbn [fst snd];
    exists j, s; unfold accounted; repeat split; try lia; assumption.
Qed.

Section QuietFetch.
Context (I : World -> Prop) (HI : traffic_only I).

Lemma quiet_Report_new : forall E fuel parent item,
  keeps I (Report.new E fuel parent item).
Proof.
  intros. unfold Report.new. apply keeps_bind; [apply keeps_lift|]. intros kwargs.
  apply (quiet_constructors I HI E fuel None None parent kwargs).
Qed.

Lemma quiet_Workspace_new : forall E fuel parent item,
  keeps I (Workspace.new E fuel parent item).
Proof.
  intros. unfold Workspace.new. apply keeps_bind; [apply keeps_lift|]. intros kwargs.
  apply (quiet_constructors I HI E fuel None None parent kwargs).
Qed.

Lemma quiet_comprehension :
  forall (A : Type) (new : PyVal -> M World A) hash eq (v : PyVal),
    (forall item, keeps I (new item)) ->
    keeps I (bind (lift (py_iter v))
               (fun items => set_comprehension new hash eq items [])).
Proof.
  intros A new hash eq v Hnew.
  apply keeps_bind; [apply keeps_lift|]. intros items.
  apply keeps_set_comprehension. exact Hnew.
Qed.
End QuietFetch.

(** After [fetch_json] a fetch sends nothing more. *)
Ltac fetch_traffic_of Hclient new_quiet :=
  try (unfold get_self at 1; unfold bind at 1; cbn [fst snd]);
  unfold bind at 1; unfold in_world at 1; cbn [fst snd];
  match goal with
  | |- context [fetch_json ?E ?api ?url ?w] =>
      let Hj := fresh "Hj" in
      let r := fresh "r" in
      let w1 := fresh "w1" in
      pose proof (fetch_json_traffic E api url w _ Hclient) as Hj;
      destruct (fetch_json E api url w) as [r w1]; cbn [fst snd] in Hj |- *;
      destruct r as [[? []]| | |]; cbn [fst snd]; try exact Hj;
      match goal with
      | |- fetch_traffic ?req ?w0 (snd (snd (?m (?self, w1)))) =>
          refine ((_ : keeps (of_world (fetch_traffic req w0)) m) (self, w1) Hj)
      end;
      try (apply keeps_bind;
           [apply keeps_in_world, quiet_logger, fetch_traffic_only|]; intros _);
      try apply keeps_raise;
      apply keeps_bind; [|intros ?s; apply keeps_set_self];
      apply keeps_in_world, quiet_comprehension; intros ?item; new_quiet
  end.

Lemma string_app_assoc : forall s1 s2 s3 : string,
  ((s1 ++ s2) ++ s3 = s1 ++ (s2 ++ s3))%string.
Proof.
  induction s1 as [|c s1 IH]; intros s2 s3; cbn; [reflexivity|].
  rewrite IH. reflexivity.
Qed.

Ltac url_as_specified top skip filter :=
  unfold bind at 1; unfold get_self at 1; cbn [fst snd];
  match goal with
  | |- fetch_traffic (get_request ?spec _ _ _) _ (snd (snd ?run)) =>
      match run with
      | context [fetch_json _ _ ?code] =>
          replace spec with code;
          [|unfold query_string, present_int, present_str, truthy_int, truthy_str;
            destruct top as [?n|]; [destruct (Z.eqb n 0)|];
            (destruct skip as [?m|]; [destruct (Z.eqb m 0)|]);
            (destruct filter as [?f|]; [destruct (String.eqb f "")|]);
            rewrite ?string_app_assoc; reflexivity]
      end
  end.

(** Every fetch sends one GET request, repeated at most five times: to the
    endpoint of its collection under [BASE_URL], with the header and the
    proxies of the shared client and a timeout of 10.  A query string lists
    [$filter], [$top] and [$skip] in this order, joined with [&]; an empty
    filter and a zero or missing [top] or [skip] are left out.  Nothing else
    is sent, however the fetch ends. *)
Theorem fetch_sends_one_request :
  forall E fuel top skip filter workspace_id,
    (forall (self : Workspace_t) w client,
       nth_error (heap w) (Workspace_api self) = Some client ->
       let sent path (run : Outcome unit * (Workspace_t * World)) :=
         fetch_traffic
           (get_request
              (AbstractPbiAPI.BASE_URL
               ++ ("groups/" ++ py_str E (Workspace_id self) ++ path))
              (header client) (proxies client) 10)
           w (snd (snd run)) in
       sent "/reports" (Workspace.get_reports E fuel (self, w))
       /\ sent "/datasets" (Workspace.get_semantic_models E (self, w))
       /\ sent ("/users?"
                ++ query_string [("$top", present_int top); ("$skip", present_int skip)])
            (Workspace.get_users E top skip (self, w))
       /\ sent "/dashboards" (Workspace.get_dashboards E (self, w)))
    /\ (forall (self : Service_t) w client,
          nth_error (heap w) (Service_api self) = Some client ->
          let sent path (w' : World) :=
            fetch_traffic
              (get_request (AbstractPbiAPI.BASE_URL ++ path)
                 (header client) (proxies client) 10)
              w w' in
          sent ("groups?"
                ++ query_string [("$filter", present_str filter);
                                 ("$top", present_int top);
                                 ("$skip", present_int skip)])
            (snd (snd (Service.get_workspaces E fuel filter top skip (self, w))))
          /\ sent ("groups/" ++ workspace_id)
               (snd (snd (Service.get_workspace E fuel workspace_id (self, w))))
          /\ sent "apps" (snd (snd (Service.get_apps E (self, w))))).
Proof.
  intros E fuel top skip filter workspace_id. split.
  - intros self w client Hc sent. subst sent. cbv beta.
    split; [|split; [|split]].
    + unfold Workspace.get_reports.
      fetch_traffic_of Hc ltac:(apply quiet_Report_new, fetch_traffic_only).
    + unfold Workspace.get_semantic_models.
      fetch_traffic_of Hc
        ltac:(unfold SemanticModel.new;
              apply keeps_bind; [apply keeps_lift|intros ?kw; apply keeps_ret]).
    + unfold Workspace.get_users. cbv zeta. url_as_specified top skip filter.
      fetch_traffic_of Hc
        ltac:(unfold User.new;
              apply keeps_bind; [apply keeps_lift|intros ?kw; apply keeps_ret]).
    + unfold Workspace.get_dashboards.
      fetch_traffic_of Hc ltac:(apply keeps_lift).
  - intros self w client Hc sent. subst sent. cbv beta.
    split; [|split].
    + unfold Service.get_workspaces. cbv zeta. url_as_specified top skip filter.
      fetch_traffic_of Hc ltac:(apply quiet_Workspace_new, fetch_traffic_only).
    + unfold Service.get_workspace.
      unfold bind at 1; unfold get_self at 1; cbn [fst snd].
      unfold bind at 1; unfold in_world at 1; cbn [fst snd].
      match goal with
      | |- context [fetch_json ?E ?api ?url ?w] =>
          pose proof (fetch_json_traffic E api url w _ Hc) as Hj;
          destruct (fetch_json E api url w) as [r w1]; cbn [fst snd] in Hj |- *
      end.
      destruct r as [[? []]| | |]; cbn [fst snd]; try exact Hj;
        match goal with
        | |- fetch_traffic ?req ?w0 (snd (snd (?m (?self, w1)))) =>
            refine ((_ : keeps (of_world (fetch_traffic req w0)) m) (self, w1) Hj)
        end;
        try (apply keeps_bind;
             [apply keeps_in_world, quiet_logger, fetch_traffic_only
             |intros _; apply keeps_raise]).
      apply keeps_in_world, quiet_Workspace_new, fetch_traffic_only.
    + unfold Service.get_apps.
      fetch_traffic_of Hc
        ltac:(unfold App.new;
              apply keeps_bind; [apply keeps_lift|intros ?kw; apply keeps_ret]).
Qed.

Lemma fetch_sends_one_request_witness :
  let E := env_200 in
  let self := sample_workspace E in
  let w := snd (started E) in
  exists client,
    nth_error (heap w) (Workspace_api self) = Some client
    /\ header client = Some [("Authorization", "Bearer token")]
    /\ fetch_traffic
         (get_request "https://api.powerbi.com/v1.0/myorg/groups/w1/users?$top=5"
            (header client) (proxies client) 10)
         w (snd (snd (Workspace.get_users E (Some 5%Z) (Some 0%Z) (self, w)))).
Proof.
  intros E self w.
  destruct (nth_error (heap w) (Workspace_api self)) as [client|] eqn:Hc;
    [|vm_compute in Hc; discriminate].
  exists client. split; [reflexivity|]. split.
  - vm_compute in Hc. injection Hc as <-. reflexivity.
  - destruct (proj1 (fetch_sends_one_request E 2 (Some 5%Z) (Some 0%Z) None "")
                self w client Hc) as (_ & _ & Husers & _).
    exact Husers.
Defined.

(** ** Fetches: what the entities built look like *)

(** Members of a set after [add] and after a comprehension. *)
Lemma set_add_members : forall (A : Type) hash eq (x : A) s s',
  set_add hash eq x s = Ok s' ->
  forall y, In y s' -> In y s \/ y = x.
Proof.
  intros A hash eq x s s' H y Hy. unfold set_add in H.
  destruct (hash x); [|discriminate].
  destruct (existsb _ s); inversion H; subst; auto.
  apply in_app_or in Hy as [Hy|[Hy|[]]]; auto.
Qed.

Lemma set_comprehension_members :
  forall (A : Type) (new : PyVal -> M World A) hash eq (Q : PyVal -> A -> Prop),
    (forall item w x w', new item w = (Return x, w') -> Q item x) ->
    forall items acc w s w',
      set_comprehension new hash eq items acc w = (Return s, w') ->
      forall y, In y s -> In y acc \/ exists item, In item items /\ Q item y.
Proof.
  intros A new hash eq Q Hnew.
  induction items as [|item items IH]; intros acc w s w' H y Hy.
  - inversion H; subst. auto.
  - cbn [set_comprehension] in H. unfold bind at 1 in H.
    destruct (new item w) as [[x| | |] w1] eqn:Hx; try discriminate.
    unfold bind at 1 in H.
    destruct (set_add hash eq x acc) as [acc'|e] eqn:Hadd; cbn [lift] in H;
      [|discriminate].
    unfold ret at 1 in H.
    destruct (IH acc' w1 s w' H y Hy) as [Hacc|(item' & Hin & HQ)].
    + destruct (set_add_members A hash eq x acc acc' Hadd y Hacc) as [Hold| ->].
      * auto.
      * right. exists item. split; [left; reflexivity|]. eapply Hnew; eauto.
    + right. exists item'. split; [right; exact Hin|exact HQ].
Qed.


Lemma Workspace_new_fresh : forall E fuel item w x w',
  Workspace.new E fuel OwnerService item w = (Return x, w') -> fresh_workspace x.
Proof.
  intros E fuel item w x w' H.
  unfold Workspace.new, Workspace.__init__, bind in H.
  destruct (unpack_kwargs ["self"; "parent"] item) as [kwargs|]; cbn [lift] in H;
    [|discriminate].
  unfold ret at 1 in H.
  destruct (PbiAPI.shared E fuel None None w) as [[api| | |] w1]; try discriminate.
  inversion H; subst. unfold fresh_workspace. cbn. repeat split.
Qed.

(** The workspaces a service holds after [get_workspaces] are all newly
    built: whatever had been fetched into the workspaces it held before
    (reports, semantic models, users, dashboards) is gone with them.  The
    workspace [get_workspace] returns is newly built as well. *)
Theorem get_workspaces_builds_fresh_workspaces :
  forall E fuel filter top skip workspace_id (self : Service_t) w,
    (forall self' w',
       Service.get_workspaces E fuel filter top skip (self, w)
       = (Return tt, (self', w')) ->
       forall x, In x (workspaces self') -> fresh_workspace x)
    /\ (forall x st,
          Service.get_workspace E fuel workspace_id (self, w) = (Return x, st) ->
          fresh_workspace x).
Proof.
  intros E fuel filter top skip workspace_id self w. split.
  - intros self' w' H x Hx.
    unfold Service.get_workspaces in H.
    unfold lift, bind, get_self, in_world, set_self, raise, logger, ret in H.
    cbn [fst snd] in H.
    match type of H with
    | context [fetch_json ?E ?api ?url ?w] =>
        destruct (fetch_json E api url w) as [[[response data]| | |] w1];
        try discriminate
    end.
    cbn [fst snd] in H. destruct data as [ | | | | | | |d]; try discriminate.
    destruct (py_iter (value_of d)) as [items|]; [|discriminate].
    cbn [fst snd] in H.
    match type of H with
    | context [set_comprehension ?new ?hash ?eq items ?acc w1] =>
        destruct (set_comprehension new hash eq items acc w1) as [[s| | |] w2] eqn:Hset;
        try discriminate
    end.
    cbn [fst snd] in H. injection H as <- <-. cbn [workspaces] in Hx.
    destruct (set_comprehension_members Workspace_t _ _ _
                (fun _ x => fresh_workspace x)
                (Workspace_new_fresh E fuel) items [] w1 s w2 Hset x Hx)
      as [[]|(item & _ & Hfresh)].
    exact Hfresh.
  - intros x st H.
    unfold Service.get_workspace in H.
    unfold bind, get_self, in_world, raise, logger in H. cbn [fst snd] in H.
    match type of H with
    | context [fetch_json ?E ?api ?url ?w] =>
        destruct (fetch_json E api url w) as [[[response data]| | |] w1];
        try discriminate
    end.
    cbn [fst snd] in H. destruct data as [ | | | | | | |d]; try discriminate.
    cbn [fst snd] in H.
    destruct (Workspace.new E fuel OwnerService (PyDict d) w1) as [r w2] eqn:Hnew.
    destruct r as [ws| | |]; try discriminate.
    injection H as <- _. apply (Workspace_new_fresh E fuel (PyDict d) w1 ws w2 Hnew).
Qed.

Lemma get_workspaces_builds_fresh_workspaces_witness :
  let E := env_one_workspace in
  let service :=
    {| Service_api := 0;
       workspaces := [Workspace.with_reports (sample_workspace E) [report_before]];
       apps := [] |} in
  exists self' w',
    Service.get_workspaces E 2 None None None (service, snd (started E))
    = (Return tt, (self', w'))
    /\ List.length (workspaces self') = 1
    /\ forall x, In x (workspaces self') -> fresh_workspace x.
Proof.
  intros E service.
  destruct (Service.get_workspaces E 2 None None None (service, snd (started E)))
    as [r [self' w']] eqn:Hrun.
  assert (Hr : r = Return tt) by (vm_compute in Hrun; congruence).
  subst r. exists self', w'. split; [reflexivity|]. split.
  - vm_compute in Hrun. injection Hrun as <- _. reflexivity.
  - exact (proj1 (get_workspaces_builds_fresh_workspaces E 2 None None None ""
                    service (snd (started E))) self' w' Hrun).
Defined.

(** ** The session is never refreshed *)

Section Kept.
Context (I : World -> Prop).
Context (Hlogger : forall level message, keeps I (logger level message)).
Context (Hsleep : forall seconds, keeps I (time_sleep seconds)).
Context (Hrequest : forall E req, keeps I (requests_request E req)).
Context (Hshared : forall E fuel proxy_url saved_token,
            keeps I (PbiAPI.shared E fuel proxy_url saved_token)).

Lemma kept_handle_response : forall response url,
  keeps I (AbstractPbiAPI._handle_response response url).
Proof.
  intros response url. unfold AbstractPbiAPI._handle_response.
  apply keeps_if; [apply keeps_ret|].
  destruct (AbstractPbiAPI.dict_get _ _ _) as [error_class message].
  apply keeps_bind; [apply Hlogger|intros _; apply keeps_raise].
Qed.

Ltac kept_attempt :=
  apply keeps_try_except;
  [ apply keeps_bind; [apply Hrequest|]; intros ?response;
    apply keeps_bind; [apply Hlogger|]; intros _;
    apply keeps_bind; [apply kept_handle_response|]; intros ?r; apply keeps_ret
  | intros ?e; repeat apply keeps_if; try apply keeps_raise;
    repeat (apply keeps_bind; [first [apply Hlogger | apply Hsleep]|]; intros _);
    first [apply keeps_ret | apply keeps_raise] ].

Lemma kept_get : forall E url headers proxies timeout_duration max_retries,
  keeps I (AbstractPbiAPI.make_api_get_request E url headers proxies
             timeout_duration max_retries).
Proof.
  intros. unfold AbstractPbiAPI.make_api_get_request.
  apply keeps_for_attempts; [|apply keeps_raise].
  intros a. unfold AbstractPbiAPI.get_attempt, AbstractPbiAPI._log_retry_attempt.
  kept_attempt.
Qed.

Lemma kept_post : forall E url headers proxies timeout_duration max_retries payload,
  keeps I (AbstractPbiAPI.make_api_post_request E url headers proxies
             timeout_duration max_retries payload).
Proof.
  intros. unfold AbstractPbiAPI.make_api_post_request.
  apply keeps_for_attempts; [|apply keeps_raise].
  intros a. unfold AbstractPbiAPI.post_attempt, AbstractPbiAPI._log_retry_attempt.
  kept_attempt.
Qed.

Lemma kept_delete : forall E url headers proxies timeout_duration max_retries,
  keeps I (AbstractPbiAPI.make_api_delete_request E url headers proxies
             timeout_duration max_retries).
Proof.
  intros. unfold AbstractPbiAPI.make_api_delete_request.
  apply keeps_for_attempts; [|apply keeps_raise].
  intros a. unfold AbstractPbiAPI.delete_attempt, AbstractPbiAPI._log_retry_attempt.
  kept_attempt.
Qed.

Lemma kept_fetch_json : forall E api url, keeps I (fetch_json E api url).
Proof.
  intros E api url. unfold fetch_json.
  apply keeps_bind.
  - intros w H. unfold deref. destruct (nth_error _ _); exact H.
  - intros client. apply keeps_bind; [apply kept_get|]. intros response.
    apply keeps_bind; [apply keeps_lift|]. intros data. apply keeps_ret.
Qed.

Lemma kept_comprehension :
  forall (A : Type) (new : PyVal -> M World A) hash eq items acc,
    (forall item, keeps I (new item)) ->
    keeps I (set_comprehension new hash eq items acc).
Proof.
  intros A new hash eq items. induction items as [|item items IH]; intros acc Hnew;
    cbn [set_comprehension]; [apply keeps_ret|].
  apply keeps_bind; [apply Hnew|]. intros x.
  apply keeps_bind; [apply keeps_lift|]. intros acc'. apply IH. exact Hnew.
Qed.

Lemma kept_Workspace_new : forall E fuel parent item,
  keeps I (Workspace.new E fuel parent item).
Proof.
  intros. unfold Workspace.new, Workspace.__init__.
  apply keeps_bind; [apply keeps_lift|]. intros kwargs.
  apply keeps_bind; [apply Hshared|intros api; apply keeps_ret].
Qed.

Lemma kept_Report_new : forall E fuel parent item,
  keeps I (Report.new E fuel parent item).
Proof.
  intros. unfold Report.new, Report.__init__.
  apply keeps_bind; [apply keeps_lift|]. intros kwargs.
  apply keeps_bind; [apply Hshared|intros api; apply keeps_ret].
Qed.

Ltac kept_fetch new_kept :=
  apply keeps_bind; [apply keeps_get_self|]; intros ?self;
  apply keeps_bind; [apply keeps_in_world, kept_fetch_json|]; intros ?rd;
  match goal with
  | |- context [snd ?rd] => destruct (snd rd)
  end;
  try (apply keeps_bind; [apply keeps_in_world, Hlogger|]; intros _);
  try apply keeps_raise;
  apply keeps_bind; [|intros ?s; apply keeps_set_self];
  apply keeps_in_world, keeps_bind; [apply keeps_lift|]; intros ?items;
  apply kept_comprehension; intros ?item; new_kept.

Lemma kept_fetches : forall E fuel filter top skip workspace_id,
  keeps (of_world I) (Workspace.get_reports E fuel)
  /\ keeps (of_world I) (Workspace.get_semantic_models E)
  /\ keeps (of_world I) (Workspace.get_users E top skip)
  /\ keeps (of_world I) (Workspace.get_dashboards E)
  /\ keeps (of_world I) (Service.get_workspaces E fuel filter top skip)
  /\ keeps (of_world I) (Service.get_workspace E fuel workspace_id)
  /\ keeps (of_world I) (Service.get_apps E).
Proof.
  intros E fuel filter top skip workspace_id.
  repeat match goal with |- _ /\ _ => split end.
  - unfold Workspace.get_reports. kept_fetch ltac:(apply kept_Report_new).
  - unfold Workspace.get_semantic_models.
    kept_fetch ltac:(unfold SemanticModel.new;
                     apply keeps_bind; [apply keeps_lift|intros ?kw; apply keeps_ret]).
  - unfold Workspace.get_users.
    kept_fetch ltac:(unfold User.new;
                     apply keeps_bind; [apply keeps_lift|intros ?kw; apply keeps_ret]).
  - unfold Workspace.get_dashboards. kept_fetch ltac:(apply keeps_lift).
  - unfold Service.get_workspaces. kept_fetch ltac:(apply kept_Workspace_new).
  - unfold Service.get_workspace.
    apply keeps_bind; [apply keeps_get_self|]. intros self.
    apply keeps_bind; [apply keeps_in_world, kept_fetch_json|]. intros rd.
    destruct (snd rd);
      try (apply keeps_bind; [apply keeps_in_world, Hlogger|
                              intros _; apply keeps_raise]).
    apply keeps_in_world, kept_Workspace_new.
  - unfold Service.get_apps.
    kept_fetch ltac:(unfold App.new;
                     apply keeps_bind; [apply keeps_lift|intros ?kw; apply keeps_ret]).
Qed.
End Kept.

Lemma same_session_logger : forall w level message,
  keeps (same_session w) (logger level message).
Proof. intros w level message w1 H. exact H. Qed.

Lemma same_session_sleep : forall w seconds, keeps (same_session w) (time_sleep seconds).
Proof. intros w seconds w1 H. exact H. Qed.

Lemma same_session_request : forall w E req,
  keeps (same_session w) (requests_request E req).
Proof.
  intros w E req w1 H. unfold requests_request.
  destruct (transport E _ req); exact H.
Qed.

Lemma same_session_shared : forall w E fuel proxy_url saved_token,
  one_client w -> heap w <> [] ->
  keeps (same_session w) (PbiAPI.shared E fuel proxy_url saved_token).
Proof.
  intros w E fuel proxy_url saved_token Hone Hne w1 (Hl & Hh & Hp).
  rewrite shared_existing; [repeat split; assumption| |congruence].
  unfold one_client in *. rewrite Hh, Hp. exact Hone.
Qed.

(** No request method and no fetch ever re-authenticates.  Whatever the
    server answers, a 401 or a 403 "Token expired" included, the three
    request methods leave the number of logins, the clients and the
    singleton as they were; and so does every fetch of a process whose
    client exists.  The token that was rejected is the token the next call
    sends. *)
Theorem session_is_never_refreshed :
  forall E fuel url headers proxies timeout_duration max_retries payload
         filter top skip workspace_id w,
    (same_session w
       (snd (AbstractPbiAPI.make_api_get_request E url headers proxies
               timeout_duration max_retries w))
     /\ same_session w
          (snd (AbstractPbiAPI.make_api_post_request E url headers proxies
                  timeout_duration max_retries payload w))
     /\ same_session w
          (snd (AbstractPbiAPI.make_api_delete_request E url headers proxies
                  timeout_duration max_retries w)))
    /\ (one_client w -> heap w <> [] ->
        (forall self : Workspace_t,
           same_session w (snd (snd (Workspace.get_reports E fuel (self, w))))
           /\ same_session w (snd (snd (Workspace.get_semantic_models E (self, w))))
           /\ same_session w (snd (snd (Workspace.get_users E top skip (self, w))))
           /\ same_session w (snd (snd (Workspace.get_dashboards E (self, w)))))
        /\ (forall self : Service_t,
              same_session w
                (snd (snd (Service.get_workspaces E fuel filter top skip (self, w))))
              /\ same_session w
                   (snd (snd (Service.get_workspace E fuel workspace_id (self, w))))
              /\ same_session w (snd (snd (Service.get_apps E (self, w)))))).
Proof.
  intros E fuel url headers proxies timeout_duration max_retries payload
    filter top skip workspace_id w.
  assert (Hw : same_session w w) by (repeat split).
  split.
  - split; [|split].
    + apply (kept_get (same_session w) (same_session_logger w) (same_session_sleep w)
               (same_session_request w)). exact Hw.
    + apply (kept_post (same_session w) (same_session_logger w) (same_session_sleep w)
               (same_session_request w)). exact Hw.
    + apply (kept_delete (same_session w) (same_session_logger w) (same_session_sleep w)
               (same_session_request w)). exact Hw.
  - intros Hone Hne.
    destruct (kept_fetches (same_session w) (same_session_logger w)
                (same_session_sleep w) (same_session_request w)
                (fun E fuel p s => same_session_shared w E fuel p s Hone Hne)
                E fuel filter top skip workspace_id)
      as (H1 & H2 & H3 & H4 & H5 & H6 & H7).
    split.
    + intros self. split; [|split; [|split]].
      * apply (H1 (self, w)). exact Hw.
      * apply (H2 (self, w)). exact Hw.
      * apply (H3 (self, w)). exact Hw.
      * apply (H4 (self, w)). exact Hw.
    + intros self. split; [|split].
      * apply (H5 (self, w)). exact Hw.
      * apply (H6 (self, w)). exact Hw.
      * apply (H7 (self, w)). exact Hw.
Qed.

Lemma session_is_never_refreshed_witness :
  let E := env_403 in
  let w := snd (started E) in
  let out := Workspace.get_reports E 2 (sample_workspace E, w) in
  (exists e, fst out = Raise e /\ exn_class e = TokenExpiredError)
  /\ same_session w (snd (snd out)).
Proof.
  intros E w out. split.
  - eexists. split; vm_compute; reflexivity.
  - destruct (session_is_never_refreshed E 2 "" None None 10 5 None None None None "" w)
      as (_ & Hfetch).
    destruct Hfetch as (Hworkspace & _).
    + vm_compute. auto.
    + vm_compute. discriminate.
    + apply Hworkspace.
Defined.

(** ** Equality of entities: an equivalence but for NaN *)

Lemma py_eq_self : forall E v h,
  py_hash E v = Ok h -> py_eq v v = negb (is_nan v).
Proof.
  intros E v h H. destruct (is_nan v) eqn:Hnan.
  - destruct v as [ | | |[obj| | | ]| | | | ]; try discriminate. reflexivity.
  - apply (py_hash_refl E v h H Hnan).
Qed.

Lemma key_equivalence :
  forall (A : Type) E (key : A -> PyVal) (hash : A -> result Z) (eq : A -> A -> bool),
    (forall x, hash x = py_hash E (key x)) ->
    (forall x y, eq x y = py_eq (key x) (key y)) ->
    equivalence_but_for_nan hash eq (fun x => [key x]).
Proof.
  intros A E key hash eq Hhash Heq. split; [|split].
  - intros a h H. rewrite Heq. rewrite Hhash in H.
    rewrite (py_eq_self E _ h H). unfold key_has_nan. cbn [existsb].
    rewrite orb_false_r. reflexivity.
  - intros a b h H Hab. rewrite Heq in *. rewrite Hhash in H.
    apply (py_eq_sym_hashable E _ h H). exact Hab.
  - intros a b c h H Hab Hbc. rewrite Heq in *. rewrite Hhash in H.
    apply (py_eq_trans_hashable E _ h H (key b)); assumption.
Qed.

(** On the entities a set can hold (those whose key can be hashed) the
    [__eq__] of each kind is symmetric and transitive: [a == b] gives
    [b == a], and [a == b] with [b == c] gives [a == c].  An entity equals
    itself exactly when no field of its identity key is a NaN; one whose
    [id] came as a NaN is not equal to itself. *)
Theorem entity_equality_is_a_partial_equivalence : forall E,
  equivalence_but_for_nan (Workspace.__hash__ E)
    (fun a b => Workspace.__eq__ a (ObjWorkspace b)) Workspace_identity
  /\ equivalence_but_for_nan (Report.__hash__ E)
       (fun a b => Report.__eq__ a (ObjReport b)) Report_identity
  /\ equivalence_but_for_nan (User.__hash__ E)
       (fun a b => User.__eq__ a (ObjUser b)) User_identity
  /\ equivalence_but_for_nan (SemanticModel.__hash__ E)
       (fun a b => SemanticModel.__eq__ a (ObjSemanticModel b)) SemanticModel_identity
  /\ equivalence_but_for_nan (App.__hash__ E)
       (fun a b => App.__eq__ a (ObjApp b)) App_identity.
Proof.
  intros E. split; [|split; [|split; [|split]]].
  - apply (key_equivalence _ E Workspace_key); reflexivity.
  - split; [|split].
    + intros a h H. unfold Report.__hash__ in H.
      pose proof (tuple_items_hashable E _ h H) as Hitems.
      inversion Hitems as [|? ? [hd Hd] Hrest]; subst.
      inversion Hrest as [|? ? [hi Hi] _]; subst.
      unfold Report.__eq__, key_has_nan, Report_identity. cbn [existsb].
      rewrite (py_eq_self E _ hd Hd), (py_eq_self E _ hi Hi), orb_false_r.
      destruct (is_nan (Report_dataset_id a)), (is_nan (Report_id a)); reflexivity.
    + intros a b h H Hab. apply (Report_eq_sym E a b h H Hab).
    + intros a b c h H Hab Hbc. apply (Report_eq_trans E a b c h H Hab Hbc).
  - apply (key_equivalence _ E User_key); reflexivity.
  - apply (key_equivalence _ E SemanticModel_key); reflexivity.
  - apply (key_equivalence _ E App_key); reflexivity.
Qed.

Lemma entity_equality_is_a_partial_equivalence_witness :
  Report.__eq__ report_before (ObjReport report_before) = true
  /\ Report.__eq__ report_after (ObjReport report_before) = true
  /\ User.__eq__ user_after (ObjUser user_before) = true
  /\ Workspace.__eq__ workspace_nan (ObjWorkspace workspace_nan) = false.
Proof.
  destruct (entity_equality_is_a_partial_equivalence env_200)
    as ((Hwrefl & _) & (Hrefl & Hsym & _) & (_ & Husym & _) & _).
  split; [|split; [|split]].
  - apply (Hrefl report_before 4%Z). reflexivity.
  - apply (Hsym report_before report_after 4%Z); reflexivity.
  - apply (Husym user_before user_after 7%Z); reflexivity.
  - apply (Hwrefl workspace_nan 0%Z). reflexivity.
Defined.
